(** * pymbus: the M-Bus / wireless M-Bus telegram decoder

    A shallow embedding of the protocol core of pymbus
    ([src/protocol.py], [src/telegram.py], [src/utils/encryption.py],
    [src/drivers/driver_base.py]) and the properties of its codec
    primitives, frame parser and encoder, record parser, telegram
    analysis, access point and encryption and decryption steps.

    Conventions.  A Python [bytes] value is a [list Z] whose elements lie
    in [0, 256) ([is_bytes]); Python integers are [Z], with the bit
    operators [&], [|], [^], [<<], [>>] as [Z.land], [Z.lor], [Z.lxor],
    [Z.shiftl], [Z.shiftr]; cursors and lengths are [nat].  A function
    that returns [None] or raises is an [option]. *)

From Stdlib Require Import ZArith List Lia String Ascii Bool.
From stdpp Require Import base option list strings gmap.
Import ListNotations.

Local Open Scope Z_scope.

(** ** Byte strings *)

Abbreviation bytes := (list Z) (only parsing).

Definition is_byte (b : Z) : Prop := 0 <= b < 256.
Definition is_bytes (d : bytes) : Prop := Forall is_byte d.

(** [data[a:b]] for non-negative bounds (empty when [b <= a]). *)
Definition slice (a b : nat) (d : bytes) : bytes := take (b - a) (drop a d).

(** [data[i]] at an index the caller has checked to be in range. *)
Definition at_ (d : bytes) (i : nat) : Z := default 0 (d !! i).

(** ** Strings

    A Python [str] is a [string]; [ord] and [chr] are the character
    codes, which stay below 256 in everything modelled here. *)

Definition ord (c : ascii) : Z := Z.of_N (N_of_ascii c).
Definition chr (n : Z) : ascii := ascii_of_N (Z.to_N n).

(** One lower-case hexadecimal digit, and the format [f'{b:02x}'] of a
    byte. *)
Definition hex_digit (n : Z) : ascii :=
  if n <? 10 then chr (48 + n) else chr (87 + n).

Definition hex2 (b : Z) : string :=
  String (hex_digit (b / 16)) (String (hex_digit (b mod 16)) EmptyString).

(** [''.join(f'{b:02x}' for b in d)], the [bytes.hex()] of [d]. *)
Definition hex (d : bytes) : string :=
  fold_right (fun b acc => (hex2 b ++ acc)%string) EmptyString d.

(** ** Codec primitives ([MBusProtocol], protocol.py) *)

Module MBusProtocol.

(** One round of the inner [for _ in range(8)] loop of [calculate_crc]. *)
Definition crc_round (crc : Z) : Z :=
  if Z.land crc 0x01 =? 0 then Z.shiftr crc 1
  else Z.lxor (Z.shiftr crc 1) 0x8C.

(** The body of the outer [for b in data] loop. *)
Definition crc_byte (crc b : Z) : Z :=
  Nat.iter 8 crc_round (Z.lxor crc b).

Definition calculate_crc (data : bytes) : Z :=
  fold_left crc_byte data 0.

Definition check_crc (data : bytes) : bool :=
  if (length data <? 3)%nat then false
  else match last data with
       | Some c => calculate_crc (take (length data - 1) data) =? c
       | None => false
       end.

(** [decode_manufacturer]: three 5-bit groups, each offset by 64. *)
Definition decode_manufacturer (code : Z) : string :=
  let char1 := Z.land (Z.shiftr code 10) 0x1F + 64 in
  let char2 := Z.land (Z.shiftr code 5) 0x1F + 64 in
  let char3 := Z.land code 0x1F + 64 in
  String (chr char1) (String (chr char2) (String (chr char3) EmptyString)).

(** [encode_manufacturer]: [None] stands for the [ValueError] raised on
    a string whose length is not 3. *)
Definition encode_manufacturer (code : string) : option Z :=
  match code with
  | String a (String b (String c EmptyString)) =>
      let c1 := ord a - 64 in
      let c2 := ord b - 64 in
      let c3 := ord c - 64 in
      Some (Z.lor (Z.lor (Z.shiftl c1 10) (Z.shiftl c2 5)) c3)
  | _ => None
  end.

End MBusProtocol.

(** ** Frames ([MBusFrame], protocol.py) *)

Inductive MBusFrameType : Set :=
  | SINGLE_CHAR | SHORT | CONTROL | LONG | WMBUS_APL | WMBUS_NWL.

Record MBusFrame : Set := mkFrame {
  frame_type : MBusFrameType;
  frame_length : Z;
  frame_control : Z;
  frame_address : Z;
  control_information : Z;
  frame_data : bytes;
  frame_checksum : Z;
  frame_manufacturer : option string;
  frame_identification : option string;
  frame_version : option Z;
  frame_device_type : option Z
}.

Module MBusFrameOps.
Import MBusProtocol.

(** The frame built by [MBusFrame.__init__]. *)
Definition init : MBusFrame :=
  mkFrame LONG 0 0 0 0 [] 0 None None None None.

(** The [0x10] branch of [parse]. *)
Definition parse_short (data : bytes) : option MBusFrame :=
  if negb (check_crc (take 4 data)) then None
  else Some (mkFrame SHORT 0 (at_ data 1) (at_ data 2) 0 [] (at_ data 3)
               None None None None).

(** The [0x68] branch of [parse]. *)
Definition parse_long (data : bytes) : option MBusFrame :=
  if (length data <? 9)%nat then None
  else
    let length1 := at_ data 1 in
    let length2 := at_ data 2 in
    if negb (length1 =? length2) then None
    else if negb (at_ data 3 =? 0x68) then None
    else if Z.of_nat (length data) <? length1 + 6 then None
    else
      let l := Z.to_nat length1 in
      let ty := if length1 =? 3 then CONTROL else LONG in
      if negb (check_crc (slice 4 (7 + l - 2) data)) then None
      else Some (mkFrame ty length1 (at_ data 4) (at_ data 5) (at_ data 6)
                   (slice 7 (7 + l - 3) data) (at_ data (7 + l - 3))
                   None None None None).

(** The wireless branch of [parse] (first byte in [0x44 .. 0x4F]). *)
Definition parse_wmbus (data : bytes) : option MBusFrame :=
  if (length data <? 10)%nat then None
  else
    let manufacturer_code := Z.lor (Z.shiftl (at_ data 3) 8) (at_ data 2) in
    let id_bytes := slice 4 8 data in
    Some (mkFrame WMBUS_APL (at_ data 0) (at_ data 1) 0
            (if (10 <? length data)%nat then at_ data 10 else 0)
            (if (11 <? length data)%nat then drop 11 data else [])
            0
            (Some (decode_manufacturer manufacturer_code))
            (Some (hex (rev id_bytes)))
            (Some (at_ data 8))
            (Some (at_ data 9))).

Definition parse (data : bytes) : option MBusFrame :=
  if (length data <? 1)%nat then None
  else if (length data =? 1)%nat && (at_ data 0 =? 0xE5) then
    Some (mkFrame SINGLE_CHAR 0 0 0 0 [] 0 None None None None)
  else if (length data <? 5)%nat then None
  else if at_ data 0 =? 0x10 then parse_short data
  else if at_ data 0 =? 0x68 then parse_long data
  else if (0x44 <=? at_ data 0) && (at_ data 0 <=? 0x4F) then parse_wmbus data
  else None.

End MBusFrameOps.

(** ** Hexadecimal input ([binascii.unhexlify]) *)

(** The three outcomes of [binascii.unhexlify] on a [str]: the bytes, a
    [binascii.Error] (odd length or a non-hexadecimal digit), or the plain
    [ValueError] raised for a character outside ASCII. *)
Inductive unhex_result : Set :=
  | UnhexOk (b : bytes)
  | UnhexBinasciiError
  | UnhexValueError.

Definition hex_value (c : ascii) : option Z :=
  let n := ord c in
  if (48 <=? n) && (n <=? 57) then Some (n - 48)
  else if (97 <=? n) && (n <=? 102) then Some (n - 87)
  else if (65 <=? n) && (n <=? 70) then Some (n - 55)
  else None.

Fixpoint unhex_digits (s : string) : option bytes :=
  match s with
  | EmptyString => Some []
  | String _ EmptyString => None
  | String a (String b rest) =>
      match hex_value a, hex_value b, unhex_digits rest with
      | Some h, Some l, Some r => Some (16 * h + l :: r)
      | _, _, _ => None
      end
  end.

Fixpoint all_ascii (s : string) : bool :=
  match s with
  | EmptyString => true
  | String c rest => (ord c <? 128) && all_ascii rest
  end.

Definition unhexlify (s : string) : unhex_result :=
  if negb (all_ascii s) then UnhexValueError
  else match unhex_digits s with
       | Some b => UnhexOk b
       | None => UnhexBinasciiError
       end.

(** [s.replace(" ", "")]. *)
Fixpoint remove_spaces (s : string) : string :=
  match s with
  | EmptyString => EmptyString
  | String c rest =>
      if ord c =? 32 then remove_spaces rest else String c (remove_spaces rest)
  end.

(** [s[:n]] on a string, as the list of its characters. *)
Fixpoint chars (s : string) : list ascii :=
  match s with
  | EmptyString => []
  | String c rest => c :: chars rest
  end.

(** ** Telegram header ([TelegramHeader], [Telegram], telegram.py) *)

Record TelegramHeader : Set := mkHeader {
  hdr_length : Z;
  hdr_control : Z;
  manufacturer : string;
  meter_id : string;
  version : Z;
  meter_type : Z;
  is_encrypted : bool
}.

(** [TelegramHeader.__init__]: [is_encrypted = bool(control & 0x05)]. *)
Definition TelegramHeader_init (length control : Z) (mfct id : string)
    (ver ty : Z) : TelegramHeader :=
  mkHeader length control mfct id ver ty (negb (Z.land control 0x05 =? 0)).

(** The fields of a [Telegram] that the decoder works on. *)
Record Telegram : Set := mkTelegram {
  raw_data : bytes;
  header : option TelegramHeader
}.

Module TelegramOps.

(** [Telegram._decode_manufacturer], the copy of the protocol routine. *)
Definition _decode_manufacturer (code : Z) : string :=
  let char1 := Z.land (Z.shiftr code 10) 0x1F + 64 in
  let char2 := Z.land (Z.shiftr code 5) 0x1F + 64 in
  let char3 := Z.land code 0x1F + 64 in
  String (chr char1) (String (chr char2) (String (chr char3) EmptyString)).

(** [Telegram._parse_header]: the header it leaves in [self.header]. *)
Definition _parse_header (raw : bytes) : option TelegramHeader :=
  if (length raw <? 10)%nat then None
  else
    let length_ := at_ raw 0 in
    let control := at_ raw 1 in
    (* struct.unpack("<H", raw[2:4]) *)
    let m_field := at_ raw 2 + 256 * at_ raw 3 in
    let mfct := _decode_manufacturer m_field in
    let meter_id_bytes := slice 4 8 raw in
    let id := hex (rev meter_id_bytes) in
    Some (TelegramHeader_init length_ control mfct id (at_ raw 8) (at_ raw 9)).

(** [Telegram.__init__] on a [bytes] argument. *)
Definition init (raw : bytes) : Telegram :=
  mkTelegram raw
    (match raw with [] => None | _ :: _ => _parse_header raw end).

End TelegramOps.

(** ** Security layer (utils/encryption.py) *)

(** [for i, v in enumerate(vals): iv[off + i] = v]. *)
Fixpoint write_from (off : nat) (vals : bytes) (iv : bytes) : bytes :=
  match vals with
  | [] => iv
  | v :: vs => write_from (S off) vs (<[off:=v]> iv)
  end.

(** [generate_iv]; [None] is the [ValueError] that [unhexlify] raises on
    a non-ASCII identification and [generate_iv] does not catch. *)
Definition generate_iv (manufacturer meter_id : string) : option bytes :=
  let iv := replicate 16 0 in
  let iv := write_from 0 (map ord (take 3 (chars manufacturer))) iv in
  match unhexlify (remove_spaces meter_id) with
  | UnhexOk id_bytes => Some (write_from 3 (take 8 id_bytes) iv)
  | UnhexBinasciiError =>
      Some (write_from 3 (map ord (take 8 (chars meter_id))) iv)
  | UnhexValueError => None
  end.

(** The AES library (PyCryptodome) is outside the repository: its CBC
    cipher object is kept abstract.  [AES_new_cbc key iv] is
    [AES.new(key, AES.MODE_CBC, iv)]; [cipher_decrypt] returns the
    plaintext, or [None] for a [ValueError], and the next state of the
    cipher object; [unpad] is [unpad(_, AES.block_size)], [None] for its
    [ValueError]. *)
Record AesLibrary : Type := mkAes {
  CRYPTO_AVAILABLE : bool;
  cipher : Type;
  AES_new_cbc : bytes -> bytes -> cipher;
  cipher_decrypt : cipher -> bytes -> option bytes * cipher;
  unpad : bytes -> option bytes
}.

Section Encryption.

Variable lib : AesLibrary.

(** The inner [try: unpad(cipher.decrypt(data)) except ValueError:
    cipher.decrypt(data)] on a cipher object created from [key_bytes]
    and [iv]. *)
Definition decrypt_under (key_bytes iv data : bytes) : option bytes :=
  let c0 := AES_new_cbc lib key_bytes iv in
  let '(r1, c1) := cipher_decrypt lib c0 data in
  match r1 ≫= unpad lib with
  | Some decrypted => Some decrypted
  | None => fst (cipher_decrypt lib c1 data)
  end.

(** [decrypt_aes_cbc]; [None] is the [ValueError] it raises. *)
Definition decrypt_aes_cbc (data : bytes) (key manufacturer meter_id : string)
    : option bytes :=
  if negb (CRYPTO_AVAILABLE lib) then None
  else if String.eqb key EmptyString then None
  else match unhexlify (remove_spaces key) with
       | UnhexOk key_bytes =>
           if negb (length key_bytes =? 16)%nat then None
           else match generate_iv manufacturer meter_id with
                | Some iv => decrypt_under key_bytes iv data
                | None => None
                end
       | _ => None
       end.

(** [Telegram.decrypt]: the returned flag and the telegram afterwards. *)
Definition decrypt (t : Telegram) (key : string) : bool * Telegram :=
  match header t with
  | None => (true, t)
  | Some h =>
      if negb (is_encrypted h) then (true, t)
      else if String.eqb key EmptyString then (false, t)
      else match decrypt_aes_cbc (drop 10 (raw_data t)) key
                   (manufacturer h) (meter_id h) with
           | Some decrypted_data =>
               (true, mkTelegram (take 10 (raw_data t) ++ decrypted_data)
                        (header t))
           | None => (false, t)
           end
  end.

End Encryption.

(** ** Data records ([MBusDataRecord], protocol.py) *)

Record MBusDataRecord : Set := mkRecord {
  dif : Z;
  vif : Z;
  value : bytes;
  storage_number : Z;
  tariff : Z;
  subunit : Z;
  function : Z;
  dife_data : bytes;
  vife_data : bytes
}.

(** What [parsed_value] can hold.  A float is kept as the bytes it is
    unpacked from, a decoded text as the bytes it is decoded from, a
    date or date-time string as its fields and its validity mark, and
    the fixed text that the date routines return for too few bytes as
    that text. *)
Inductive Value : Set :=
  | VNone
  | VInt (n : Z)
  | VFloat (raw : bytes)
  | VBytes (b : bytes)
  | VText (b : bytes)
  | VHex (s : string)
  | VDate (year month day : Z) (valid : bool)
  | VDateTime (year month day : Z) (date_valid : bool) (hour minute : Z)
              (time_valid : bool)
  | VInvalidData (message : string).

(** [int.from_bytes(b, byteorder='little')], unsigned and signed. *)
Fixpoint le_unsigned (b : bytes) : Z :=
  match b with
  | [] => 0
  | x :: rest => x + 256 * le_unsigned rest
  end.

Definition le_signed (b : bytes) : Z :=
  let u := le_unsigned b in
  let bits := 8 * Z.of_nat (length b) in
  if (0 <? bits) && (2 ^ (bits - 1) <=? u) then u - 2 ^ bits else u.

(** [int(b.hex(), 16)]: the bytes read most significant first; [None]
    is the [ValueError] of [int('', 16)]. *)
Definition be_unsigned (b : bytes) : option Z :=
  match b with
  | [] => None
  | _ => Some (fold_left (fun acc x => 256 * acc + x) b 0)
  end.

(** [struct.unpack(fmt, b)[0]] for an integer format of [n] bytes;
    [None] is the [struct.error] of a wrong length. *)
Definition unpack_signed (n : nat) (b : bytes) : option Z :=
  if (length b =? n)%nat then Some (le_signed b) else None.

Definition unpack_unsigned (n : nat) (b : bytes) : option Z :=
  if (length b =? n)%nat then Some (le_unsigned b) else None.

Module DataRecord.

(** [_decode_bcd(value, digits)]: the loop, least significant nibble
    first, an invalid nibble clamped to 9. *)
Fixpoint decode_bcd_loop (digits : nat) (value result multiplier : Z) : Z :=
  match digits with
  | O => result
  | S d =>
      let digit := Z.land value 0x0F in
      let digit := if 9 <? digit then 9 else digit in
      decode_bcd_loop d (Z.shiftr value 4) (result + digit * multiplier)
        (multiplier * 10)
  end.

Definition _decode_bcd (value : Z) (digits : nat) : Z :=
  decode_bcd_loop digits value 0 1.

(** [_parse_date]: the text returned for fewer than two bytes, or the
    fields and whether the date passed validation. *)
Definition _parse_date (data : bytes) : Value :=
  if (length data <? 2)%nat then VInvalidData "Invalid date data"
  else
    let day := Z.land (at_ data 0) 0x1F in
    let month := Z.lor (Z.land (at_ data 1) 0x0F)
                       (Z.shiftr (Z.land (at_ data 0) 0xE0) 5) in
    let year := 2000 + Z.shiftr (Z.land (at_ data 1) 0xF0) 4 in
    VDate year month day
      (negb ((month <? 1) || (12 <? month) || (day <? 1) || (31 <? day))).

(** [_parse_datetime]: the text returned for fewer than four bytes, or
    the date of [data[:2]] with the hour and minute.  Past the length
    test [data[:2]] has two bytes, so [_parse_date] returns a date; the
    last arm of the [match] stands for the date text placed in front of
    the time and is never taken. *)
Definition _parse_datetime (data : bytes) : Value :=
  if (length data <? 4)%nat then VInvalidData "Invalid datetime data"
  else
    match _parse_date (take 2 data) with
    | VDate y m d ok =>
        let minute := Z.land (at_ data 2) 0x3F in
        let hour := Z.land (at_ data 3) 0x1F in
        VDateTime y m d ok hour minute (negb ((23 <? hour) || (59 <? minute)))
    | v => v
    end.

(** The first [if]/[elif] chain of [_parse_value]; [None] is an
    exception, handled in [_parse_value]. *)
Definition parse_by_dif (dif : Z) (value : bytes) : option Value :=
  if dif =? 0x00 then Some VNone
  else if dif =? 0x01 then VInt <$> unpack_signed 1 value
  else if dif =? 0x02 then VInt <$> unpack_signed 2 value
  else if dif =? 0x03 then
    let value_int := le_signed value in
    Some (VInt (if Z.land value_int 0x800000 =? 0 then value_int
                else value_int - 0x1000000))
  else if dif =? 0x04 then VInt <$> unpack_signed 4 value
  else if dif =? 0x05 then
    if (length value =? 4)%nat then Some (VFloat value) else None
  else if dif =? 0x06 then
    let value_int := le_signed value in
    Some (VInt (if Z.land value_int 0x800000000000 =? 0 then value_int
                else value_int - 0x1000000000000))
  else if dif =? 0x07 then VInt <$> unpack_signed 8 value
  else if dif =? 0x10 then
    (fun bcd => VInt (_decode_bcd bcd 2)) <$> be_unsigned value
  else if dif =? 0x11 then
    (fun bcd => VInt (_decode_bcd bcd 4)) <$> be_unsigned value
  else if dif =? 0x12 then
    (fun bcd => VInt (_decode_bcd bcd 6)) <$> be_unsigned value
  else if dif =? 0x13 then
    (fun bcd => VInt (_decode_bcd bcd 8)) <$> be_unsigned value
  else if dif =? 0x17 then
    match value with
    | [] => Some (VBytes value)
    | len :: _ =>
        if len + 1 <=? Z.of_nat (length value)
        then Some (VBytes (slice 1 (Z.to_nat len + 1) value))
        else Some (VBytes (drop 1 value))
    end
  else if dif =? 0x0B then Some (VText value)
  else Some (VHex (hex value)).

(** [_parse_value]: the value stored in [parsed_value]. *)
Definition _parse_value (dif vif : Z) (value : bytes) : Value :=
  match parse_by_dif dif value with
  | Some v =>
      if (vif =? 0xA8) && (2 <=? length value)%nat then _parse_date value
      else if (vif =? 0xB0) && (4 <=? length value)%nat
      then _parse_datetime value
      else v
  | None => VHex (hex value)
  end.

Definition parsed_value (r : MBusDataRecord) : Value :=
  _parse_value (dif r) (vif r) (value r).

End DataRecord.

(** ** The DIB/VIB record parser ([MBusProtocol.parse_data_records]) *)

Module RecordParser.

(** [_get_data_length]: the [dif_lengths] table, 0 for a missing key. *)
Definition _get_data_length (dif : Z) : Z :=
  if dif =? 0x00 then 0
  else if dif =? 0x01 then 1
  else if dif =? 0x02 then 2
  else if dif =? 0x03 then 3
  else if dif =? 0x04 then 4
  else if dif =? 0x05 then 4
  else if dif =? 0x06 then 6
  else if dif =? 0x07 then 8
  else if dif =? 0x08 then 1
  else if dif =? 0x10 then 1
  else if dif =? 0x11 then 2
  else if dif =? 0x12 then 3
  else if dif =? 0x13 then 4
  else if dif =? 0x14 then 4
  else if dif =? 0x15 then 6
  else if dif =? 0x16 then 8
  else if dif =? 0x17 then 1
  else if dif =? 0x0B then 1
  else if dif =? 0x0C then 0
  else 0.

(** The state of the DIFE loop: cursor, DIFE bytes read, storage number,
    tariff and device bit. *)
Definition dife_state : Set := (nat * bytes * Z * Z * Z)%type.

(** The body of [while dif & 0x80:], entered with [rest = data[i:]].
    It leaves through one of its two [break]s: the data ended
    ([rest = []]) or a DIFE without the extension bit was read. *)
Fixpoint dife_loop (rest : bytes) (i : nat) (dife_bytes : bytes)
    (storage_number tariff device : Z) : dife_state :=
  match rest with
  | [] => (i, dife_bytes, storage_number, tariff, device)
  | dife :: rest' =>
      let dife_bytes := dife_bytes ++ [dife] in
      let i := S i in
      let n := Z.of_nat (length dife_bytes) - 1 in
      let storage_number :=
        Z.lor storage_number (Z.shiftl (Z.land dife 0x0F) (n * 4)) in
      let tariff :=
        Z.lor tariff (Z.shiftl (Z.shiftr (Z.land dife 0x30) 4) (n * 2)) in
      let device := if Z.land dife 0x40 =? 0 then device else 1 in
      if Z.land dife 0x80 =? 0
      then (i, dife_bytes, storage_number, tariff, device)
      else dife_loop rest' i dife_bytes storage_number tariff device
  end.

(** The body of [while vif & 0x80:], entered with [rest = data[i:]]. *)
Fixpoint vife_loop (rest : bytes) (i : nat) (vife_bytes : bytes)
    : nat * bytes :=
  match rest with
  | [] => (i, vife_bytes)
  | vife :: rest' =>
      let vife_bytes := vife_bytes ++ [vife] in
      let i := S i in
      if Z.land vife 0x80 =? 0 then (i, vife_bytes)
      else vife_loop rest' i vife_bytes
  end.

(** How one pass through the body of the outer [while] ends: a record
    was appended and the loop goes on at the new cursor, or a [break]. *)
Inductive step : Set :=
  | Continue (r : MBusDataRecord) (i : nat)
  | Break.

(** One pass through the body of [while i < len(data):], from a cursor
    [i < len(data)].  Every index it reads is guarded, so the
    [IndexError] handler is never entered; the [MBusDataRecord]
    constructor computes [parsed_value] from the fields stored here
    ([DataRecord._parse_value]) and catches its own exceptions. *)
Definition parse_record (data : bytes) (i : nat) : step :=
  let dif := at_ data i in
  let i := S i in
  let dif_value := Z.land dif 0x0F in
  let function := Z.shiftr (Z.land dif 0x30) 4 in
  let '(i, dife_bytes, storage_number, tariff, device) :=
    if Z.land dif 0x80 =? 0 then (i, [], 0, 0, 0)
    else dife_loop (drop i data) i [] 0 0 0 in
  if (length data <=? i)%nat then Break
  else
    let vif := at_ data i in
    let i := S i in
    let '(i, vife_bytes) :=
      if Z.land vif 0x80 =? 0 then (i, [])
      else vife_loop (drop i data) i [] in
    let vif_value := Z.land vif 0x7F in
    let length_ := _get_data_length dif_value in
    let length_ :=
      if (dif_value =? 0x17) || (dif_value =? 0x0B) then
        if (i <? length data)%nat then at_ data i + 1 else length_
      else length_ in
    if Z.of_nat (length data) <? Z.of_nat i + length_ then Break
    else
      let value := slice i (i + Z.to_nat length_) data in
      let i := (i + Z.to_nat length_)%nat in
      Continue (mkRecord dif_value vif_value value storage_number tariff
                  device function dife_bytes vife_bytes) i.

(** The outer [while i < len(data):] loop.  [fuel] bounds the number of
    passes and [None] means it ran out; the result is the record list
    and the number of passes through the body. *)
Fixpoint parse_loop (fuel : nat) (data : bytes) (i : nat)
    (records : list MBusDataRecord) (passes : nat)
    : option (list MBusDataRecord * nat) :=
  match fuel with
  | O => None
  | S fuel' =>
      if (i <? length data)%nat then
        match parse_record data i with
        | Continue r i' =>
            parse_loop fuel' data i' (records ++ [r]) (S passes)
        | Break => Some (records, S passes)
        end
      else Some (records, passes)
  end.

(** [parse_data_records], run with one unit of fuel per byte and one for
    the final test of the loop condition. *)
Definition parse_data_records_passes (data : bytes)
    : option (list MBusDataRecord * nat) :=
  match data with
  | [] => Some ([], O)
  | _ => parse_loop (S (length data)) data 0 [] 0
  end.

Definition parse_data_records (data : bytes) : option (list MBusDataRecord) :=
  fst <$> parse_data_records_passes data.

End RecordParser.

(** ** Value decoding of the telegram façade ([Telegram], telegram.py) *)

Module TelegramData.

(** [_get_data_type_and_length]. *)
Definition _get_data_type_and_length (dif : Z) : string * nat :=
  let data_field := Z.land dif 0x0F in
  if data_field =? 0x0 then ("none"%string, 0%nat)
  else if data_field =? 0x1 then ("int8"%string, 1%nat)
  else if data_field =? 0x2 then ("int16"%string, 2%nat)
  else if data_field =? 0x3 then ("int24"%string, 3%nat)
  else if data_field =? 0x4 then ("int32"%string, 4%nat)
  else if data_field =? 0x5 then ("float32"%string, 4%nat)
  else if data_field =? 0x6 then ("int48"%string, 6%nat)
  else if data_field =? 0x7 then ("int64"%string, 8%nat)
  else if data_field =? 0x9 then ("bcd2"%string, 2%nat)
  else if data_field =? 0xA then ("bcd4"%string, 4%nat)
  else if data_field =? 0xB then ("bcd6"%string, 6%nat)
  else if data_field =? 0xC then ("bcd8"%string, 8%nat)
  else if data_field =? 0xD then ("variable"%string, 0%nat)
  else if data_field =? 0xE then ("float64"%string, 8%nat)
  else ("unknown"%string, 1%nat).

(** The BCD branch of [_decode_value]:
    [for i, b in enumerate(data): result += high * 10**(i*2+1) + low * 10**(i*2)]. *)
Fixpoint bcd_loop (data : bytes) (i : nat) (result : Z) : Z :=
  match data with
  | [] => result
  | b :: rest =>
      let high := Z.land (Z.shiftr b 4) 0x0F in
      let low := Z.land b 0x0F in
      bcd_loop rest (S i)
        (result + (high * 10 ^ (Z.of_nat i * 2 + 1)
                   + low * 10 ^ (Z.of_nat i * 2)))
  end.

(** The [int24]/[int48] branch:
    [for i, b in enumerate(data): value += b << (i * 8)]. *)
Fixpoint shift_loop (data : bytes) (i : nat) (value : Z) : Z :=
  match data with
  | [] => value
  | b :: rest => shift_loop rest (S i) (value + Z.shiftl b (Z.of_nat i * 8))
  end.

(** [_decode_value]; an exception inside it yields [data.hex()]. *)
Definition _decode_value (data : bytes) (data_type : string) : Value :=
  let or_hex (r : option Value) := default (VHex (hex data)) r in
  if String.eqb data_type "none" then VNone
  else if String.eqb data_type "int8" then
    or_hex (VInt <$> unpack_unsigned 1 data)
  else if String.eqb data_type "int16" then
    or_hex (VInt <$> unpack_unsigned 2 data)
  else if String.eqb data_type "int24" then VInt (shift_loop data 0 0)
  else if String.eqb data_type "int32" then
    or_hex (VInt <$> unpack_unsigned 4 data)
  else if String.eqb data_type "float32" then
    if (length data =? 4)%nat then VFloat data else VHex (hex data)
  else if String.eqb data_type "int48" then VInt (shift_loop data 0 0)
  else if String.eqb data_type "int64" then
    or_hex (VInt <$> unpack_unsigned 8 data)
  else if String.prefix "bcd" data_type then VInt (bcd_loop data 0 0)
  else if String.eqb data_type "float64" then
    if (length data =? 8)%nat then VFloat data else VHex (hex data)
  else VHex (hex data).

End TelegramData.

(** ** The reference BCD encoding *)

(** Modelled from the spec: the repository has BCD decoders only and no
    encoder.  This is the little-endian nibble-pair encoding of [n]
    over [k] bytes as the specification words it: byte [i] holds
    decimal digit [2i] of [n] in its low nibble and digit [2i+1] in its
    high nibble. *)
Fixpoint encode_bcd (n : Z) (k : nat) : bytes :=
  match k with
  | O => []
  | S k' => 16 * ((n / 10) mod 10) + n mod 10 :: encode_bcd (n / 100) k'
  end.

(** ** Letters of a manufacturer code *)

(** A character in the range ['A' .. '_'] (codes 65 to 95), the letters
    a non-zero 5-bit group decodes to. *)
Definition letter_in_range (c : ascii) : bool :=
  (65 <=? ord c) && (ord c <=? 95).

Definition letters_in_range (s : string) : bool :=
  forallb letter_in_range (chars s).

(** ** Structural conditions on a frame

    The conditions under which [MBusFrame.parse] accepts a buffer, one
    per framing form.  In the long form [L] is the length byte. *)

Definition ack_ok (data : bytes) : Prop := data = [0xE5].

Definition short_ok (data : bytes) : Prop :=
  (5 <= length data)%nat /\
  at_ data 0 = 0x10 /\
  MBusProtocol.calculate_crc (take 3 data) = at_ data 3.

Definition long_ok (data : bytes) : Prop :=
  let L := Z.to_nat (at_ data 1) in
  (9 <= length data)%nat /\
  at_ data 0 = 0x68 /\
  at_ data 1 = at_ data 2 /\
  at_ data 3 = 0x68 /\
  (L + 6 <= length data)%nat /\
  (2 <= L)%nat /\
  MBusProtocol.calculate_crc (slice 4 (4 + L) data) = at_ data (4 + L).

Definition wmbus_ok (data : bytes) : Prop :=
  (10 <= length data)%nat /\ 0x44 <= at_ data 0 <= 0x4F.

Definition frame_accepted (data : bytes) : Prop :=
  ack_ok data \/ short_ok data \/ long_ok data \/ wmbus_ok data.

(** ** Telegram predicates and a stand-in cipher *)

(** Whether the telegram has a header that is marked encrypted. *)
Definition marked_encrypted (t : Telegram) : bool :=
  match header t with
  | Some h => is_encrypted h
  | None => false
  end.

(** The IV that [generate_iv] builds for manufacturer "XYZ" and
    identification "01020304". *)
Definition iv_XYZ_01020304 : bytes :=
  [88; 89; 90; 0x01; 0x02; 0x03; 0x04; 0; 0; 0; 0; 0; 0; 0; 0; 0].

(** A stand-in for the cipher object, used to run the decryption step on
    concrete telegrams: its state is the current chaining value, it
    decrypts whole 16-byte blocks only and maps each byte to its XOR
    with the chaining byte; its [unpad] removes nothing. *)
Fixpoint xor_bytes (a b : bytes) : bytes :=
  match a, b with
  | x :: a', y :: b' => Z.lxor x y :: xor_bytes a' b'
  | _, _ => []
  end.

Definition toy_new (key iv : bytes) : bytes := iv.

Definition toy_decrypt (state data : bytes) : option bytes * bytes :=
  if (length data mod 16 =? 0)%nat
  then (Some (xor_bytes data (state ++ data)), drop (length data - 16) data)
  else (None, state).

Definition toy_unpad (data : bytes) : option bytes := Some data.

Definition toy_aes : AesLibrary :=
  mkAes true (list Z) toy_new toy_decrypt toy_unpad.

(** ** Invariants of a parsed record *)

(** The ranges of the fields of a record: the DIF data field is one
    nibble, the VIF seven bits, the function two bits, the device bit a
    bit, and a chain of [n] DIFEs gives a storage number of [4n] bits
    and a tariff of [2n] bits. *)
Definition record_fields_ok (r : MBusDataRecord) : Prop :=
  0 <= dif r <= 0x0F /\
  0 <= vif r <= 0x7F /\
  0 <= function r <= 3 /\
  (subunit r = 0 \/ subunit r = 1) /\
  0 <= storage_number r < 16 ^ Z.of_nat (length (dife_data r)) /\
  0 <= tariff r < 4 ^ Z.of_nat (length (dife_data r)).

(** The value of a record has the length its data field asks for: the
    table entry, or for the variable-length string field [0x0B] the
    length prefix followed by that many bytes. *)
Definition record_value_ok (r : MBusDataRecord) : Prop :=
  if dif r =? 0x0B then
    match value r with
    | prefix :: rest => Z.of_nat (length rest) = prefix
    | [] => False
    end
  else Z.of_nat (length (value r)) = RecordParser._get_data_length (dif r).

(** ** The inverse of a CRC round *)

(** One round of the CRC loop undone: bit 7 of the result tells whether
    the polynomial was applied, that is, the bit that was shifted out. *)
Definition crc_round_inv (y : Z) : Z :=
  if Z.testbit y 7 then 2 * Z.lxor y 0x8C + 1 else 2 * y.

(** ** [MBusFrame.is_encrypted] *)

Definition frame_is_encrypted (f : MBusFrame) : bool :=
  match frame_type f with
  | WMBUS_APL => negb (Z.land (frame_control f) 0x05 =? 0)
  | _ => false
  end.

(** ** Encoding a frame ([MBusFrame.encode], protocol.py) *)

Module MBusFrameEncode.
Import MBusProtocol.

(** [bytes([x1, ..., xn])]: [None] is the [ValueError] raised when an
    element is outside [range(256)]. *)
Definition bytes_of (l : list Z) : option bytes :=
  if forallb (fun x => (0 <=? x) && (x <? 256)) l then Some l else None.

(** [n.to_bytes(2, byteorder='little')]: [None] is the [OverflowError]
    of a negative number or one that needs more than two bytes. *)
Definition to_bytes_2_le (n : Z) : option bytes :=
  if (0 <=? n) && (n <? 65536) then Some [n mod 256; n / 256] else None.

(** The wired forms [0x68 L L 0x68 C A CI data CRC 0x16] share this
    tail of [encode]. *)
Definition encode_wired (f : MBusFrame) (len : Z) (data : bytes)
    : option (bytes * MBusFrame) :=
  let f' := mkFrame (frame_type f) len (frame_control f) (frame_address f)
              (control_information f) (frame_data f) (frame_checksum f)
              (frame_manufacturer f) (frame_identification f)
              (frame_version f) (frame_device_type f) in
  frame ← bytes_of [0x68; len; len; 0x68];
  head ← bytes_of [frame_control f; frame_address f; control_information f];
  let content := head ++ data in
  let crc := calculate_crc content in
  tail ← bytes_of [crc; 0x16];
  Some (frame ++ content ++ tail, f').

(** The [WMBUS_APL] branch of [encode]. *)
Definition encode_wmbus (f : MBusFrame) : option (bytes * MBusFrame) :=
  match frame_manufacturer f, frame_identification f,
        frame_version f, frame_device_type f with
  | Some mfct, Some ident, Some ver, Some ty =>
      if String.eqb mfct EmptyString || String.eqb ident EmptyString
      then Some ([], f)
      else
        mfct_code ← encode_manufacturer mfct;
        match unhexlify ident with
        | UnhexOk id_bytes =>
            if negb (length id_bytes =? 4)%nat then Some ([], f)
            else
              let id_bytes := rev id_bytes in
              let header_len := 11 in
              let len := header_len + Z.of_nat (length (frame_data f)) - 1 in
              let f' := mkFrame (frame_type f) len (frame_control f)
                          (frame_address f) (control_information f)
                          (frame_data f) (frame_checksum f)
                          (frame_manufacturer f) (frame_identification f)
                          (frame_version f) (frame_device_type f) in
              b1 ← bytes_of [len; frame_control f];
              b2 ← to_bytes_2_le mfct_code;
              b3 ← bytes_of [ver; ty];
              b4 ← bytes_of [control_information f];
              Some (b1 ++ b2 ++ id_bytes ++ b3 ++ b4 ++ frame_data f, f')
        | _ => None
        end
  | _, _, _, _ => Some ([], f)
  end.

(** [encode]: the bytes returned and the frame afterwards ([encode]
    stores the length it computes in [self.length]).  [None] is an
    exception raised by [bytes], [to_bytes], [encode_manufacturer] or
    [unhexlify]. *)
Definition encode (f : MBusFrame) : option (bytes * MBusFrame) :=
  match frame_type f with
  | SINGLE_CHAR => Some ([0xE5], f)
  | SHORT =>
      frame ← bytes_of [0x10; frame_control f; frame_address f];
      let crc := calculate_crc frame in
      tail ← bytes_of [crc; 0x16];
      Some (frame ++ tail, f)
  | CONTROL => encode_wired f 3 []
  | LONG => encode_wired f (Z.of_nat (length (frame_data f)) + 3) (frame_data f)
  | WMBUS_APL => encode_wmbus f
  | WMBUS_NWL => Some ([], f)
  end.

End MBusFrameEncode.

(** ** Values of parsed records *)

(** A value that is neither a date, a date-time nor a byte string. *)
Definition plain_value (v : Value) : bool :=
  match v with
  | VNone | VInt _ | VFloat _ | VText _ | VHex _ => true
  | VBytes _ | VDate _ _ _ _ | VDateTime _ _ _ _ _ _ _ | VInvalidData _ =>
      false
  end.

(** ** Record descriptions ([MBusDataRecord.get_description]) *)

Module RecordText.

(** [get_description] on the record's [vif].  The last branch formats
    [vif & 0x7F], a number below 128, with [:02x]. *)
Definition get_description (vif : Z) : string :=
  let v := Z.land vif 0x7F in
  if Z.land v 0xF8 =? 0x00 then "Energy"
  else if Z.land v 0xF8 =? 0x08 then "Energy"
  else if Z.land v 0xF8 =? 0x10 then "Volume"
  else if Z.land v 0xF8 =? 0x18 then "Mass"
  else if Z.land v 0xF8 =? 0x20 then "On Time"
  else if Z.land v 0xF8 =? 0x28 then "Operating Time"
  else if Z.land v 0xF8 =? 0x30 then "Power"
  else if Z.land v 0xF8 =? 0x38 then "Power"
  else if Z.land v 0xF8 =? 0x40 then "Volume Flow"
  else if Z.land v 0xF8 =? 0x48 then "Volume Flow"
  else if Z.land v 0xF8 =? 0x50 then "Volume Flow"
  else if Z.land v 0xF8 =? 0x58 then "Mass Flow"
  else if Z.land v 0xF8 =? 0x60 then "Flow Temperature"
  else if Z.land v 0xF8 =? 0x68 then "Return Temperature"
  else if Z.land v 0xF8 =? 0x70 then "Temperature Difference"
  else if Z.land v 0xF8 =? 0x78 then "External Temperature"
  else if Z.land v 0xF8 =? 0x80 then "Pressure"
  else if v =? 0xA8 then "Date"
  else if v =? 0xB0 then "Date and Time"
  else if Z.land v 0xF0 =? 0xC0 then "Heat Cost Allocation"
  else if v =? 0xF0 then "Manufacturer Specific"
  else if v =? 0xFD then "Fabrication Number"
  else ("Unknown VIF: 0x" ++ hex2 v)%string.

(** The description each of the sixteen groups of eight VIF codes gets. *)
Definition description_of_group : list string :=
  ["Energy"; "Energy"; "Volume"; "Mass"; "On Time"; "Operating Time";
   "Power"; "Power"; "Volume Flow"; "Volume Flow"; "Volume Flow";
   "Mass Flow"; "Flow Temperature"; "Return Temperature";
   "Temperature Difference"; "External Temperature"]%string.

End RecordText.

(** ** Status byte ([MBusProtocol.get_status_info]) *)

Module StatusInfo.

(** What a key of the result holds: [True] for a flag, the summary text
    for ["status"]. *)
Inductive entry : Set :=
  | Flag
  | Text (s : string).

(** The result [dict], keys in insertion order. *)
Definition result_dict : Set := list (string * entry).

Definition has_key (k : string) (d : result_dict) : bool :=
  existsb (fun e => String.eqb (fst e) k) d.

(** [if status_byte & mask: result[key] = True]. *)
Definition set_flag (status_byte mask : Z) (key : string) (d : result_dict)
    : result_dict :=
  if Z.land status_byte mask =? 0 then d else d ++ [(key, Flag)].

(** [if key in result: status_text.append(word)]. *)
Definition add_word (d : result_dict) (key word : string)
    (status_text : list string) : list string :=
  if has_key key d then status_text ++ [word] else status_text.

(** [" ".join(words)]. *)
Fixpoint join_words (words : list string) : string :=
  match words with
  | [] => EmptyString
  | [w] => w
  | w :: rest => (w ++ " " ++ join_words rest)%string
  end.

Definition get_status_info (status_byte : Z) : result_dict :=
  let result := [] in
  let result := set_flag status_byte 1 "power_low" result in
  let result := set_flag status_byte 2 "error" result in
  let result := set_flag status_byte 4 "permanent_error" result in
  let result := set_flag status_byte 8 "temporary_error" result in
  let result := set_flag status_byte 16 "leak_detected" result in
  let result := set_flag status_byte 32 "reverse_flow" result in
  let result := set_flag status_byte 64 "overflow" result in
  let result := set_flag status_byte 128 "tamper_detected" result in
  let status_text := [] in
  let status_text := add_word result "power_low" "POWER_LOW" status_text in
  let status_text := add_word result "error" "ERROR" status_text in
  let status_text :=
    add_word result "permanent_error" "PERMANENT_ERROR" status_text in
  let status_text :=
    add_word result "temporary_error" "TEMP_ERROR" status_text in
  let status_text := add_word result "leak_detected" "LEAK" status_text in
  let status_text := add_word result "reverse_flow" "REVERSE" status_text in
  let status_text := add_word result "overflow" "OVERFLOW" status_text in
  let status_text := add_word result "tamper_detected" "TAMPER" status_text in
  match status_text with
  | [] => result ++ [("status"%string, Text "OK")]
  | _ => result ++ [("status"%string, Text (join_words status_text))]
  end.

(** [result["status"]]. *)
Definition status_of (d : result_dict) : option string :=
  match find (fun e => String.eqb (fst e) "status") d with
  | Some (_, Text s) => Some s
  | _ => None
  end.

End StatusInfo.

(** ** Telegram analysis ([MBusProtocol.analyze_telegram]) *)

(** The messages stored under ["error"]. *)
Inductive AnalysisError : Set :=
  | TelegramTooShort
  | InvalidLongHeader
  | InvalidLength
  | UnknownFormat
  | AnalysisException.

(** The result [dict].  [a_control], [a_type_name] and [a_error] are the
    keys ["control"], ["type_name"] and ["error"], absent until they are
    set.  An entry of [a_records] stands for the [dict] built from that
    record (description, parsed value, unit, storage number, tariff and
    function text of the record). *)
Record Analysis : Set := mkAnalysis {
  a_valid : bool;
  a_length : nat;
  a_mfct : option string;
  a_id : option string;
  a_version : option Z;
  a_type : option Z;
  a_type_name : option string;
  a_ci_field : option Z;
  a_encrypted : bool;
  a_control : option Z;
  a_records : list MBusDataRecord;
  a_suggested_drivers : list string;
  a_error : option AnalysisError
}.

Module TelegramAnalysis.
Import MBusProtocol.

(** [DeviceType(code).name.lower().replace('_', ' ')] for the members
    [0x00 .. 0x25] of [DeviceType]. *)
Definition device_type_names : list string :=
  ["other"; "oil"; "electricity"; "gas"; "heat"; "steam"; "warm water";
   "water"; "heat cost allocator"; "compressed air"; "cooling load meter";
   "cooling load meter inlet"; "heat inlet"; "heat cooling load meter";
   "bus system component"; "unknown"; "calorific value"; "hot water";
   "cold water"; "dual water"; "pressure"; "ad converter";
   "smoke detector"; "room sensor"; "gas detector"; "breaker"; "valve";
   "customer unit"; "waste meter"; "garbage"; "communication controller";
   "unidirectional repeater"; "bidirectional repeater";
   "radio converter system side"; "radio converter meter side";
   "broadcasting actuator"; "sub device";
   "multi utility communication controller"]%string.

(** [decode_device_type] on a byte; the [ValueError] branch formats the
    code with [:02x]. *)
Definition decode_device_type (code : Z) : string :=
  if (0 <=? code) && (code <? 0x26)
  then nth (Z.to_nat code) device_type_names EmptyString
  else ("unknown (0x" ++ hex2 code ++ ")")%string.

(** The three tables of [analyze_telegram], in the order they are
    written. *)
Definition driver_mapping : list (string * Z * string) :=
  [("KAM", 0x07, "kamwater"); ("KAM", 0x04, "kamheat");
   ("DME", 0x07, "hydrus"); ("DME", 0x06, "hydrodigit");
   ("LAS", 0x17, "lansenth"); ("ELS", 0x02, "omnipower");
   ("TCH", 0x04, "compact5"); ("QDS", 0x08, "qcaloric")]%string.

Definition mfct_mapping : list (string * list string) :=
  [("KAM", ["kamwater"; "kamheat"]); ("DME", ["hydrus"; "izar"]);
   ("LAS", ["lansenth"; "lansenpu"]); ("BMT", ["hydrodigit"]);
   ("TCH", ["compact5"; "vario451"]); ("APT", ["apator162"]);
   ("SON", ["supercom587"]); ("ELV", ["ev200"]);
   ("SEN", ["iperl"])]%string.

Definition type_mapping : list (Z * list string) :=
  [(0x02, ["electricity"]); (0x03, ["gas"]); (0x04, ["heat"]);
   (0x07, ["water"]); (0x08, ["heat_allocator"]); (0x0D, ["heat_cooling"]);
   (0x17, ["room_sensor"])]%string.

(** [for (mfct, type_code), driver_name in driver_mapping.items(): ...]. *)
Fixpoint exact_matches (mfct : string) (ty : Z)
    (table : list (string * Z * string)) (suggested : list string)
    : list string :=
  match table with
  | [] => suggested
  | (m, t, name) :: rest =>
      exact_matches mfct ty rest
        (if String.eqb mfct m && (ty =? t) then suggested ++ [name]
         else suggested)
  end.

(** [mapping.get(key)] on a table written as a list of pairs. *)
Fixpoint lookup_mfct (mfct : string) (table : list (string * list string))
    : option (list string) :=
  match table with
  | [] => None
  | (m, names) :: rest =>
      if String.eqb mfct m then Some names else lookup_mfct mfct rest
  end.

Fixpoint lookup_type (ty : Z) (table : list (Z * list string))
    : option (list string) :=
  match table with
  | [] => None
  | (t, names) :: rest => if ty =? t then Some names else lookup_type ty rest
  end.

(** [if key in mapping and not suggested: suggested.extend(mapping[key])]. *)
Definition extend_if_empty (found : option (list string))
    (suggested : list string) : list string :=
  match found, suggested with
  | Some names, [] => suggested ++ names
  | _, _ => suggested
  end.

(** The driver suggestions for a manufacturer and a device type. *)
Definition suggest_drivers (mfct : string) (ty : Z) : list string :=
  let suggested := exact_matches mfct ty driver_mapping [] in
  let suggested := extend_if_empty (lookup_mfct mfct mfct_mapping) suggested in
  let suggested := extend_if_empty (lookup_type ty type_mapping) suggested in
  match suggested with
  | [] => suggested ++ ["auto"%string]
  | _ => suggested
  end.

(** The block under [# Sürücü önerileri]. *)
Definition with_suggestions (r : Analysis) : Analysis :=
  match a_mfct r, a_type r with
  | Some mfct, Some ty =>
      if a_valid r && negb (String.eqb mfct EmptyString) then
        mkAnalysis (a_valid r) (a_length r) (a_mfct r) (a_id r) (a_version r)
          (a_type r) (a_type_name r) (a_ci_field r) (a_encrypted r)
          (a_control r) (a_records r) (suggest_drivers mfct ty) (a_error r)
      else r
  | _, _ => r
  end.

Definition with_error (e : AnalysisError) (r : Analysis) : Analysis :=
  mkAnalysis (a_valid r) (a_length r) (a_mfct r) (a_id r) (a_version r)
    (a_type r) (a_type_name r) (a_ci_field r) (a_encrypted r)
    (a_control r) (a_records r) (a_suggested_drivers r) (Some e).

(** The [data[0] == 0x68] branch, up to its length test. *)
Definition analyze_long (data : bytes) (result : Analysis) : Analysis :=
  let length1 := at_ data 1 in
  let length2 := at_ data 2 in
  if negb (length1 =? length2) || negb (at_ data 3 =? 0x68)
  then with_error InvalidLongHeader result
  else
    let id := (hex2 (at_ data 5) ++ hex2 (at_ data 6) ++ hex2 (at_ data 7)
               ++ hex2 (at_ data 8))%string in
    let result :=
      mkAnalysis false (length data) None (Some id) None None None
        (if (9 <? length data)%nat then Some (at_ data 9) else None)
        false (Some (at_ data 4)) [] [] None in
    if Z.of_nat (length data) <? length1 + 6
    then with_error InvalidLength result
    else with_suggestions result.

(** The [data[0] == 0x44] branch.  The records are those of
    [parse_data_records(data[11:])]; none of the calls that build their
    [dict]s raises. *)
Definition analyze_wireless (data : bytes) : Analysis :=
  let control := at_ data 1 in
  let encrypted := 0 <? Z.land control 0x05 in
  let manufacturer_code := Z.lor (Z.shiftl (at_ data 3) 8) (at_ data 2) in
  let mfct := decode_manufacturer manufacturer_code in
  let id := hex (rev (slice 4 8 data)) in
  let ci := if (10 <? length data)%nat then Some (at_ data 10) else None in
  let header records :=
    mkAnalysis true (length data) (Some mfct) (Some id) (Some (at_ data 8))
      (Some (at_ data 9)) (Some (decode_device_type (at_ data 9))) ci
      encrypted (Some control) records [] None in
  if (11 <? length data)%nat && negb encrypted then
    match RecordParser.parse_data_records (drop 11 data) with
    | Some records => with_suggestions (header records)
    | None => with_error AnalysisException (header [])
    end
  else with_suggestions (header []).

Definition analyze_telegram (data : bytes) : Analysis :=
  let result :=
    mkAnalysis false (length data) None None None None None None false None
      [] [] None in
  if (length data <? 10)%nat then with_error TelegramTooShort result
  else if (at_ data 0 =? 0x68) && (9 <=? length data)%nat
  then analyze_long data result
  else if at_ data 0 =? 0x44 then analyze_wireless data
  else with_error UnknownFormat result.

End TelegramAnalysis.

(** ** Telegram decryption ([WMBusSecurity], protocol.py) *)

Section Security.

Variable lib : AesLibrary.

(** [decrypt_aes_cmac] (utils/encryption.py): the decrypted data and the
    MAC flag; [None] is the [ValueError] it raises. *)
Definition decrypt_aes_cmac (data : bytes) (key manufacturer meter_id : string)
    : option (bytes * bool) :=
  if negb (CRYPTO_AVAILABLE lib) then None
  else
    match decrypt_aes_cbc lib data key manufacturer meter_id with
    | Some decrypted => let mac_verified := true in
                        Some (decrypted, mac_verified)
    | None => None
    end.

(** [WMBusSecurity.decrypt_telegram]; an exception inside it yields
    [None]. *)
Definition decrypt_telegram (telegram_data : bytes) (key : string)
    (security_mode : Z) : option bytes :=
  if String.eqb key EmptyString then None
  else if (length telegram_data <? 11)%nat then None
  else
    let analysis := TelegramAnalysis.analyze_telegram telegram_data in
    if negb (a_valid analysis) then None
    else if negb (a_encrypted analysis) then Some telegram_data
    else
      match a_mfct analysis, a_id analysis with
      | Some manufacturer, Some meter_id =>
          if String.eqb manufacturer EmptyString
             || String.eqb meter_id EmptyString then None
          else
            let encrypted_data := drop 11 telegram_data in
            if security_mode =? 1 then
              match decrypt_aes_cbc lib encrypted_data key manufacturer
                      meter_id with
              | Some decrypted_data =>
                  Some (take 11 telegram_data ++ decrypted_data)
              | None => None
              end
            else if (security_mode =? 2) || (security_mode =? 5) then
              match decrypt_aes_cmac encrypted_data key manufacturer
                      meter_id with
              | Some (decrypted_data, mac_verified) =>
                  Some (take 11 telegram_data ++ decrypted_data)
              | None => None
              end
            else None
      | _, _ => None
      end.

End Security.

(** ** Encryption ([encrypt_aes_cbc], utils/encryption.py) *)

(** The encrypting side of the AES library: [pad] is
    [pad(_, AES.block_size)] and [cipher_encrypt] the [encrypt] method of
    the CBC cipher object, [None] for its [ValueError]. *)
Record AesEncryption (lib : AesLibrary) : Type := mkAesEncryption {
  pad : bytes -> bytes;
  cipher_encrypt : cipher lib -> bytes -> option bytes * cipher lib
}.

Arguments pad {lib} _ _.
Arguments cipher_encrypt {lib} _ _ _.

Section Encrypting.

Variable lib : AesLibrary.
Variable enc : AesEncryption lib.

(** [encrypt_aes_cbc]; [None] is the [ValueError] it raises. *)
Definition encrypt_aes_cbc (data : bytes) (key manufacturer meter_id : string)
    : option bytes :=
  if negb (CRYPTO_AVAILABLE lib) then None
  else if String.eqb key EmptyString then None
  else match unhexlify (remove_spaces key) with
       | UnhexOk key_bytes =>
           if negb (length key_bytes =? 16)%nat then None
           else match generate_iv manufacturer meter_id with
                | Some iv =>
                    let padded_data := pad enc data in
                    let c := AES_new_cbc lib key_bytes iv in
                    fst (cipher_encrypt enc c padded_data)
                | None => None
                end
       | _ => None
       end.

End Encrypting.

(** ** The access point ([TelegramAccessPoint], protocol.py) *)

(** A value of [last_telegrams] and an element of a history list.  The
    time stamps are the strings [datetime.datetime.now().isoformat()]
    returned at the two places they are taken. *)
Record LastTelegram : Set := mkLast {
  last_data : bytes;
  last_analysis : Analysis;
  last_timestamp : string
}.

Record HistoryEntry : Set := mkEntry {
  entry_data : string;
  entry_timestamp : string
}.

(** The [dict] that [process_telegram] returns. *)
Record ProcessResult : Set := mkResult {
  res_meter_id : string;
  res_manufacturer : option string;
  res_type : option Z;
  res_type_name : option string;
  res_version : option Z;
  res_encrypted : bool;
  res_records : list MBusDataRecord;
  res_suggested_drivers : list string
}.

Section AccessPoint.

(** The meter descriptions are [dict]s the access point only stores. *)
Variable MeterInfo : Type.

Record TelegramAccessPoint : Type := mkAccessPoint {
  meters : gmap string MeterInfo;
  last_telegrams : gmap string LastTelegram;
  telegram_history : gmap string (list HistoryEntry);
  telegram_queue : list bytes;
  max_history : nat
}.

(** [TelegramAccessPoint.__init__]. *)
Definition AccessPoint_init : TelegramAccessPoint :=
  mkAccessPoint ∅ ∅ ∅ [] 100.

Definition add_meter (ap : TelegramAccessPoint) (meter_id : string)
    (meter_info : MeterInfo) : TelegramAccessPoint :=
  mkAccessPoint (<[meter_id := meter_info]> (meters ap)) (last_telegrams ap)
    (<[meter_id := []]> (telegram_history ap)) (telegram_queue ap)
    (max_history ap).

(** [history.pop(0)]; [None] is the [IndexError] on an empty list. *)
Definition pop_first (history : list HistoryEntry)
    : option (list HistoryEntry) :=
  match history with
  | [] => None
  | _ :: rest => Some rest
  end.

(** [process_telegram]: the returned value and the access point
    afterwards.  [now1] and [now2] are the two time stamps taken; the
    outer [None] is the [IndexError] of [pop(0)]. *)
Definition process_telegram (ap : TelegramAccessPoint) (telegram_data : bytes)
    (now1 now2 : string)
    : option (option ProcessResult * TelegramAccessPoint) :=
  let analysis := TelegramAnalysis.analyze_telegram telegram_data in
  if negb (a_valid analysis) then Some (None, ap)
  else
    match a_id analysis with
    | None => Some (None, ap)
    | Some meter_id =>
        if String.eqb meter_id EmptyString then Some (None, ap)
        else
          let last :=
            <[meter_id := mkLast telegram_data analysis now1]>
              (last_telegrams ap) in
          history ←
            match telegram_history ap !! meter_id with
            | Some h =>
                h ← (if (max_history ap <=? length h)%nat
                     then pop_first h else Some h);
                Some (<[meter_id := h ++ [mkEntry (hex telegram_data) now2]]>
                        (telegram_history ap))
            | None => Some (telegram_history ap)
            end;
          Some (Some (mkResult meter_id (a_mfct analysis) (a_type analysis)
                        (a_type_name analysis) (a_version analysis)
                        (a_encrypted analysis) (a_records analysis)
                        (a_suggested_drivers analysis)),
                mkAccessPoint (meters ap) last history (telegram_queue ap)
                  (max_history ap))
    end.

(** [get_last_telegram]. *)
Definition get_last_telegram (ap : TelegramAccessPoint) (meter_id : string)
    : option LastTelegram :=
  last_telegrams ap !! meter_id.

(** A call on the access point, and a sequence of calls run from a
    state; [None] when a call raises. *)
Inductive call : Type :=
  | AddMeter (meter_id : string) (meter_info : MeterInfo)
  | ProcessTelegram (telegram_data : bytes) (now1 now2 : string).

Definition run_call (ap : TelegramAccessPoint) (c : call)
    : option TelegramAccessPoint :=
  match c with
  | AddMeter meter_id meter_info => Some (add_meter ap meter_id meter_info)
  | ProcessTelegram telegram_data now1 now2 =>
      snd <$> process_telegram ap telegram_data now1 now2
  end.

Fixpoint run_calls (ap : TelegramAccessPoint) (calls : list call)
    : option TelegramAccessPoint :=
  match calls with
  | [] => Some ap
  | c :: rest => ap' ← run_call ap c; run_calls ap' rest
  end.

End AccessPoint.

(** What holds of an access point between calls: the history limit is
    the one set by [__init__], no history is longer, and the meters with
    a history are the registered ones. *)
Definition history_ok (MeterInfo : Type) (ap : TelegramAccessPoint MeterInfo)
    : Prop :=
  max_history _ ap = 100%nat /\
  (forall id h, telegram_history _ ap !! id = Some h ->
     (length h <= 100)%nat) /\
  (forall id, is_Some (telegram_history _ ap !! id) <->
              is_Some (meters _ ap !! id)).

(** A stand-in for a library with both directions, used to run
    encryption and decryption on concrete data: the cipher object is
    one byte, made of the first key byte and the first IV byte, and
    every data byte is XORed with it; [pad] appends one byte [0x01] and
    [unpad] removes it. *)
Definition mask_new (key iv : bytes) : Z := Z.lxor (at_ key 0) (at_ iv 0).

Definition mask_crypt (c : Z) (data : bytes) : option bytes * Z :=
  (Some (map (Z.lxor c) data), c).

Definition mask_pad (data : bytes) : bytes := data ++ [0x01].

Definition mask_unpad (data : bytes) : option bytes :=
  match rev data with
  | 0x01 :: r => Some (rev r)
  | _ => None
  end.

Definition mask_aes : AesLibrary :=
  mkAes true Z mask_new mask_crypt mask_unpad.

Definition mask_encryption : AesEncryption mask_aes :=
  mkAesEncryption mask_aes mask_pad mask_crypt.

(** ** Drivers ([DriverBase], drivers/driver_base.py) *)

(** The three lists a driver declares. *)
Record Driver : Set := mkDriver {
  manufacturer_codes : list string;
  meter_types : list Z;
  meter_versions : list Z
}.

(** The fixed entries of the [dict] that [process_telegram] returns, and
    what [_parse_telegram_data] returned ([result.update] adds its
    entries when it is not empty). *)
Record DriverResult (Reading : Type) : Type := mkDriverResult {
  dr_manufacturer : string;
  dr_meter_type : string;
  dr_meter_version : string;
  dr_parsed_data : option Reading
}.

Module DriverBase.

(** [codes and x not in codes]. *)
Definition excluded {A : Type} (eqb : A -> A -> bool) (x : A)
    (allowed : list A) : bool :=
  match allowed with
  | [] => false
  | _ => negb (existsb (eqb x) allowed)
  end.

Definition can_handle (drv : Driver) (t : Telegram) : bool :=
  match header t with
  | None => false
  | Some h =>
      if excluded String.eqb (manufacturer h) (manufacturer_codes drv)
      then false
      else if excluded Z.eqb (meter_type h) (meter_types drv) then false
      else if excluded Z.eqb (version h) (meter_versions drv) then false
      else true
  end.

(** [_get_meter_type_name], the copy of [decode_device_type]. *)
Definition _get_meter_type_name (type_code : Z) : string :=
  if (0 <=? type_code) && (type_code <? 0x26)
  then nth (Z.to_nat type_code) TelegramAnalysis.device_type_names EmptyString
  else ("unknown (0x" ++ hex2 type_code ++ ")")%string.

(** The records [process_telegram] computes before it calls
    [_parse_telegram_data]. *)
Definition data_records (t : Telegram) : option (list MBusDataRecord) :=
  RecordParser.parse_data_records (drop 10 (raw_data t)).

Section Process.

(** [_parse_telegram_data] is abstract in [DriverBase]; a driver
    supplies it.  [None] is an exception it raises. *)
Variable Reading : Type.
Variable _parse_telegram_data :
  Telegram -> list MBusDataRecord -> option (option Reading).

(** [process_telegram]; an exception inside it yields [None]. *)
Definition process_telegram (drv : Driver) (t : Telegram)
    : option (DriverResult Reading) :=
  if negb (can_handle drv t) then None
  else
    records ← data_records t;
    h ← header t;
    parsed_data ← _parse_telegram_data t records;
    Some (mkDriverResult Reading (manufacturer h)
            (_get_meter_type_name (meter_type h))
            ("0x" ++ hex2 (version h))%string parsed_data).

End Process.

End DriverBase.

(** ** Data blocks of the telegram façade ([Telegram.parse_data]) *)

(** A unit text of [_get_field_info]: [f"{symbol} * {10 ** exponent}"],
    kept as its symbol and exponent (a negative exponent makes the
    multiplier a float), or a plain text. *)
Inductive unit_text : Set :=
  | ScaledUnit (symbol : string) (exponent : Z)
  | PlainUnit (text : string).

(** What a key of the [blocks] dict holds: a decoded value under a field
    name, a unit text under [f"{field_name}_unit"]. *)
Inductive block_entry : Set :=
  | BlockValue (v : Value)
  | BlockUnit (u : unit_text).

(** The [dict] that [parse_data] returns: its four header entries, the
    CI field and the entries of the data blocks (no field name is one
    of the other keys). *)
Record ParsedData : Type := mkParsedData {
  pd_manufacturer : string;
  pd_meter_id : string;
  pd_meter_type : Z;
  pd_version : Z;
  pd_ci_field : option Z;
  pd_blocks : gmap string block_entry
}.

Module TelegramBlocks.
Import TelegramData.

(** [unit_map.get(value_type, "unknown")] for the two duration tables,
    whose keys are [base .. base + 7]. *)
Definition duration_unit (base value_type : Z) : string :=
  nth (Z.to_nat (value_type - base))
    ["s"; "min"; "h"; "day"; "week"; "month"; "year"; "decade"]%string
    "unknown"%string.

(** [_get_field_info]. *)
Definition _get_field_info (vif : Z) : string * option unit_text :=
  let value_type := Z.land vif 0x7F in
  let between lo hi := (lo <=? value_type) && (value_type <=? hi) in
  if between 0x00 0x07 then
    ("energy"%string, Some (ScaledUnit "Wh" (value_type - 3)))
  else if between 0x08 0x0F then
    ("energy"%string, Some (ScaledUnit "J" (value_type - 3)))
  else if between 0x10 0x17 then
    ("volume"%string, Some (ScaledUnit "m3" (value_type - 6 - 3)))
  else if between 0x18 0x1F then
    ("mass"%string, Some (ScaledUnit "kg" (value_type - 3)))
  else if between 0x20 0x27 then
    ("on_time"%string, Some (ScaledUnit "s" (value_type - 0x20)))
  else if between 0x28 0x2F then
    ("power"%string, Some (ScaledUnit "W" (value_type - 0x28 - 3)))
  else if between 0x30 0x37 then
    ("power"%string, Some (ScaledUnit "J/h" (value_type - 0x30 - 3)))
  else if between 0x38 0x3F then
    ("volume_flow"%string, Some (ScaledUnit "m3/h" (value_type - 0x38 - 6)))
  else if between 0x40 0x47 then
    ("volume_flow"%string, Some (ScaledUnit "m3/min" (value_type - 0x40 - 7)))
  else if between 0x48 0x4F then
    ("volume_flow"%string, Some (ScaledUnit "m3/s" (value_type - 0x48 - 9)))
  else if between 0x50 0x57 then
    ("mass_flow"%string, Some (ScaledUnit "kg/h" (value_type - 0x50 - 3)))
  else if between 0x58 0x5B then
    ("flow_temperature"%string,
     Some (ScaledUnit "°C" (value_type - 0x58 - 3)))
  else if between 0x5C 0x5F then
    ("return_temperature"%string,
     Some (ScaledUnit "°C" (value_type - 0x5C - 3)))
  else if between 0x60 0x63 then
    ("temperature_difference"%string,
     Some (ScaledUnit "K" (value_type - 0x60 - 3)))
  else if between 0x64 0x67 then
    ("external_temperature"%string,
     Some (ScaledUnit "°C" (value_type - 0x64 - 3)))
  else if between 0x68 0x6B then
    ("pressure"%string, Some (ScaledUnit "bar" (value_type - 0x68 - 3)))
  else if value_type =? 0x6C then ("date"%string, Some (PlainUnit "date"))
  else if value_type =? 0x6D then ("time"%string, Some (PlainUnit "time"))
  else if between 0x70 0x77 then
    ("averaging_duration"%string,
     Some (PlainUnit (duration_unit 0x70 value_type)))
  else if between 0x78 0x7F then
    ("actuality_duration"%string,
     Some (PlainUnit (duration_unit 0x78 value_type)))
  else (("unknown_" ++ hex2 value_type)%string, None).

(** [if field_name: blocks[field_name] = value; if unit:
    blocks[f"{field_name}_unit"] = unit]; every unit text is a
    non-empty string. *)
Definition store_block (blocks : gmap string block_entry) (vif : Z)
    (value : Value) : gmap string block_entry :=
  let '(field_name, unit) := _get_field_info vif in
  if String.eqb field_name EmptyString then blocks
  else
    let blocks := <[field_name := BlockValue value]> blocks in
    match unit with
    | Some u => <[(field_name ++ "_unit")%string := BlockUnit u]> blocks
    | None => blocks
    end.

(** The [while pos < len(data)] loop of [_parse_data_blocks]; [fuel]
    bounds the number of passes and [None] means it ran out. *)
Fixpoint blocks_loop (fuel : nat) (data : bytes) (pos : nat)
    (blocks : gmap string block_entry) : option (gmap string block_entry) :=
  match fuel with
  | O => None
  | S fuel' =>
      if (pos <? length data)%nat then
        if (length data <? pos + 2)%nat then Some blocks
        else
          let dif := at_ data pos in
          let pos := S pos in
          let vif := at_ data pos in
          let pos := S pos in
          let '(data_type, length_) := _get_data_type_and_length dif in
          if (length data <? pos + length_)%nat then Some blocks
          else
            let value_bytes := slice pos (pos + length_) data in
            let pos := (pos + length_)%nat in
            let value := _decode_value value_bytes data_type in
            blocks_loop fuel' data pos (store_block blocks vif value)
      else Some blocks
  end.

(** [_parse_data_blocks], run with one unit of fuel per byte and one for
    the final test of the loop condition. *)
Definition _parse_data_blocks (data : bytes)
    : option (gmap string block_entry) :=
  blocks_loop (S (length data)) data 0 ∅.

(** [Telegram.parse_data]: [None] is the empty dict returned without a
    header or after an exception. *)
Definition parse_data (t : Telegram) : option ParsedData :=
  match header t with
  | None => None
  | Some h =>
      if (10 <? length (raw_data t))%nat then
        blocks ← _parse_data_blocks (drop 11 (raw_data t));
        Some (mkParsedData (manufacturer h) (meter_id h) (meter_type h)
                (version h) (Some (at_ (raw_data t) 10)) blocks)
      else
        Some (mkParsedData (manufacturer h) (meter_id h) (meter_type h)
                (version h) None ∅)
  end.

End TelegramBlocks.

(** ** Plain records *)

(** A record as it is laid out in a payload: DIF, VIF and value. *)
Record PlainItem : Set := mkItem {
  item_dif : Z;
  item_vif : Z;
  item_value : bytes
}.

Definition item_bytes (it : PlainItem) : bytes :=
  item_dif it :: item_vif it :: item_value it.

(** A plain record has no extension bit in its DIF and VIF, a data
    field in [0 .. 7] and a value of the length that field asks for. *)
Definition plain_item (it : PlainItem) : Prop :=
  Z.land (item_dif it) 0x80 = 0 /\
  0 <= Z.land (item_dif it) 0x0F <= 7 /\
  Z.land (item_vif it) 0x80 = 0 /\
  Z.of_nat (length (item_value it))
    = RecordParser._get_data_length (Z.land (item_dif it) 0x0F).

(** The record [parse_data_records] builds for a plain record. *)
Definition item_record (it : PlainItem) : MBusDataRecord :=
  mkRecord (Z.land (item_dif it) 0x0F) (Z.land (item_vif it) 0x7F)
    (item_value it) 0 0 0 (Z.shiftr (Z.land (item_dif it) 0x30) 4) [] [].

(** The entries [_parse_data_blocks] stores for the DIF data field, the
    VIF and the value bytes that a record of [parse_data_records]
    holds. *)
Definition store_record (blocks : gmap string block_entry)
    (r : MBusDataRecord) : gmap string block_entry :=
  TelegramBlocks.store_block blocks (vif r)
    (TelegramData._decode_value (value r)
       (fst (TelegramData._get_data_type_and_length (dif r)))).

(** * Properties *)

(** ** Bytes and bit operations *)

Lemma is_byte_bits (b : Z) :
  is_byte b <-> 0 <= b /\ forall l, 8 <= l -> Z.testbit b l = false.
Proof.
  unfold is_byte. split.
  - intros Hb. split; [lia|].
    apply (Z.bounded_iff_bits_nonneg' 8 b); lia.
  - intros [Hnn Hbits].
    apply (Z.bounded_iff_bits_nonneg' 8 b); [lia | lia | exact Hbits].
Qed.

Lemma is_byte_lxor (a b : Z) : is_byte a -> is_byte b -> is_byte (Z.lxor a b).
Proof.
  rewrite !is_byte_bits. intros [Ha Ha'] [Hb Hb']. split.
  - apply Z.lxor_nonneg. tauto.
  - intros l Hl. rewrite Z.lxor_spec, Ha', Hb' by assumption. reflexivity.
Qed.

Lemma is_byte_shiftr (a n : Z) : 0 <= n -> is_byte a -> is_byte (Z.shiftr a n).
Proof.
  intros Hn. rewrite !is_byte_bits. intros [Ha Ha']. split.
  - apply Z.shiftr_nonneg. exact Ha.
  - intros l Hl. rewrite Z.shiftr_spec by lia. apply Ha'. lia.
Qed.

Lemma is_bytes_app (a b : bytes) : is_bytes a -> is_bytes b -> is_bytes (a ++ b).
Proof. unfold is_bytes. intros. apply Forall_app. split; assumption. Qed.

Lemma is_bytes_take (n : nat) (d : bytes) : is_bytes d -> is_bytes (take n d).
Proof. unfold is_bytes. apply Forall_take. Qed.

Lemma is_bytes_drop (n : nat) (d : bytes) : is_bytes d -> is_bytes (drop n d).
Proof. unfold is_bytes. apply Forall_drop. Qed.

Lemma is_byte_at (d : bytes) (i : nat) : is_bytes d -> is_byte (at_ d i).
Proof.
  intros Hd. unfold at_. destruct (d !! i) as [x|] eqn:E; simpl.
  - eapply Forall_lookup_1; eassumption.
  - unfold is_byte. lia.
Qed.

(** ** The CRC *)

Section Crc.
Import MBusProtocol.

Lemma crc_round_byte (c : Z) : is_byte c -> is_byte (crc_round c).
Proof.
  intros Hc. unfold crc_round.
  destruct (Z.land c 1 =? 0).
  - apply is_byte_shiftr; [lia | exact Hc].
  - apply is_byte_lxor.
    + apply is_byte_shiftr; [lia | exact Hc].
    + unfold is_byte. lia.
Qed.

Lemma crc_rounds_byte (n : nat) (c : Z) :
  is_byte c -> is_byte (Nat.iter n crc_round c).
Proof.
  intros Hc. induction n as [|n IH]; simpl.
  - exact Hc.
  - apply crc_round_byte, IH.
Qed.

Lemma crc_byte_byte (c b : Z) : is_byte c -> is_byte b -> is_byte (crc_byte c b).
Proof.
  intros Hc Hb. unfold crc_byte. apply crc_rounds_byte, is_byte_lxor; assumption.
Qed.

Lemma fold_crc_byte (d : bytes) (c : Z) :
  is_byte c -> is_bytes d -> is_byte (fold_left crc_byte d c).
Proof.
  revert c. induction d as [|x d IH]; intros c Hc Hd; simpl.
  - exact Hc.
  - inversion Hd; subst. apply IH; [apply crc_byte_byte|]; assumption.
Qed.

Lemma calculate_crc_byte (d : bytes) : is_bytes d -> is_byte (calculate_crc d).
Proof. apply fold_crc_byte. unfold is_byte. lia. Qed.

(** Feeding the accumulator its own value clears it. *)
Lemma crc_byte_self (c : Z) : crc_byte c c = 0.
Proof. unfold crc_byte. rewrite Z.lxor_nilpotent. reflexivity. Qed.

Lemma calculate_crc_snoc (d : bytes) (x : Z) :
  calculate_crc (d ++ [x]) = crc_byte (calculate_crc d) x.
Proof. unfold calculate_crc. rewrite fold_left_app. reflexivity. Qed.

(** C5: for every byte string [b], the CRC of [b] is one byte, and the
    CRC of [b] followed by that byte is zero:
    [calculate_crc(b + bytes([calculate_crc(b)])) == 0]. *)
Theorem crc_of_appended_crc_is_zero (b : bytes) :
  is_bytes b ->
  is_byte (calculate_crc b) /\ calculate_crc (b ++ [calculate_crc b]) = 0.
Proof.
  intros Hb. split.
  - apply calculate_crc_byte, Hb.
  - rewrite calculate_crc_snoc. apply crc_byte_self.
Qed.

Lemma crc_of_appended_crc_is_zero_witness :
  is_bytes [0x10; 0x40; 0x05] /\
  is_byte (calculate_crc [0x10; 0x40; 0x05]) /\
  calculate_crc ([0x10; 0x40; 0x05] ++ [calculate_crc [0x10; 0x40; 0x05]]) = 0.
Proof.
  assert (H : is_bytes [0x10; 0x40; 0x05]).
  { repeat constructor; unfold is_byte; lia. }
  split; [exact H | apply (crc_of_appended_crc_is_zero _ H)].
Defined.

End Crc.

(** ** Manufacturer codes *)

Section Manufacturer.
Import MBusProtocol.

Lemma ord_chr (n : Z) : 0 <= n < 256 -> ord (chr n) = n.
Proof.
  intros Hn. unfold ord, chr.
  rewrite N_ascii_embedding by lia. apply Z2N.id. lia.
Qed.

Lemma group_bounds (x : Z) : 0 <= Z.land x 0x1F < 32.
Proof.
  change 0x1F with (Z.ones 5). rewrite Z.land_ones by lia.
  apply Z.mod_pos_bound. lia.
Qed.

(** Repacking the three 5-bit groups of [m] gives its low 15 bits. *)
Lemma repack_groups (m : Z) :
  Z.lor (Z.lor (Z.shiftl (Z.land (Z.shiftr m 10) 0x1F) 10)
               (Z.shiftl (Z.land (Z.shiftr m 5) 0x1F) 5))
        (Z.land m 0x1F)
  = Z.land m 0x7FFF.
Proof.
  change 0x1F with (Z.ones 5). change 0x7FFF with (Z.ones 15).
  apply Z.bits_inj'. intros n Hn.
  rewrite !Z.lor_spec, !Z.land_spec.
  destruct (Z.lt_ge_cases n 5) as [H5|H5];
    [|destruct (Z.lt_ge_cases n 10) as [H10|H10];
      [|destruct (Z.lt_ge_cases n 15) as [H15|H15]]].
  - rewrite !Z.shiftl_spec, !(Z.testbit_neg_r _ (n - _)) by lia.
    rewrite !Z.ones_spec_low by lia. simpl. reflexivity.
  - rewrite !Z.shiftl_spec by lia.
    rewrite (Z.testbit_neg_r _ (n - 10)) by lia.
    rewrite Z.land_spec, Z.shiftr_spec by lia.
    rewrite (Z.ones_spec_low 5 (n - 5)), (Z.ones_spec_high 5 n),
      (Z.ones_spec_low 15 n) by lia.
    simpl. rewrite !andb_true_r, andb_false_r, orb_false_r.
    f_equal. lia.
  - rewrite !Z.shiftl_spec by lia.
    rewrite !Z.land_spec, !Z.shiftr_spec by lia.
    rewrite (Z.ones_spec_low 5 (n - 10)), (Z.ones_spec_high 5 (n - 5)),
      (Z.ones_spec_high 5 n), (Z.ones_spec_low 15 n) by lia.
    rewrite !andb_true_r, !andb_false_r, !orb_false_r.
    f_equal. lia.
  - rewrite !Z.shiftl_spec by lia.
    rewrite !Z.land_spec.
    rewrite (Z.ones_spec_high 5 (n - 10)), (Z.ones_spec_high 5 (n - 5)),
      (Z.ones_spec_high 5 n), (Z.ones_spec_high 15 n) by lia.
    rewrite !andb_false_r. reflexivity.
Qed.

Lemma encode_decode_manufacturer (m : Z) :
  encode_manufacturer (decode_manufacturer m) = Some (Z.land m 0x7FFF).
Proof.
  unfold encode_manufacturer, decode_manufacturer. cbv zeta.
  pose proof (group_bounds (Z.shiftr m 10)).
  pose proof (group_bounds (Z.shiftr m 5)).
  pose proof (group_bounds m).
  rewrite !ord_chr by lia.
  replace (Z.land (Z.shiftr m 10) 31 + 64 - 64)
    with (Z.land (Z.shiftr m 10) 31) by lia.
  replace (Z.land (Z.shiftr m 5) 31 + 64 - 64)
    with (Z.land (Z.shiftr m 5) 31) by lia.
  replace (Z.land m 31 + 64 - 64) with (Z.land m 31) by lia.
  f_equal. apply repack_groups.
Qed.

(** C2, as the code has it: for every 16-bit value [m] whose three
    decoded letters lie in ['A' .. '_'], encoding the decoded letters
    gives the low 15 bits of [m], [m & 0x7FFF]; this is [m] itself
    exactly when bit 15 of [m] is clear. *)
Theorem manufacturer_round_trip (m : Z) :
  0 <= m < 65536 ->
  letters_in_range (decode_manufacturer m) = true ->
  encode_manufacturer (decode_manufacturer m) = Some (Z.land m 0x7FFF) /\
  (encode_manufacturer (decode_manufacturer m) = Some m <-> m < 0x8000).
Proof.
  intros Hm _. rewrite encode_decode_manufacturer. split; [reflexivity|].
  change 0x7FFF with (Z.ones 15). rewrite Z.land_ones by lia.
  split.
  - intros [= Heq]. rewrite <- Heq. apply Z.mod_pos_bound. lia.
  - intros Hlt. rewrite Z.mod_small by lia. reflexivity.
Qed.

Lemma manufacturer_round_trip_witness :
  encode_manufacturer (decode_manufacturer 0x2C2D) = Some (Z.land 0x2C2D 0x7FFF) /\
  (encode_manufacturer (decode_manufacturer 0x2C2D) = Some 0x2C2D <->
   0x2C2D < 0x8000).
Proof.
  apply (manufacturer_round_trip 0x2C2D); [lia | reflexivity].
Defined.

(** C2, as stated, fails at [m = 0x8421]: the value is 16 bits wide, its
    letters are "AAA", and the round trip returns [0x0421]. *)
Lemma manufacturer_round_trip_loses_bit15 :
  0 <= 0x8421 < 65536 /\
  decode_manufacturer 0x8421 = "AAA"%string /\
  letters_in_range (decode_manufacturer 0x8421) = true /\
  encode_manufacturer (decode_manufacturer 0x8421) = Some 0x0421 /\
  encode_manufacturer (decode_manufacturer 0x8421) <> Some 0x8421.
Proof.
  split; [lia|]. repeat split; try reflexivity. discriminate.
Qed.

End Manufacturer.

(** ** Frames and headers *)

Section Frames.
Import MBusProtocol MBusFrameOps.

Lemma at_lookup (d : bytes) (i : nat) :
  (i < length d)%nat -> d !! i = Some (at_ d i).
Proof.
  intros Hi. unfold at_.
  destruct (d !! i) as [x|] eqn:E; [reflexivity|].
  apply lookup_ge_None_1 in E. lia.
Qed.

(** [check_crc] accepts exactly the buffers of at least three bytes whose
    last byte is the CRC of the bytes before it. *)
Lemma check_crc_true (d : bytes) :
  check_crc d = true <->
  (3 <= length d)%nat /\
  calculate_crc (take (length d - 1) d) = at_ d (length d - 1).
Proof.
  unfold check_crc.
  destruct (Nat.ltb_spec (length d) 3) as [Hlt|Hge].
  - split; [discriminate | lia].
  - rewrite last_lookup.
    replace (Nat.pred (length d)) with (length d - 1)%nat by lia.
    rewrite at_lookup by lia. rewrite Z.eqb_eq.
    split; [intros ->; split; [lia | reflexivity] | intros [_ H]; exact H].
Qed.

Lemma at_take (d : bytes) (n i : nat) :
  (i < n)%nat -> at_ (take n d) i = at_ d i.
Proof. intros Hi. unfold at_. rewrite lookup_take_lt by lia. reflexivity. Qed.

Lemma at_slice (d : bytes) (a b i : nat) :
  (a + i < b)%nat -> at_ (slice a b d) i = at_ d (a + i).
Proof.
  intros Hi. unfold at_, slice.
  rewrite lookup_take_lt by lia. rewrite lookup_drop. reflexivity.
Qed.

Lemma length_slice (d : bytes) (a b : nat) :
  (b <= length d)%nat -> length (slice a b d) = (b - a)%nat.
Proof. intros Hb. unfold slice. rewrite length_take, length_drop. lia. Qed.

Lemma take_slice (d : bytes) (a b n : nat) :
  (a + n <= b)%nat -> take n (slice a b d) = slice a (a + n) d.
Proof.
  intros Hn. unfold slice. rewrite take_take.
  f_equal. lia.
Qed.

(** The short-frame check on a buffer of five bytes or more. *)
Lemma check_crc_short (data : bytes) :
  (5 <= length data)%nat ->
  check_crc (take 4 data) = true <-> calculate_crc (take 3 data) = at_ data 3.
Proof.
  intros Hlen. rewrite check_crc_true.
  rewrite length_take. replace (4 `min` length data)%nat with 4%nat by lia.
  simpl (4 - 1)%nat. rewrite take_take, at_take by lia.
  replace (3 `min` 4)%nat with 3%nat by lia.
  split; [intros [_ H]; exact H | intros H; split; [lia | exact H]].
Qed.

(** The long-frame check, with [l] the length byte. *)
Lemma check_crc_long (data : bytes) (l : nat) :
  (l + 6 <= length data)%nat ->
  check_crc (slice 4 (7 + l - 2) data) = true <->
  (2 <= l)%nat /\ calculate_crc (slice 4 (4 + l) data) = at_ data (4 + l).
Proof.
  intros Hlen. rewrite check_crc_true.
  rewrite length_slice by lia.
  replace (7 + l - 2 - 4 - 1)%nat with l by lia.
  rewrite take_slice, at_slice by lia.
  split; (intros [H1 H2]; split; [lia | exact H2]).
Qed.

(** What [parse] returns on a buffer that starts with [0x10] and has at
    least five bytes. *)
Lemma parse_short_frame (c a x e : Z) (rest : bytes) :
  parse (0x10 :: c :: a :: x :: e :: rest) =
    if calculate_crc [0x10; c; a] =? x
    then Some (mkFrame SHORT 0 c a 0 [] x None None None None)
    else None.
Proof.
  unfold parse, parse_short.
  change (check_crc (take 4 (0x10 :: c :: a :: x :: e :: rest)))
    with (calculate_crc [0x10; c; a] =? x).
  change (at_ (0x10 :: c :: a :: x :: e :: rest) 0) with 0x10.
  change (at_ (0x10 :: c :: a :: x :: e :: rest) 1) with c.
  change (at_ (0x10 :: c :: a :: x :: e :: rest) 2) with a.
  change (at_ (0x10 :: c :: a :: x :: e :: rest) 3) with x.
  cbn [length Nat.ltb Nat.leb Nat.eqb andb Z.eqb Pos.eqb].
  destruct (calculate_crc [0x10; c; a] =? x); reflexivity.
Qed.

(** C1, amended: the short frame [10 40 05 45 16] is refused.  Its
    checksum byte [0x45] is the arithmetic sum of the C and A fields,
    while the frame check is the CRC-8 of [calculate_crc], and the CRC-8
    of the C and A fields [40 05] is [0xA4].  A buffer of five bytes or
    more that starts with [0x10] is either refused or parsed to a
    [SHORT] frame whose control, address and checksum are its second,
    third and fourth byte. *)
Theorem short_frame_sum_checksum_refused :
  parse [0x10; 0x40; 0x05; 0x45; 0x16] = None /\
  0x45 = 0x40 + 0x05 /\
  calculate_crc [0x40; 0x05] = 0xA4 /\
  forall c a x e rest,
    parse (0x10 :: c :: a :: x :: e :: rest) = None \/
    parse (0x10 :: c :: a :: x :: e :: rest)
    = Some (mkFrame SHORT 0 c a 0 [] x None None None None).
Proof.
  split; [reflexivity|]. split; [reflexivity|]. split; [reflexivity|].
  intros c a x e rest. rewrite parse_short_frame.
  destruct (calculate_crc [0x10; c; a] =? x); [right | left]; reflexivity.
Qed.

(** C1, as stated, fails: the frame [10 40 05 45 16] is rejected, its
    fourth byte [0x45] being neither the CRC of [10 40 05] nor the CRC
    of the C and A fields [40 05]. *)
Lemma short_frame_10_40_05_45_16_rejected :
  parse [0x10; 0x40; 0x05; 0x45; 0x16] = None /\
  check_crc [0x10; 0x40; 0x05; 0x45] = false /\
  calculate_crc [0x10; 0x40; 0x05] = 0xEE /\
  calculate_crc [0x40; 0x05] = 0xA4.
Proof. repeat split. Qed.

(** [Telegram] construction yields a header exactly on ten bytes or
    more. *)
Lemma telegram_header_iff (raw : bytes) :
  is_Some (header (TelegramOps.init raw)) <-> (10 <= length raw)%nat.
Proof.
  unfold TelegramOps.init, TelegramOps._parse_header. simpl.
  destruct raw as [|b raw'].
  - simpl. split; [intros [? [=]] | lia].
  - destruct (Nat.ltb_spec (length (b :: raw')) 10) as [Hlt|Hge].
    + split; [intros [? [=]] | lia].
    + split; [intros _; exact Hge | intros _; eexists; reflexivity].
Qed.

Lemma parse_short_iff (data : bytes) :
  (5 <= length data)%nat ->
  is_Some (parse_short data) <-> calculate_crc (take 3 data) = at_ data 3.
Proof.
  intros Hlen. rewrite <- (check_crc_short data Hlen). unfold parse_short.
  destruct (check_crc (take 4 data)); simpl.
  - split; [reflexivity | intros _; eexists; reflexivity].
  - split; [intros [? [=]] | discriminate].
Qed.

Lemma parse_long_iff (data : bytes) :
  is_bytes data ->
  is_Some (parse_long data) <->
  (9 <= length data)%nat /\
  at_ data 1 = at_ data 2 /\
  at_ data 3 = 0x68 /\
  (Z.to_nat (at_ data 1) + 6 <= length data)%nat /\
  (2 <= Z.to_nat (at_ data 1))%nat /\
  calculate_crc (slice 4 (4 + Z.to_nat (at_ data 1)) data)
    = at_ data (4 + Z.to_nat (at_ data 1)).
Proof.
  intros Hd. pose proof (is_byte_at data 1 Hd) as Hl. unfold is_byte in Hl.
  unfold parse_long.
  destruct (Nat.ltb_spec (length data) 9) as [H9|H9];
    [split; [intros [? [=]] | lia]|].
  destruct (Z.eqb_spec (at_ data 1) (at_ data 2)) as [H12|H12]; cbn [negb];
    [|split; [intros [? [=]] | tauto]].
  destruct (Z.eqb_spec (at_ data 3) 0x68) as [H3|H3]; cbn [negb];
    [|split; [intros [? [=]] | tauto]].
  destruct (Z.ltb_spec (Z.of_nat (length data)) (at_ data 1 + 6)) as [H6|H6];
    [split; [intros [? [=]] | lia]|].
  assert (Hlen : (Z.to_nat (at_ data 1) + 6 <= length data)%nat) by lia.
  pose proof (check_crc_long data _ Hlen) as Hcrc.
  destruct (check_crc (slice 4 (7 + Z.to_nat (at_ data 1) - 2) data));
    cbn [negb].
  - destruct Hcrc as [Hcrc _]. specialize (Hcrc eq_refl).
    split; [intros _; tauto | intros _; eexists; reflexivity].
  - split; [intros [? [=]]|].
    intros (_ & _ & _ & _ & H2 & Hc).
    destruct Hcrc as [_ Hcrc]. specialize (Hcrc (conj H2 Hc)). discriminate.
Qed.

Lemma parse_wmbus_iff (data : bytes) :
  is_Some (parse_wmbus data) <-> (10 <= length data)%nat.
Proof.
  unfold parse_wmbus.
  destruct (Nat.ltb_spec (length data) 10) as [Hlt|Hge].
  - split; [intros [? [=]] | lia].
  - split; [intros _; exact Hge | intros _; eexists; reflexivity].
Qed.

(** C6, as the code has it: [Telegram] construction leaves a header
    exactly when the buffer has at least 10 bytes, whatever its bytes
    are; [MBusFrame.parse] returns a frame exactly when the buffer is the
    single byte [E5], or starts with [10], has at least 5 bytes and its
    fourth byte is the CRC of the first three, or starts with [68], has
    at least 9 and at least [L+6] bytes, equal length bytes [L >= 2], a
    second [68] and the CRC of the [L] bytes from offset 4 at offset
    [4+L], or starts with a byte in [44 .. 4F] and has at least 10
    bytes. *)
Theorem header_exists_iff (data : bytes) :
  is_bytes data ->
  (is_Some (header (TelegramOps.init data)) <-> (10 <= length data)%nat) /\
  (is_Some (parse data) <-> frame_accepted data).
Proof.
  intros Hd. split; [apply telegram_header_iff|].
  unfold frame_accepted, ack_ok, short_ok, long_ok, wmbus_ok, parse. cbv zeta.
  destruct (Nat.ltb_spec (length data) 1) as [H1|H1].
  { split; [intros [? [=]]|].
    intros [->|[H|[H|H]]]; [simpl in H1|..]; lia. }
  destruct (Nat.eqb_spec (length data) 1) as [He|He].
  { destruct data as [|b [|b' data']]; simpl in He; try lia.
    change (at_ [b] 0) with b. simpl length.
    destruct (Z.eqb_spec b 0xE5) as [->|Hb]; simpl.
    - split; [intros _; left; reflexivity | intros _; eexists; reflexivity].
    - split; [intros [? [=]]|].
      intros [[= ->]|[H|[H|H]]]; [congruence|lia..]. }
  simpl andb.
  destruct (Nat.ltb_spec (length data) 5) as [H5|H5].
  { split; [intros [? [=]]|].
    intros [->|[H|[H|H]]]; [simpl in He|..]; lia. }
  assert (Hnack : data <> [0xE5]) by (intros ->; simpl in He; lia).
  destruct (Z.eqb_spec (at_ data 0) 0x10) as [H10|H10].
  { rewrite (parse_short_iff data H5). split.
    - intros Hc. right. left. tauto.
    - intros [H|[H|[H|H]]]; [contradiction|tauto|lia|lia]. }
  destruct (Z.eqb_spec (at_ data 0) 0x68) as [H68|H68].
  { rewrite (parse_long_iff data Hd). split.
    - intros Hc. right. right. left. tauto.
    - intros [H|[H|[H|H]]]; [contradiction|tauto|tauto|lia]. }
  destruct (Z.leb_spec 0x44 (at_ data 0)) as [Hlo|Hlo];
    [destruct (Z.leb_spec (at_ data 0) 0x4F) as [Hhi|Hhi]|]; simpl.
  - rewrite parse_wmbus_iff. split.
    + intros Hc. right. right. right. lia.
    + intros [H|[H|[H|H]]]; [contradiction|tauto|tauto|lia].
  - split; [intros [? [=]]|].
    intros [H|[H|[H|H]]]; [contradiction|tauto|tauto|lia].
  - split; [intros [? [=]]|].
    intros [H|[H|[H|H]]]; [contradiction|tauto|tauto|lia].
Qed.

Lemma header_exists_iff_witness :
  (is_Some (header (TelegramOps.init [0x10; 0x40; 0x05; 0xEE; 0x16])) <->
   (10 <= length [0x10; 0x40; 0x05; 0xEE; 0x16])%nat) /\
  (is_Some (parse [0x10; 0x40; 0x05; 0xEE; 0x16]) <->
   frame_accepted [0x10; 0x40; 0x05; 0xEE; 0x16]).
Proof.
  apply (header_exists_iff [0x10; 0x40; 0x05; 0xEE; 0x16]).
  repeat constructor; unfold is_byte; lia.
Defined.

(** C6, as stated, fails in both directions.  Ten zero bytes, which
    start no recognised frame and carry no CRC, still get a header from
    [Telegram]; and the four bytes [10 40 05 EE], a short frame body
    with a correct CRC, get neither a frame from [parse] nor a header. *)
Lemma header_not_tied_to_structure :
  is_Some (header (TelegramOps.init [0; 0; 0; 0; 0; 0; 0; 0; 0; 0])) /\
  parse [0; 0; 0; 0; 0; 0; 0; 0; 0; 0] = None /\
  check_crc [0x10; 0x40; 0x05; 0xEE] = true /\
  parse [0x10; 0x40; 0x05; 0xEE] = None /\
  header (TelegramOps.init [0x10; 0x40; 0x05; 0xEE]) = None /\
  header (TelegramOps.init [0x10; 0x40; 0x05; 0xEE; 0x16]) = None.
Proof.
  split; [eexists; reflexivity|]. repeat split.
Qed.

End Frames.

(** ** The decryption step *)

Section Decryption.

Variable lib : AesLibrary.

Lemma decrypt_not_encrypted (t : Telegram) (key : string) :
  marked_encrypted t = false -> decrypt lib t key = (true, t).
Proof.
  unfold marked_encrypted, decrypt. destruct (header t) as [h|].
  - intros ->. reflexivity.
  - reflexivity.
Qed.

Lemma decrypt_empty_key (t : Telegram) :
  marked_encrypted t = true -> decrypt lib t EmptyString = (false, t).
Proof.
  unfold marked_encrypted, decrypt. destruct (header t) as [h|].
  - intros ->. reflexivity.
  - discriminate.
Qed.

Lemma decrypt_failure (t : Telegram) (h : TelegramHeader) (key : string) :
  header t = Some h -> is_encrypted h = true ->
  decrypt_aes_cbc lib (drop 10 (raw_data t)) key (manufacturer h) (meter_id h)
    = None ->
  decrypt lib t key = (false, t).
Proof.
  intros Hh He Hd. unfold decrypt. rewrite Hh, He, Hd. simpl.
  destruct (String.eqb key EmptyString); reflexivity.
Qed.

Lemma decrypt_false_unchanged (t : Telegram) (key : string) :
  fst (decrypt lib t key) = false -> snd (decrypt lib t key) = t.
Proof.
  unfold decrypt. destruct (header t) as [h|]; [|discriminate].
  destruct (is_encrypted h); simpl; [|discriminate].
  destruct (String.eqb key EmptyString); [reflexivity|].
  destruct (decrypt_aes_cbc lib _ _ _ _); [discriminate | reflexivity].
Qed.

(** C7: [Telegram.decrypt] returns success and changes nothing when the
    header is missing or not marked encrypted; when the header is
    marked encrypted and the key is empty, or [decrypt_aes_cbc] raises,
    it returns failure and the telegram is unchanged; and whenever it
    returns failure the telegram is unchanged. *)
Theorem decrypt_all_or_nothing (t : Telegram) (key : string) :
  (marked_encrypted t = false -> decrypt lib t key = (true, t)) /\
  (marked_encrypted t = true -> key = EmptyString ->
   decrypt lib t key = (false, t)) /\
  (forall h, header t = Some h -> is_encrypted h = true ->
     decrypt_aes_cbc lib (drop 10 (raw_data t)) key (manufacturer h)
       (meter_id h) = None ->
     decrypt lib t key = (false, t)) /\
  (fst (decrypt lib t key) = false -> snd (decrypt lib t key) = t).
Proof.
  split; [apply decrypt_not_encrypted|].
  split; [intros He ->; apply decrypt_empty_key, He|].
  split; [intros h; apply (decrypt_failure t h key)
         | apply decrypt_false_unchanged].
Qed.

Lemma key_not_empty (key : string) (key_bytes : bytes) :
  unhexlify (remove_spaces key) = UnhexOk key_bytes ->
  length key_bytes = 16%nat ->
  String.eqb key EmptyString = false.
Proof.
  intros Hk Hl. destruct key as [|c key']; [|reflexivity].
  cbv in Hk. injection Hk as <-. discriminate.
Qed.

(** C3, amended: for an encrypted telegram with manufacturer "XYZ" and
    identification "01020304" and a key of 16 bytes, the decrypt step
    builds the IV [X Y Z 01 02 03 04 00 00 00 00 00 00 00 00 00]: the
    three manufacturer letters, then the identification bytes in the
    order of its hex digits, then zero fill; the version and device-type
    bytes are not part of it.  When the CBC cipher created under the key
    and this IV decrypts the bytes after offset 10 to a plaintext with
    valid padding, the decrypt step succeeds and replaces those bytes
    with that plaintext, its padding removed; the first ten bytes and
    the header stay as they were. *)
Theorem decrypt_XYZ_01020304 (t : Telegram) (h : TelegramHeader)
    (key : string) (key_bytes plaintext unpadded : bytes) :
  CRYPTO_AVAILABLE lib = true ->
  header t = Some h ->
  manufacturer h = "XYZ"%string ->
  meter_id h = "01020304"%string ->
  is_encrypted h = true ->
  unhexlify (remove_spaces key) = UnhexOk key_bytes ->
  length key_bytes = 16%nat ->
  fst (cipher_decrypt lib (AES_new_cbc lib key_bytes iv_XYZ_01020304)
         (drop 10 (raw_data t))) = Some plaintext ->
  unpad lib plaintext = Some unpadded ->
  generate_iv (manufacturer h) (meter_id h) = Some iv_XYZ_01020304 /\
  decrypt lib t key
  = (true, mkTelegram (take 10 (raw_data t) ++ unpadded) (header t)).
Proof.
  intros Hc Hh Hm Hi He Hk Hl Hplain Hunpad.
  assert (Hiv : generate_iv (manufacturer h) (meter_id h)
                = Some iv_XYZ_01020304) by (rewrite Hm, Hi; reflexivity).
  split; [exact Hiv|].
  unfold decrypt, decrypt_aes_cbc.
  rewrite Hh, He, Hc, (key_not_empty key key_bytes Hk Hl), Hk, Hl, Hiv.
  cbn [negb Nat.eqb]. unfold decrypt_under.
  destruct (cipher_decrypt lib (AES_new_cbc lib key_bytes iv_XYZ_01020304)
              (drop 10 (raw_data t))) as [r1 c1].
  cbn [fst] in Hplain. subst r1. cbn [mbind option_bind].
  rewrite Hunpad. reflexivity.
Qed.

End Decryption.

(** *** The IV of a parsed header *)

(** A property of the sixteen nibble values, checked on each. *)
Lemma nibble_cases (P : Z -> Prop) :
  (forall k : nat, (k < 16)%nat -> P (Z.of_nat k)) ->
  forall n, 0 <= n < 16 -> P n.
Proof.
  intros HP n Hn. rewrite <- (Z2Nat.id n) by lia. apply HP. lia.
Qed.

Lemma hex_value_hex_digit (n : Z) :
  0 <= n < 16 -> hex_value (hex_digit n) = Some n.
Proof.
  revert n. apply nibble_cases. intros k Hk.
  do 16 (destruct k as [|k]; [reflexivity|]). lia.
Qed.

Lemma hex_digit_plain (n : Z) :
  0 <= n < 16 ->
  (ord (hex_digit n) <? 128) = true /\ (ord (hex_digit n) =? 32) = false.
Proof.
  revert n. apply nibble_cases. intros k Hk.
  do 16 (destruct k as [|k]; [split; reflexivity|]). lia.
Qed.

Lemma byte_nibbles (b : Z) :
  is_byte b -> 0 <= b / 16 < 16 /\ 0 <= b mod 16 < 16 /\ 16 * (b / 16) + b mod 16 = b.
Proof.
  unfold is_byte. intros Hb.
  pose proof (Z.div_mod b 16 ltac:(lia)).
  pose proof (Z.mod_pos_bound b 16 ltac:(lia)).
  assert (0 <= b / 16) by (apply Z.div_pos; lia).
  assert (b / 16 < 16) by (apply Z.div_lt_upper_bound; lia).
  lia.
Qed.

(** [unhexlify] undoes [hex] on a byte string, and [hex] has no spaces
    to remove. *)
Lemma unhexlify_hex (d : bytes) :
  is_bytes d ->
  remove_spaces (hex d) = hex d /\ unhexlify (hex d) = UnhexOk d.
Proof.
  intros Hd.
  assert (H : remove_spaces (hex d) = hex d /\ all_ascii (hex d) = true /\
              unhex_digits (hex d) = Some d).
  { induction Hd as [|b d Hb Hd IH].
    - repeat split.
    - destruct IH as (IH1 & IH2 & IH3).
      destruct (byte_nibbles b Hb) as (Hh & Hl & Hsum).
      destruct (hex_digit_plain _ Hh) as [Ha1 Hs1].
      destruct (hex_digit_plain _ Hl) as [Ha2 Hs2].
      change (hex (b :: d))
        with (String (hex_digit (b / 16))
                (String (hex_digit (b mod 16)) (hex d))).
      cbn [remove_spaces all_ascii unhex_digits].
      rewrite Hs1, Hs2, Ha1, Ha2, IH1, IH2, IH3.
      rewrite !hex_value_hex_digit by assumption.
      rewrite Hsum. repeat split. }
  destruct H as (H1 & H2 & H3). split; [exact H1|].
  unfold unhexlify. rewrite H2, H3. reflexivity.
Qed.

(** X1: for every telegram that has a header, the IV built from the
    header is the three manufacturer letters, the four A-field bytes in
    the reverse of their order in the frame, and nine zero bytes. *)
Lemma header_iv_layout (raw : bytes) :
  is_bytes raw -> (10 <= length raw)%nat ->
  exists h,
    header (TelegramOps.init raw) = Some h /\
    generate_iv (manufacturer h) (meter_id h)
      = Some (map ord (chars (manufacturer h))
              ++ [at_ raw 7; at_ raw 6; at_ raw 5; at_ raw 4]
              ++ replicate 9 0).
Proof.
  intros Hraw Hlen.
  destruct raw as [|b0 [|b1 [|b2 [|b3 [|b4 [|b5 [|b6 [|b7 [|b8 [|b9 rest]]]]]]]]]];
    try (simpl in Hlen; lia).
  eexists. split; [reflexivity|].
  cbn [manufacturer meter_id TelegramHeader_init].
  unfold generate_iv.
  change (slice 4 8 (b0 :: b1 :: b2 :: b3 :: b4 :: b5 :: b6 :: b7 :: b8 :: b9 :: rest))
    with [b4; b5; b6; b7].
  change (rev [b4; b5; b6; b7]) with [b7; b6; b5; b4].
  assert (Hid : is_bytes [b7; b6; b5; b4]).
  { unfold is_bytes in *. rewrite !Forall_cons in Hraw.
    rewrite !Forall_cons, Forall_nil. tauto. }
  destruct (unhexlify_hex _ Hid) as [-> ->].
  reflexivity.
Qed.

(** A telegram with manufacturer "XYZ", identification "01020304",
    version [0x18], device type [0x06], control [0x45] and 16 payload
    bytes, and a 16-byte key. *)
Lemma decrypt_all_or_nothing_witness :
  let t := TelegramOps.init
             [0x1A; 0x45; 0x3A; 0x63; 0x04; 0x03; 0x02; 0x01; 0x18; 0x06;
              0x7A; 0xC7; 0x00; 0x00; 0x20; 0x0C; 0x13; 0x91;
              0x19; 0x00; 0x00; 0x4C; 0x13; 0x91; 0x17; 0x00] in
  let plain := TelegramOps.init
                 [0x1A; 0x08; 0x3A; 0x63; 0x04; 0x03; 0x02; 0x01; 0x18; 0x06] in
  decrypt toy_aes plain "00"%string
    = (true, plain) /\
  decrypt toy_aes t EmptyString = (false, t) /\
  decrypt toy_aes t "0011"%string = (false, t).
Proof.
  intros t plain. split; [|split].
  - apply (decrypt_all_or_nothing toy_aes
             plain "00"%string). reflexivity.
  - apply (decrypt_all_or_nothing toy_aes
             t EmptyString); reflexivity.
  - destruct (decrypt_all_or_nothing toy_aes
                t "0011"%string) as (_ & _ & H & _).
    eapply H; reflexivity.
Defined.

Lemma decrypt_XYZ_01020304_witness :
  let payload := [0x7A; 0xC7; 0x00; 0x00; 0x20; 0x0C; 0x13; 0x91;
                  0x19; 0x00; 0x00; 0x4C; 0x13; 0x91; 0x17; 0x00] in
  let t := TelegramOps.init
             ([0x1A; 0x45; 0x3A; 0x63; 0x04; 0x03; 0x02; 0x01; 0x18; 0x06]
              ++ payload) in
  generate_iv "XYZ" "01020304" = Some iv_XYZ_01020304 /\
  decrypt toy_aes t
    "00112233445566778899AABBCCDDEEFF"%string
  = (true,
     mkTelegram
       ([0x1A; 0x45; 0x3A; 0x63; 0x04; 0x03; 0x02; 0x01; 0x18; 0x06]
        ++ xor_bytes payload iv_XYZ_01020304)
       (header t)).
Proof.
  intros payload t.
  exact (decrypt_XYZ_01020304 toy_aes t
           (mkHeader 0x1A 0x45 "XYZ" "01020304" 0x18 0x06 true)
           "00112233445566778899AABBCCDDEEFF"%string
           [0x00; 0x11; 0x22; 0x33; 0x44; 0x55; 0x66; 0x77;
            0x88; 0x99; 0xAA; 0xBB; 0xCC; 0xDD; 0xEE; 0xFF]
           (xor_bytes payload iv_XYZ_01020304)
           (xor_bytes payload iv_XYZ_01020304)
           eq_refl eq_refl eq_refl eq_refl eq_refl eq_refl eq_refl
           eq_refl eq_refl).
Defined.

(** C3, as stated, fails: on a telegram with manufacturer "XYZ",
    identification "01020304", version [0x18] and device type [0x06] the
    IV handed to the cipher is [X Y Z 01 02 03 04 00 ... 00], not
    [X Y Z 04 03 02 01 18 06 00 ... 00]. *)
Lemma iv_XYZ_not_little_endian_with_version :
  let t := TelegramOps.init
             [0x1A; 0x45; 0x3A; 0x63; 0x04; 0x03; 0x02; 0x01; 0x18; 0x06;
              0x7A; 0xC7; 0x00; 0x00; 0x20; 0x0C; 0x13; 0x91;
              0x19; 0x00; 0x00; 0x4C; 0x13; 0x91; 0x17; 0x00] in
  exists h,
    header t = Some h /\
    manufacturer h = "XYZ"%string /\
    meter_id h = "01020304"%string /\
    is_encrypted h = true /\
    version h = 0x18 /\ meter_type h = 0x06 /\
    generate_iv (manufacturer h) (meter_id h)
      = Some [88; 89; 90; 0x01; 0x02; 0x03; 0x04; 0; 0; 0; 0; 0; 0; 0; 0; 0] /\
    generate_iv (manufacturer h) (meter_id h)
      <> Some [88; 89; 90; 0x04; 0x03; 0x02; 0x01; version h; meter_type h;
               0; 0; 0; 0; 0; 0; 0].
Proof.
  eexists. split; [reflexivity|]. repeat split. discriminate.
Qed.

(** ** BCD values *)

Section Bcd.
Import TelegramData DataRecord.

Lemma nibbles_of_pair (h l : Z) :
  0 <= h < 16 -> 0 <= l < 16 ->
  Z.land (Z.shiftr (16 * h + l) 4) 0x0F = h /\ Z.land (16 * h + l) 0x0F = l.
Proof.
  intros Hh Hl. change 0x0F with (Z.ones 4).
  rewrite !Z.land_ones, Z.shiftr_div_pow2 by lia.
  change (2 ^ 4) with 16. split.
  - replace ((16 * h + l) / 16) with h
      by (apply Z.div_unique with l; lia).
    apply Z.mod_small. lia.
  - symmetry. apply Z.mod_unique with h; lia.
Qed.

(** The little-endian loop of [Telegram._decode_value] on the reference
    encoding of [n], started at byte index [i]. *)
Lemma bcd_loop_encode (k : nat) :
  forall (n : Z) (i : nat) (acc : Z),
    0 <= n < 100 ^ Z.of_nat k ->
    bcd_loop (encode_bcd n k) i acc = acc + 10 ^ (Z.of_nat i * 2) * n.
Proof.
  induction k as [|k IH]; intros n i acc Hn.
  - simpl in *. assert (n = 0) by lia. subst. lia.
  - cbn [encode_bcd bcd_loop].
    assert (Hpow : 100 ^ Z.of_nat (S k) = 100 * 100 ^ Z.of_nat k).
    { rewrite Nat2Z.inj_succ, Z.pow_succ_r by lia. reflexivity. }
    assert (Hq : 0 <= n / 100 < 100 ^ Z.of_nat k).
    { split; [apply Z.div_pos; lia|].
      apply Z.div_lt_upper_bound; lia. }
    pose proof (Z.mod_pos_bound (n / 10) 10 ltac:(lia)) as Hh.
    pose proof (Z.mod_pos_bound n 10 ltac:(lia)) as Hl.
    destruct (nibbles_of_pair ((n / 10) mod 10) (n mod 10)) as [-> ->];
      [lia | lia |].
    rewrite IH by exact Hq.
    replace (Z.of_nat (S i) * 2) with (Z.of_nat i * 2 + 2) by lia.
    replace (Z.of_nat i * 2 + 1) with (Z.succ (Z.of_nat i * 2)) by lia.
    rewrite Z.pow_add_r, Z.pow_succ_r by lia.
    change (10 ^ 2) with 100.
    assert (Hn100 : n = 100 * (n / 100) + (10 * ((n / 10) mod 10) + n mod 10)).
    { pose proof (Z.div_mod n 10 ltac:(lia)).
      pose proof (Z.div_mod (n / 10) 10 ltac:(lia)).
      rewrite Z.div_div in * by lia. change (10 * 10) with 100 in *. lia. }
    generalize dependent (n / 100). generalize dependent ((n / 10) mod 10).
    generalize dependent (n mod 10). intros l _ h _ q _ ->. ring.
Qed.

(** [Telegram._decode_value] reads BCD bytes least significant first: on
    the reference encoding of [n] over [k] bytes it returns [n]. *)
Lemma telegram_bcd_round_trip (k : nat) (n : Z) :
  0 <= n <= 10 ^ (2 * Z.of_nat k) - 1 ->
  _decode_value (encode_bcd n k) "bcd8" = VInt n.
Proof.
  intros Hn.
  assert (H100 : 10 ^ (2 * Z.of_nat k) = 100 ^ Z.of_nat k).
  { rewrite Z.pow_mul_r by lia. reflexivity. }
  change (_decode_value (encode_bcd n k) "bcd8")
    with (VInt (bcd_loop (encode_bcd n k) 0 0)).
  rewrite bcd_loop_encode by lia. f_equal. simpl. lia.
Qed.

Lemma telegram_bcd_round_trip_witness :
  _decode_value (encode_bcd 12345678 4) "bcd8" = VInt 12345678.
Proof. apply (telegram_bcd_round_trip 4 12345678). simpl. lia. Defined.

End Bcd.

(** ** The record parser *)

Section Records.
Import RecordParser.

(** The extension loops move the cursor forward and never past the end
    of the bytes they are given. *)
Lemma dife_loop_cursor (rest : bytes) :
  forall i db s t d i' db' s' t' d',
    dife_loop rest i db s t d = (i', db', s', t', d') ->
    (i <= i' <= i + length rest)%nat.
Proof.
  induction rest as [|b rest IH]; intros i db s t d i' db' s' t' d' H.
  - simpl in H. injection H as <- _ _ _ _. simpl. lia.
  - cbn [dife_loop] in H. cbv zeta in H.
    destruct (Z.land b 128 =? 0).
    + injection H as <- _ _ _ _. simpl. lia.
    + apply IH in H. simpl. lia.
Qed.

Lemma vife_loop_cursor (rest : bytes) :
  forall i vb i' vb',
    vife_loop rest i vb = (i', vb') -> (i <= i' <= i + length rest)%nat.
Proof.
  induction rest as [|b rest IH]; intros i vb i' vb' H.
  - simpl in H. injection H as <- _. simpl. lia.
  - cbn [vife_loop] in H. cbv zeta in H.
    destruct (Z.land b 128 =? 0).
    + injection H as <- _. simpl. lia.
    + apply IH in H. simpl. lia.
Qed.

(** A pass that appends a record has consumed at least the DIF and the
    VIF, and stays inside the payload. *)
Lemma parse_record_advances (data : bytes) (i : nat) (r : MBusDataRecord)
    (i' : nat) :
  (i < length data)%nat ->
  parse_record data i = Continue r i' ->
  (S (S i) <= i' <= length data)%nat.
Proof.
  intros Hi. unfold parse_record. cbv zeta.
  destruct (if Z.land (at_ data i) 128 =? 0
            then (S i, [], 0, 0, 0)
            else dife_loop (drop (S i) data) (S i) [] 0 0 0)
    as [[[[i1 db] s] t] d] eqn:E1.
  assert (H1 : (S i <= i1 <= length data)%nat).
  { destruct (Z.land (at_ data i) 128 =? 0).
    - injection E1 as <- _ _ _ _. lia.
    - apply dife_loop_cursor in E1. rewrite length_drop in E1. lia. }
  destruct (Nat.leb_spec (length data) i1) as [Hend|Hmore]; [discriminate|].
  destruct (if Z.land (at_ data i1) 128 =? 0
            then (S i1, [])
            else vife_loop (drop (S i1) data) (S i1) [])
    as [i2 vb] eqn:E2.
  assert (H2 : (S i1 <= i2 <= length data)%nat).
  { destruct (Z.land (at_ data i1) 128 =? 0).
    - injection E2 as <- _. lia.
    - apply vife_loop_cursor in E2. rewrite length_drop in E2. lia. }
  match goal with
  | |- (if Z.of_nat (length data) <? Z.of_nat i2 + ?len then _ else _) = _ -> _ =>
      destruct (Z.ltb_spec (Z.of_nat (length data)) (Z.of_nat i2 + len))
        as [Hover|Hfit]; [discriminate|];
      intros [= _ <-]; lia
  end.
Qed.

(** With more fuel than bytes left, the loop returns, after at most one
    pass per byte left, and the result does not depend on the fuel. *)
Lemma parse_loop_total (data : bytes) (n : nat) :
  forall i records passes,
    (i <= length data)%nat ->
    (length data - i <= n)%nat ->
    exists records' passes',
      (passes' <= passes + (length data - i))%nat /\
      forall fuel, (n < fuel)%nat ->
        parse_loop fuel data i records passes = Some (records', passes').
Proof.
  induction n as [|n IH]; intros i records passes Hi Hn.
  - exists records, passes. split; [lia|].
    intros [|fuel] Hf; [lia|]. simpl.
    destruct (Nat.ltb_spec i (length data)); [lia | reflexivity].
  - destruct (Nat.ltb_spec i (length data)) as [Hlt|Hge].
    + destruct (parse_record data i) as [r i'|] eqn:Hrec.
      * pose proof (parse_record_advances data i r i' Hlt Hrec) as Hadv.
        destruct (IH i' (records ++ [r]) (S passes)) as (rs & ps & Hps & Hrun);
          [lia | lia |].
        exists rs, ps. split; [lia|].
        intros [|fuel] Hf; [lia|]. cbn [parse_loop].
        destruct (Nat.ltb_spec i (length data)); [|lia].
        rewrite Hrec. apply Hrun. lia.
      * exists records, (S passes). split; [lia|].
        intros [|fuel] Hf; [lia|]. cbn [parse_loop].
        destruct (Nat.ltb_spec i (length data)); [|lia].
        rewrite Hrec. reflexivity.
    + exists records, passes. split; [lia|].
      intros [|fuel] Hf; [lia|]. cbn [parse_loop].
      destruct (Nat.ltb_spec i (length data)); [lia | reflexivity].
Qed.

(** C10: [parse_data_records] terminates on every byte string.  Each
    pass through the loop body that does not leave the loop moves the
    cursor strictly forward (by at least two bytes) and not past the
    end; the loop therefore returns a record list after at most
    [len(data)] passes, whatever fuel above [len(data)] it is given. *)
Theorem parse_data_records_terminates (data : bytes) :
  (forall i r i', (i < length data)%nat ->
     parse_record data i = Continue r i' ->
     (i < i' <= length data)%nat) /\
  exists records passes,
    parse_data_records_passes data = Some (records, passes) /\
    parse_data_records data = Some records /\
    (passes <= length data)%nat /\
    forall fuel, (length data < fuel)%nat ->
      parse_loop fuel data 0 [] 0 = Some (records, passes).
Proof.
  split.
  - intros i r i' Hi Hrec.
    pose proof (parse_record_advances data i r i' Hi Hrec). lia.
  - destruct (parse_loop_total data (length data) 0 [] 0)
      as (rs & ps & Hps & Hrun); [lia | lia |].
    exists rs, ps.
    assert (Hp : parse_data_records_passes data = Some (rs, ps)).
    { unfold parse_data_records_passes. destruct data as [|b data'].
      - specialize (Hrun 1%nat ltac:(simpl; lia)). simpl in Hrun.
        exact Hrun.
      - apply Hrun. lia. }
    split; [exact Hp|]. split; [|split; [lia | exact Hrun]].
    unfold parse_data_records. rewrite Hp. reflexivity.
Qed.


(** A DIFE chain whose bytes all ask for a further extension runs to the
    end of the data. *)
Lemma dife_loop_runs_out (rest : bytes) :
  forall i db s t d,
    Forall (fun b => Z.land b 0x80 <> 0) rest ->
    fst (fst (fst (fst (dife_loop rest i db s t d)))) = (i + length rest)%nat.
Proof.
  induction rest as [|b rest IH]; intros i db s t d Hall.
  - simpl. lia.
  - inversion Hall as [|? ? Hb Hrest]; subst.
    cbn [dife_loop]. cbv zeta.
    destruct (Z.eqb_spec (Z.land b 128) 0) as [H0|_]; [contradiction|].
    rewrite IH by exact Hrest. simpl. lia.
Qed.

(** The DIFE half of C8: when the DIF asks for an extension and every
    byte after it to the end of the payload does too, the pass emits no
    record and leaves the loop. *)
Lemma truncated_dife_chain_breaks (data : bytes) (i : nat) :
  (i < length data)%nat ->
  Z.land (at_ data i) 0x80 <> 0 ->
  Forall (fun b => Z.land b 0x80 <> 0) (drop (S i) data) ->
  parse_record data i = Break.
Proof.
  intros Hi Hdif Hall. unfold parse_record. cbv zeta.
  destruct (Z.eqb_spec (Z.land (at_ data i) 128) 0) as [H0|_]; [contradiction|].
  pose proof (dife_loop_runs_out (drop (S i) data) (S i) [] 0 0 0 Hall) as Hrun.
  destruct (dife_loop (drop (S i) data) (S i) [] 0 0 0)
    as [[[[i1 db] s] t] d].
  simpl in Hrun. rewrite length_drop in Hrun.
  destruct (Nat.leb_spec (length data) i1); [reflexivity | lia].
Qed.

(** C8 does not hold for a truncated VIF chain in front of a value of
    length 0.  When the VIF or a VIFE asks for an extension and the
    payload ends there, after a DIF whose data field has length 0, a
    record is still appended: [00 80 80] gives one record with the one
    VIFE read, [00 80] one record, and [01 13 05 00 93] two, the second
    for the truncated position.  The sibling cases do stop without a
    record: a truncated DIFE chain ([01 13 05 81]), a value that
    overruns the payload ([01 13 05 04 13 05]) and a truncated VIF chain
    in front of a value of non-zero length ([01 13 05 01 93]) each
    return the first record only. *)
Theorem truncated_vife_chain_still_emits_record :
  parse_data_records [0x00; 0x80; 0x80]
    = Some [mkRecord 0x00 0x00 [] 0 0 0 0 [] [0x80]] /\
  parse_data_records [0x00; 0x80]
    = Some [mkRecord 0x00 0x00 [] 0 0 0 0 [] []] /\
  parse_data_records [0x01; 0x13; 0x05; 0x00; 0x93]
    = Some [mkRecord 0x01 0x13 [0x05] 0 0 0 0 [] [];
            mkRecord 0x00 0x13 [] 0 0 0 0 [] []] /\
  parse_data_records [0x01; 0x13; 0x05; 0x81]
    = Some [mkRecord 0x01 0x13 [0x05] 0 0 0 0 [] []] /\
  parse_data_records [0x01; 0x13; 0x05; 0x04; 0x13; 0x05]
    = Some [mkRecord 0x01 0x13 [0x05] 0 0 0 0 [] []] /\
  parse_data_records [0x01; 0x13; 0x05; 0x01; 0x93]
    = Some [mkRecord 0x01 0x13 [0x05] 0 0 0 0 [] []].
Proof. repeat split. Qed.






End Records.

(** * Further properties *)

Lemma header_iv_layout_witness :
  exists h,
    header (TelegramOps.init
              [0x37; 0x44; 0x93; 0x44; 0x48; 0x36; 0x35; 0x12; 0x18; 0x06; 0x7A])
      = Some h /\
    generate_iv (manufacturer h) (meter_id h)
      = Some (map ord (chars (manufacturer h))
              ++ [0x12; 0x35; 0x36; 0x48] ++ replicate 9 0).
Proof.
  apply (header_iv_layout
           [0x37; 0x44; 0x93; 0x44; 0x48; 0x36; 0x35; 0x12; 0x18; 0x06; 0x7A]).
  - unfold is_bytes. rewrite !Forall_cons, Forall_nil. unfold is_byte. lia.
  - simpl. lia.
Defined.

(** ** The shape of the IV *)

Lemma write_from_length (vals : bytes) :
  forall off (iv : bytes), length (write_from off vals iv) = length iv.
Proof.
  induction vals as [|v vals IH]; intros off iv; simpl.
  - reflexivity.
  - rewrite IH. apply length_insert.
Qed.

Lemma write_from_outside (vals : bytes) :
  forall off (iv : bytes) i,
    (i < off \/ off + length vals <= i)%nat ->
    write_from off vals iv !! i = iv !! i.
Proof.
  induction vals as [|v vals IH]; intros off iv i Hi; simpl.
  - reflexivity.
  - rewrite IH by (simpl in Hi; lia).
    apply list_lookup_insert_ne. simpl in Hi. lia.
Qed.

Lemma write_from_bytes (vals : bytes) :
  forall off (iv : bytes),
    is_bytes vals -> is_bytes iv -> is_bytes (write_from off vals iv).
Proof.
  induction vals as [|v vals IH]; intros off iv Hv Hiv; simpl.
  - exact Hiv.
  - inversion Hv; subst. apply IH; [assumption|].
    apply Forall_insert; assumption.
Qed.

Lemma ord_byte (c : ascii) : is_byte (ord c).
Proof.
  unfold is_byte, ord. pose proof (N_ascii_bounded c). lia.
Qed.

Lemma map_ord_bytes (l : list ascii) : is_bytes (map ord l).
Proof.
  unfold is_bytes. apply Forall_forall. intros x Hx.
  apply list_elem_of_In, in_map_iff in Hx. destruct Hx as (c & <- & _).
  apply ord_byte.
Qed.

Lemma hex_value_range (c : ascii) (n : Z) :
  hex_value c = Some n -> 0 <= n < 16.
Proof.
  unfold hex_value. cbv zeta.
  destruct ((48 <=? ord c) && (ord c <=? 57)) eqn:E1.
  { apply andb_true_iff in E1. intros [= <-]. lia. }
  destruct ((97 <=? ord c) && (ord c <=? 102)) eqn:E2.
  { apply andb_true_iff in E2. intros [= <-]. lia. }
  destruct ((65 <=? ord c) && (ord c <=? 70)) eqn:E3.
  { apply andb_true_iff in E3. intros [= <-]. lia. }
  discriminate.
Qed.

Lemma unhex_digits_bytes (n : nat) :
  forall s b, (String.length s <= n)%nat ->
    unhex_digits s = Some b -> is_bytes b.
Proof.
  induction n as [|n IH]; intros s b Hlen H.
  - destruct s; [|simpl in Hlen; lia]. injection H as <-. constructor.
  - destruct s as [|c1 [|c2 rest]]; simpl in H.
    + injection H as <-. constructor.
    + discriminate.
    + destruct (hex_value c1) as [h|] eqn:E1; [|discriminate].
      destruct (hex_value c2) as [l|] eqn:E2; [|discriminate].
      destruct (unhex_digits rest) as [r|] eqn:E3; [|discriminate].
      injection H as <-.
      apply hex_value_range in E1. apply hex_value_range in E2.
      constructor; [unfold is_byte; lia|].
      apply (IH rest); [simpl in Hlen; lia | exact E3].
Qed.

(** X2: whenever [generate_iv] returns, its result is 16 bytes long,
    every element is a byte, and the last five positions (11 to 15) are
    zero, whatever the manufacturer and the identification are. *)
Theorem generate_iv_shape (manufacturer meter_id : string) (iv : bytes) :
  generate_iv manufacturer meter_id = Some iv ->
  length iv = 16%nat /\
  is_bytes iv /\
  forall i, (11 <= i < 16)%nat -> iv !! i = Some 0.
Proof.
  unfold generate_iv. cbv zeta.
  set (iv0 := write_from 0 (map ord (take 3 (chars manufacturer)))
                (replicate 16 0)).
  assert (Hlen0 : length iv0 = 16%nat)
    by (unfold iv0; rewrite write_from_length; reflexivity).
  assert (Hb0 : is_bytes iv0).
  { unfold iv0. apply write_from_bytes; [apply map_ord_bytes|].
    unfold is_bytes, is_byte. repeat constructor; lia. }
  assert (Hz0 : forall i, (11 <= i < 16)%nat -> iv0 !! i = Some 0).
  { intros i Hi. unfold iv0. rewrite write_from_outside.
    - apply lookup_replicate. split; [reflexivity | lia].
    - right. rewrite length_map, length_take. lia. }
  assert (Hgen : forall vals, is_bytes vals -> (length vals <= 8)%nat ->
            length (write_from 3 vals iv0) = 16%nat /\
            is_bytes (write_from 3 vals iv0) /\
            forall i, (11 <= i < 16)%nat ->
              write_from 3 vals iv0 !! i = Some 0).
  { intros vals Hv Hl. rewrite write_from_length.
    split; [exact Hlen0|]. split; [apply write_from_bytes; assumption|].
    intros i Hi. rewrite write_from_outside by lia. apply Hz0, Hi. }
  destruct (unhexlify (remove_spaces meter_id)) as [id_bytes| |] eqn:Eu;
    [| |discriminate]; intros [= <-].
  - apply Hgen.
    + apply is_bytes_take. unfold unhexlify in Eu.
      destruct (negb (all_ascii (remove_spaces meter_id))); [discriminate|].
      destruct (unhex_digits (remove_spaces meter_id)) as [b|] eqn:Ed;
        [|discriminate].
      injection Eu as <-. eapply unhex_digits_bytes; [reflexivity | exact Ed].
    + rewrite length_take. lia.
  - apply Hgen; [apply map_ord_bytes|].
    rewrite length_map, length_take. lia.
Qed.

Lemma generate_iv_shape_witness :
  length [75; 65; 77; 0x12; 0x34; 0x56; 0x78; 0; 0; 0; 0; 0; 0; 0; 0; 0] = 16%nat /\
  is_bytes [75; 65; 77; 0x12; 0x34; 0x56; 0x78; 0; 0; 0; 0; 0; 0; 0; 0; 0] /\
  forall i, (11 <= i < 16)%nat ->
    [75; 65; 77; 0x12; 0x34; 0x56; 0x78; 0; 0; 0; 0; 0; 0; 0; 0; 0] !! i = Some 0.
Proof.
  apply (generate_iv_shape "KAM" "12 34 56 78"). reflexivity.
Defined.

(** ** BCD decoding in both decoders *)

Section BcdMore.
Import TelegramData DataRecord.

(** X3: for each of the four BCD type names of the telegram façade,
    [_decode_value] on the little-endian nibble-pair encoding of [n]
    over [k] bytes returns [n], for every [n] below [10^(2k)]. *)
Theorem telegram_bcd_types_round_trip (k : nat) (n : Z) (data_type : string) :
  In data_type ["bcd2"; "bcd4"; "bcd6"; "bcd8"]%string ->
  0 <= n < 10 ^ (2 * Z.of_nat k) ->
  _decode_value (encode_bcd n k) data_type = VInt n.
Proof.
  intros Hty Hn.
  assert (H100 : 10 ^ (2 * Z.of_nat k) = 100 ^ Z.of_nat k).
  { rewrite Z.pow_mul_r by lia. reflexivity. }
  assert (Hdec : _decode_value (encode_bcd n k) data_type
                 = VInt (bcd_loop (encode_bcd n k) 0 0)).
  { simpl in Hty. destruct Hty as [<-|[<-|[<-|[<-|[]]]]]; reflexivity. }
  rewrite Hdec, bcd_loop_encode by lia. f_equal. simpl. lia.
Qed.

Lemma telegram_bcd_types_round_trip_witness :
  _decode_value (encode_bcd 123456 3) "bcd6" = VInt 123456.
Proof.
  apply (telegram_bcd_types_round_trip 3 123456 "bcd6").
  - simpl. tauto.
  - simpl. lia.
Defined.

(** The two low nibbles of a little-endian integer whose first byte is
    [16 * h + l], and what is left above them. *)
Lemma low_nibbles (h l r : Z) :
  0 <= h < 16 -> 0 <= l < 16 ->
  Z.land (16 * h + l + 256 * r) 0x0F = l /\
  Z.land (Z.shiftr (16 * h + l + 256 * r) 4) 0x0F = h /\
  Z.shiftr (Z.shiftr (16 * h + l + 256 * r) 4) 4 = r.
Proof.
  intros Hh Hl. change 0x0F with (Z.ones 4).
  rewrite !Z.land_ones, !Z.shiftr_div_pow2 by lia.
  change (2 ^ 4) with 16.
  assert (H1 : (16 * h + l + 256 * r) / 16 = h + 16 * r)
    by (symmetry; apply Z.div_unique with l; lia).
  rewrite H1. repeat split.
  - symmetry. apply Z.mod_unique with (h + 16 * r); lia.
  - symmetry. apply Z.mod_unique with r; lia.
  - symmetry. apply Z.div_unique with h; lia.
Qed.

(** [_decode_bcd] over the integer whose little-endian bytes are the
    nibble-pair encoding of [n]. *)
Lemma decode_bcd_loop_encode (k : nat) :
  forall n acc m,
    0 <= n < 100 ^ Z.of_nat k ->
    decode_bcd_loop (2 * k) (le_unsigned (encode_bcd n k)) acc m
      = acc + m * n.
Proof.
  induction k as [|k IH]; intros n acc m Hn.
  - simpl in *. assert (n = 0) by lia. subst. lia.
  - replace (2 * S k)%nat with (S (S (2 * k))) by lia.
    cbn [encode_bcd le_unsigned decode_bcd_loop]. cbv zeta.
    assert (Hpow : 100 ^ Z.of_nat (S k) = 100 * 100 ^ Z.of_nat k).
    { rewrite Nat2Z.inj_succ, Z.pow_succ_r by lia. reflexivity. }
    assert (Hq : 0 <= n / 100 < 100 ^ Z.of_nat k).
    { split; [apply Z.div_pos; lia|]. apply Z.div_lt_upper_bound; lia. }
    pose proof (Z.mod_pos_bound (n / 10) 10 ltac:(lia)) as Hh.
    pose proof (Z.mod_pos_bound n 10 ltac:(lia)) as Hl.
    destruct (low_nibbles ((n / 10) mod 10) (n mod 10)
                (le_unsigned (encode_bcd (n / 100) k)))
      as (-> & -> & ->); [lia | lia |].
    destruct (Z.ltb_spec 9 (n mod 10)) as [|_]; [lia|].
    destruct (Z.ltb_spec 9 ((n / 10) mod 10)) as [|_]; [lia|].
    rewrite IH by exact Hq.
    assert (Hn100 : n = 100 * (n / 100) + (10 * ((n / 10) mod 10) + n mod 10)).
    { pose proof (Z.div_mod n 10 ltac:(lia)).
      pose proof (Z.div_mod (n / 10) 10 ltac:(lia)).
      rewrite Z.div_div in * by lia. change (10 * 10) with 100 in *. lia. }
    generalize dependent (n / 100). generalize dependent ((n / 10) mod 10).
    generalize dependent (n mod 10). intros l _ h _ q _ ->. ring.
Qed.

Lemma fold_be_rev (b : bytes) :
  fold_left (fun acc x => 256 * acc + x) (rev b) 0 = le_unsigned b.
Proof.
  induction b as [|y b IH]; [reflexivity|].
  change (rev (y :: b)) with (rev b ++ [y]).
  rewrite fold_left_app, IH. simpl. lia.
Qed.

Lemma be_unsigned_rev (b : bytes) :
  b <> [] -> be_unsigned (rev b) = Some (le_unsigned b).
Proof.
  intros Hne. unfold be_unsigned.
  destruct (rev b) as [|x r] eqn:Er.
  - apply (f_equal (@rev Z)) in Er. rewrite rev_involutive in Er.
    simpl in Er. contradiction.
  - rewrite <- Er, fold_be_rev. reflexivity.
Qed.

(** The four BCD branches of [_parse_value]: data field [0x0F + k]
    decodes [2k] digits of the value read most significant first. *)
Lemma parse_by_dif_bcd (k : nat) (value : bytes) :
  (1 <= k <= 4)%nat ->
  parse_by_dif (0x0F + Z.of_nat k) value
    = (fun bcd => VInt (_decode_bcd bcd (2 * k))) <$> be_unsigned value.
Proof.
  intros Hk. destruct k as [|[|[|[|[|k]]]]]; try lia; reflexivity.
Qed.

(** X4: [MBusDataRecord] decodes its BCD data fields correctly on bytes
    given most significant first.  For [k] from 1 to 4 and the data field
    [0x0F + k] ([INT_BCD8] to [INT_BCD32]), the parsed value of the
    byte-reversed nibble-pair encoding of [n] is [n], for every [n]
    below [10^(2k)] and every VIF that is not a date or date-time. *)
Theorem record_bcd_round_trip_msb_first (k : nat) (n vif : Z) :
  (1 <= k <= 4)%nat ->
  0 <= n < 10 ^ (2 * Z.of_nat k) ->
  vif <> 0xA8 -> vif <> 0xB0 ->
  _parse_value (0x0F + Z.of_nat k) vif (rev (encode_bcd n k)) = VInt n.
Proof.
  intros Hk Hn Hv1 Hv2.
  assert (H100 : 10 ^ (2 * Z.of_nat k) = 100 ^ Z.of_nat k).
  { rewrite Z.pow_mul_r by lia. reflexivity. }
  assert (Hne : encode_bcd n k <> []) by (destruct k; [lia | discriminate]).
  assert (Hdec : parse_by_dif (0x0F + Z.of_nat k) (rev (encode_bcd n k))
                 = Some (VInt n)).
  { rewrite (parse_by_dif_bcd k) by exact Hk.
    rewrite be_unsigned_rev by exact Hne.
    change (Some (VInt (_decode_bcd (le_unsigned (encode_bcd n k)) (2 * k)))
            = Some (VInt n)).
    unfold _decode_bcd. rewrite decode_bcd_loop_encode by lia.
    do 2 f_equal. lia. }
  unfold _parse_value. rewrite Hdec.
  destruct (Z.eqb_spec vif 0xA8) as [|_]; [contradiction|].
  destruct (Z.eqb_spec vif 0xB0) as [|_]; [contradiction|].
  reflexivity.
Qed.

Lemma record_bcd_round_trip_msb_first_witness :
  _parse_value 0x13 0x13 [0x12; 0x34; 0x56; 0x78] = VInt 12345678.
Proof.
  apply (record_bcd_round_trip_msb_first 4 12345678 0x13);
    [lia | simpl; lia | discriminate | discriminate].
Defined.

Lemma nibble_range (v : Z) : 0 <= Z.land v 0x0F < 16.
Proof.
  change 0x0F with (Z.ones 4). rewrite Z.land_ones by lia.
  apply Z.mod_pos_bound. lia.
Qed.

Lemma decode_bcd_loop_bounds (digits : nat) :
  forall value acc m,
    0 <= m ->
    acc <= decode_bcd_loop digits value acc m
        <= acc + m * (10 ^ Z.of_nat digits - 1).
Proof.
  induction digits as [|d IH]; intros value acc m Hm.
  - simpl. lia.
  - cbn [decode_bcd_loop]. cbv zeta.
    pose proof (nibble_range value) as Hnib.
    set (digit := if 9 <? Z.land value 15 then 9 else Z.land value 15).
    assert (Hd : 0 <= digit <= 9).
    { unfold digit. destruct (Z.ltb_spec 9 (Z.land value 15)); lia. }
    specialize (IH (Z.shiftr value 4) (acc + digit * m) (m * 10) ltac:(lia)).
    rewrite Nat2Z.inj_succ, Z.pow_succ_r by lia.
    assert (0 < 10 ^ Z.of_nat d) by (apply Z.pow_pos_nonneg; lia).
    nia.
Qed.

(** X5: [_decode_bcd] clamps.  For every integer [value], valid BCD or
    not, and every digit count, the result lies in
    [0 .. 10^digits - 1]. *)
Theorem decode_bcd_in_range (value : Z) (digits : nat) :
  0 <= _decode_bcd value digits <= 10 ^ Z.of_nat digits - 1.
Proof.
  unfold _decode_bcd.
  pose proof (decode_bcd_loop_bounds digits value 0 1 ltac:(lia)). lia.
Qed.

End BcdMore.

(** ** Integers and dates of a data record *)

Section RecordValues.
Import DataRecord.

Lemma le_unsigned_range (b : bytes) :
  is_bytes b -> 0 <= le_unsigned b < 2 ^ (8 * Z.of_nat (length b)).
Proof.
  induction 1 as [|x b Hx Hb IH]; [simpl; lia|].
  cbn [le_unsigned length]. unfold is_byte in Hx.
  replace (8 * Z.of_nat (S (length b))) with (8 + 8 * Z.of_nat (length b)) by lia.
  rewrite Z.pow_add_r by lia. change (2 ^ 8) with 256. lia.
Qed.

(** Testing one bit with a mask. *)
Lemma land_pow2_eqb (x n : Z) :
  0 <= n -> (Z.land x (2 ^ n) =? 0) = negb (Z.testbit x n).
Proof.
  intros Hn. destruct (Z.testbit x n) eqn:E; simpl.
  - apply Z.eqb_neq. intros H0.
    assert (Hb : Z.testbit (Z.land x (2 ^ n)) n = true)
      by (rewrite Z.land_spec, E, Z.pow2_bits_true by lia; reflexivity).
    rewrite H0, Z.bits_0 in Hb. discriminate.
  - apply Z.eqb_eq. apply Z.bits_inj'. intros m Hm.
    rewrite Z.land_spec, Z.bits_0.
    destruct (Z.eq_dec n m) as [<-|Hne].
    + rewrite E. reflexivity.
    + rewrite (Z.pow2_bits_false n m) by assumption. apply andb_false_r.
Qed.

(** The signed reading of [k+1] bytes followed by the explicit sign
    test the 24- and 48-bit branches apply to it: a value whose top bit
    is set is lowered by [2^bits] twice. *)
Lemma sign_extended_twice (value : bytes) (bits : Z) :
  is_bytes value -> bits = 8 * Z.of_nat (length value) -> 0 < bits ->
  (if Z.land (le_signed value) (2 ^ (bits - 1)) =? 0
   then le_signed value else le_signed value - 2 ^ bits)
  = if le_unsigned value <? 2 ^ (bits - 1) then le_unsigned value
    else le_unsigned value - 2 ^ (bits + 1).
Proof.
  intros Hb Hbits Hpos. pose proof (le_unsigned_range value Hb) as Hu.
  rewrite <- Hbits in Hu. unfold le_signed. cbv zeta. rewrite <- Hbits.
  assert (Hhalf : 2 ^ bits = 2 * 2 ^ (bits - 1)).
  { rewrite <- Z.pow_succ_r by lia. f_equal. lia. }
  assert (Hdbl : 2 ^ (bits + 1) = 2 * 2 ^ bits) by (apply Z.pow_succ_r; lia).
  assert (Hp : 0 < 2 ^ (bits - 1)) by (apply Z.pow_pos_nonneg; lia).
  rewrite land_pow2_eqb by lia.
  destruct (Z.ltb_spec 0 bits) as [_|]; [|lia]. cbn [andb].
  destruct (Z.leb_spec (2 ^ (bits - 1)) (le_unsigned value)) as [Hhi|Hlo];
    destruct (Z.ltb_spec (le_unsigned value) (2 ^ (bits - 1))) as [Hlt|Hge];
    try lia.
  - assert (Ht : Z.testbit (le_unsigned value - 2 ^ bits) (bits - 1) = true).
    { apply Z.testbit_true; [lia|].
      replace ((le_unsigned value - 2 ^ bits) / 2 ^ (bits - 1)) with (-1);
        [reflexivity|].
      apply Z.div_unique with (le_unsigned value - 2 ^ (bits - 1)); lia. }
    rewrite Ht. simpl. lia.
  - assert (Ht : Z.testbit (le_unsigned value) (bits - 1) = false).
    { apply Z.testbit_false; [lia|].
      rewrite Z.div_small by lia. reflexivity. }
    rewrite Ht. reflexivity.
Qed.

(** X6: the 24-bit and 48-bit integer branches of [_parse_value]
    subtract the sign offset twice.  On a value of 3 (resp. 6) bytes
    with unsigned little-endian reading [u], the parsed value is [u]
    when the top bit is clear and [u - 2^25] (resp. [u - 2^49]) when it
    is set, so no value parses to a number in [-2^23 .. -1] (resp.
    [-2^47 .. -1]). *)
Theorem int24_int48_sign_extended_twice (value : bytes) (vif : Z) :
  is_bytes value -> vif <> 0xA8 -> vif <> 0xB0 ->
  (length value = 3%nat ->
   _parse_value 0x03 vif value
     = VInt (if le_unsigned value <? 2 ^ 23 then le_unsigned value
             else le_unsigned value - 2 ^ 25)) /\
  (length value = 6%nat ->
   _parse_value 0x06 vif value
     = VInt (if le_unsigned value <? 2 ^ 47 then le_unsigned value
             else le_unsigned value - 2 ^ 49)).
Proof.
  intros Hb Hv1 Hv2.
  assert (Hvif : forall dif v, parse_by_dif dif value = Some v ->
                   _parse_value dif vif value = v).
  { intros dif v Hp. unfold _parse_value. rewrite Hp.
    destruct (Z.eqb_spec vif 0xA8) as [|_]; [contradiction|].
    destruct (Z.eqb_spec vif 0xB0) as [|_]; [contradiction|]. reflexivity. }
  split; intros Hlen; apply Hvif.
  - change (parse_by_dif 3 value)
      with (Some (VInt (if Z.land (le_signed value) (2 ^ (24 - 1)) =? 0
                        then le_signed value
                        else le_signed value - 2 ^ 24))).
    rewrite (sign_extended_twice value 24) by (try assumption; lia).
    reflexivity.
  - change (parse_by_dif 6 value)
      with (Some (VInt (if Z.land (le_signed value) (2 ^ (48 - 1)) =? 0
                        then le_signed value
                        else le_signed value - 2 ^ 48))).
    rewrite (sign_extended_twice value 48) by (try assumption; lia).
    reflexivity.
Qed.

Lemma int24_int48_sign_extended_twice_witness :
  _parse_value 0x03 0x13 [0xFF; 0xFF; 0xFF] = VInt (-16777217) /\
  _parse_value 0x06 0x13 [0x01; 0; 0; 0; 0; 0] = VInt 1.
Proof.
  assert (H3 : is_bytes [0xFF; 0xFF; 0xFF])
    by (unfold is_bytes, is_byte; repeat constructor; lia).
  assert (H6 : is_bytes [0x01; 0; 0; 0; 0; 0])
    by (unfold is_bytes, is_byte; repeat constructor; lia).
  split.
  - apply (int24_int48_sign_extended_twice [0xFF; 0xFF; 0xFF] 0x13 H3);
      [discriminate | discriminate | reflexivity].
  - apply (int24_int48_sign_extended_twice [0x01; 0; 0; 0; 0; 0] 0x13 H6);
      [discriminate | discriminate | reflexivity].
Defined.

(** Masking with a mask below [2^k] gives a value below [2^k]. *)
Lemma land_below (x mask k : Z) :
  0 <= k -> 0 <= mask < 2 ^ k -> 0 <= Z.land x mask < 2 ^ k.
Proof.
  intros Hk Hm.
  assert (Hnn : 0 <= Z.land x mask) by (apply Z.land_nonneg; right; lia).
  apply (Z.bounded_iff_bits_nonneg' k); [lia | exact Hnn |].
  intros l Hl. rewrite Z.land_spec.
  rewrite (proj1 (Z.bounded_iff_bits_nonneg' k mask Hk ltac:(lia)) Hm l Hl).
  apply andb_false_r.
Qed.

(** The fields [_parse_date] computes from two bytes or more. *)
Lemma parse_date_two_bytes (data : bytes) :
  (2 <= length data)%nat ->
  exists year month day valid,
    _parse_date data = VDate year month day valid /\
    2000 <= year <= 2015 /\ 0 <= month <= 15 /\ 0 <= day <= 31 /\
    (valid = true <-> 1 <= month <= 12 /\ 1 <= day).
Proof.
  intros Hlen. unfold _parse_date.
  destruct (Nat.ltb_spec (length data) 2) as [Hlt|_]; [lia|]. cbv zeta.
  set (day := Z.land (at_ data 0) 31).
  set (month := Z.lor (Z.land (at_ data 1) 15)
                      (Z.shiftr (Z.land (at_ data 0) 224) 5)).
  set (year := 2000 + Z.shiftr (Z.land (at_ data 1) 240) 4).
  assert (Hday : 0 <= day <= 31).
  { pose proof (land_below (at_ data 0) 31 5 ltac:(lia) ltac:(lia)) as H.
    change (2 ^ 5) with 32 in H. unfold day. lia. }
  assert (Hyear : 2000 <= year <= 2015).
  { unfold year.
    pose proof (land_below (at_ data 1) 240 8 ltac:(lia) ltac:(lia)) as H.
    change (2 ^ 8) with 256 in H.
    rewrite Z.shiftr_div_pow2 by lia. change (2 ^ 4) with 16.
    assert (0 <= Z.land (at_ data 1) 240 / 16 <= 15).
    { split; [apply Z.div_pos; lia|].
      apply Z.lt_succ_r, Z.div_lt_upper_bound; lia. }
    lia. }
  assert (Hmonth : 0 <= month <= 15).
  { unfold month.
    pose proof (land_below (at_ data 1) 15 4 ltac:(lia) ltac:(lia)) as Ha.
    pose proof (land_below (at_ data 0) 224 8 ltac:(lia) ltac:(lia)) as Hb.
    change (2 ^ 8) with 256 in Hb.
    assert (Hc : 0 <= Z.shiftr (Z.land (at_ data 0) 224) 5 < 2 ^ 4).
    { rewrite Z.shiftr_div_pow2 by lia. change (2 ^ 5) with 32.
      change (2 ^ 4) with 16.
      split; [apply Z.div_pos; lia|].
      apply Z.div_lt_upper_bound; lia. }
    assert (Hlt : 0 <= Z.lor (Z.land (at_ data 1) 15)
                         (Z.shiftr (Z.land (at_ data 0) 224) 5) < 2 ^ 4).
    { apply (Z.bounded_iff_bits_nonneg' 4); [lia | apply Z.lor_nonneg; lia |].
      intros l Hl. rewrite Z.lor_spec.
      rewrite (proj1 (Z.bounded_iff_bits_nonneg' 4 _ ltac:(lia) (proj1 Ha)) Ha l Hl).
      rewrite (proj1 (Z.bounded_iff_bits_nonneg' 4 _ ltac:(lia) (proj1 Hc)) Hc l Hl).
      reflexivity. }
    change (2 ^ 4) with 16 in Hlt. lia. }
  eexists year, month, day, _. split; [reflexivity|].
  split; [exact Hyear|]. split; [exact Hmonth|]. split; [exact Hday|].
  rewrite negb_true_iff, !orb_false_iff, !Z.ltb_ge. lia.
Qed.

(** The date of [data[:2]] is the date of [data]. *)
Lemma parse_date_take_2 (data : bytes) :
  (2 <= length data)%nat -> _parse_date (take 2 data) = _parse_date data.
Proof.
  intros Hlen. unfold _parse_date. rewrite length_take.
  replace (2 `min` length data)%nat with 2%nat by lia.
  destruct (Nat.ltb_spec (length data) 2) as [Hlt|_]; [lia|].
  change (2 <? 2)%nat with false. cbv iota.
  rewrite !at_take by lia. reflexivity.
Qed.

(** X7: the type-G date and the type-F date-time.  On fewer than two
    bytes [_parse_date] returns the text "Invalid date data"; on two
    bytes or more it returns a date whose year lies in [2000 .. 2015],
    month in [0 .. 15] and day in [0 .. 31], marked invalid exactly when
    the month is 0 or above 12, or the day is 0.  On fewer than four
    bytes [_parse_datetime] returns the text "Invalid datetime data"; on
    four bytes or more it returns the date of the first two bytes with
    an hour in [0 .. 31] and a minute in [0 .. 63], the time marked
    invalid exactly when the hour is above 23 or the minute above 59. *)
Theorem parse_date_fields (data : bytes) :
  ((length data < 2)%nat ->
   _parse_date data = VInvalidData "Invalid date data") /\
  ((2 <= length data)%nat ->
   exists year month day valid,
     _parse_date data = VDate year month day valid /\
     2000 <= year <= 2015 /\ 0 <= month <= 15 /\ 0 <= day <= 31 /\
     (valid = true <-> 1 <= month <= 12 /\ 1 <= day)) /\
  ((length data < 4)%nat ->
   _parse_datetime data = VInvalidData "Invalid datetime data") /\
  ((4 <= length data)%nat ->
   exists year month day valid hour minute time_valid,
     _parse_date data = VDate year month day valid /\
     _parse_datetime data
     = VDateTime year month day valid hour minute time_valid /\
     0 <= hour <= 31 /\ 0 <= minute <= 63 /\
     (time_valid = true <-> hour <= 23 /\ minute <= 59)).
Proof.
  split; [|split; [exact (parse_date_two_bytes data)|split]].
  - intros Hlen. unfold _parse_date.
    destruct (Nat.ltb_spec (length data) 2); [reflexivity | lia].
  - intros Hlen. unfold _parse_datetime.
    destruct (Nat.ltb_spec (length data) 4); [reflexivity | lia].
  - intros Hlen.
    destruct (parse_date_two_bytes data ltac:(lia))
      as (year & month & day & valid & Hdate & _).
    unfold _parse_datetime.
    destruct (Nat.ltb_spec (length data) 4) as [Hlt|_]; [lia|].
    rewrite parse_date_take_2 by lia. rewrite Hdate. cbv zeta.
    pose proof (land_below (at_ data 3) 31 5 ltac:(lia) ltac:(lia)) as Hh.
    pose proof (land_below (at_ data 2) 63 6 ltac:(lia) ltac:(lia)) as Hm.
    change (2 ^ 5) with 32 in Hh. change (2 ^ 6) with 64 in Hm.
    eexists year, month, day, valid, _, _, _.
    split; [reflexivity|]. split; [reflexivity|].
    split; [lia|]. split; [lia|].
    rewrite negb_true_iff, !orb_false_iff, !Z.ltb_ge. lia.
Qed.

(** The empty input, an input of three bytes, the date [BF 2C] and the
    date-time [1E 8A 1E 0A]. *)
Lemma parse_date_fields_witness :
  _parse_date [] = VInvalidData "Invalid date data" /\
  _parse_datetime [0x1E; 0x0A; 0xBF] = VInvalidData "Invalid datetime data" /\
  (exists year month day valid,
     _parse_date [0xBF; 0x2C] = VDate year month day valid /\
     2000 <= year <= 2015 /\ 0 <= month <= 15 /\ 0 <= day <= 31 /\
     (valid = true <-> 1 <= month <= 12 /\ 1 <= day)) /\
  _parse_datetime [0x1E; 0x8A; 0x1E; 0x0A] = VDateTime 2008 10 30 true 10 30 true.
Proof.
  split; [|split; [|split]].
  - apply (parse_date_fields []). simpl. lia.
  - apply (parse_date_fields [0x1E; 0x0A; 0xBF]). simpl. lia.
  - apply (parse_date_fields [0xBF; 0x2C]). simpl. lia.
  - reflexivity.
Defined.

End RecordValues.

(** ** Invariants of the record parser *)

Section RecordInvariants.
Import RecordParser.

(** What holds of every record a pass appends holds of every record the
    loop returns. *)
Lemma parse_loop_Forall (P : MBusDataRecord -> Prop) (data : bytes) :
  (forall i r i', (i < length data)%nat ->
     parse_record data i = Continue r i' -> P r) ->
  forall fuel i records passes rs ps,
    Forall P records ->
    parse_loop fuel data i records passes = Some (rs, ps) ->
    Forall P rs.
Proof.
  intros HP. induction fuel as [|fuel IH]; intros i records passes rs ps Hrec H.
  - discriminate.
  - cbn [parse_loop] in H.
    destruct (Nat.ltb_spec i (length data)) as [Hlt|Hge].
    + destruct (parse_record data i) as [r i'|] eqn:Er.
      * eapply IH; [|exact H]. apply Forall_app. split; [exact Hrec|].
        constructor; [|constructor]. eapply HP; eassumption.
      * injection H as <- _. exact Hrec.
    + injection H as <- _. exact Hrec.
Qed.

Lemma parse_data_records_Forall (P : MBusDataRecord -> Prop) (data : bytes)
    (records : list MBusDataRecord) :
  (forall i r i', (i < length data)%nat ->
     parse_record data i = Continue r i' -> P r) ->
  parse_data_records data = Some records ->
  Forall P records.
Proof.
  intros HP. unfold parse_data_records, parse_data_records_passes.
  destruct data as [|b data'].
  - intros [= <-]. constructor.
  - destruct (parse_loop _ _ 0 [] 0) as [[rs ps]|] eqn:E; [|discriminate].
    intros [= <-]. eapply parse_loop_Forall; [exact HP| |exact E]. constructor.
Qed.

Lemma pow2_4 (n : Z) : 0 <= n -> 16 ^ n = 2 ^ (4 * n).
Proof. intros Hn. rewrite Z.pow_mul_r by lia. reflexivity. Qed.

Lemma pow2_2 (n : Z) : 0 <= n -> 4 ^ n = 2 ^ (2 * n).
Proof. intros Hn. rewrite Z.pow_mul_r by lia. reflexivity. Qed.

(** Placing a [w]-bit group above [k] bits of accumulated value. *)
Lemma lor_group_bound (acc g k w : Z) :
  0 <= k -> 0 <= w ->
  0 <= acc < 2 ^ k -> 0 <= g < 2 ^ w ->
  0 <= Z.lor acc (Z.shiftl g k) < 2 ^ (k + w).
Proof.
  intros Hk Hw Hacc Hg.
  assert (Hs : 0 <= Z.shiftl g k) by (apply Z.shiftl_nonneg; lia).
  apply (Z.bounded_iff_bits_nonneg' (k + w)); [lia | apply Z.lor_nonneg; lia |].
  intros l Hl. rewrite Z.lor_spec, Z.shiftl_spec by lia.
  rewrite (proj1 (Z.bounded_iff_bits_nonneg' k acc Hk (proj1 Hacc)) Hacc l)
    by lia.
  rewrite (proj1 (Z.bounded_iff_bits_nonneg' w g Hw (proj1 Hg)) Hg (l - k))
    by lia.
  reflexivity.
Qed.

(** The DIFE loop keeps the storage number within four bits and the
    tariff within two bits per DIFE read, and the device bit a bit. *)
Lemma dife_loop_bounds (rest : bytes) :
  forall i db s t d i' db' s' t' d',
    0 <= s < 16 ^ Z.of_nat (length db) ->
    0 <= t < 4 ^ Z.of_nat (length db) ->
    (d = 0 \/ d = 1) ->
    dife_loop rest i db s t d = (i', db', s', t', d') ->
    0 <= s' < 16 ^ Z.of_nat (length db') /\
    0 <= t' < 4 ^ Z.of_nat (length db') /\
    (d' = 0 \/ d' = 1).
Proof.
  induction rest as [|dife rest IH]; intros i db s t d i' db' s' t' d' Hs Ht Hd H.
  - simpl in H. injection H as _ <- <- <- <-. auto.
  - cbn [dife_loop] in H. cbv zeta in H.
    rewrite length_app in H. cbn [length] in H.
    replace (Z.of_nat (length db + 1) - 1) with (Z.of_nat (length db)) in H by lia.
    set (n := Z.of_nat (length db)) in *.
    assert (Hn : 0 <= n) by (unfold n; lia).
    assert (Hs' : 0 <= Z.lor s (Z.shiftl (Z.land dife 15) (n * 4))
                     < 16 ^ Z.of_nat (length (db ++ [dife]))).
    { rewrite length_app. cbn [length].
      replace (Z.of_nat (length db + 1)) with (n + 1) by (unfold n; lia).
      rewrite pow2_4 by lia. replace (4 * (n + 1)) with (n * 4 + 4) by lia.
      apply lor_group_bound; try lia.
      - rewrite pow2_4 in Hs by lia. replace (n * 4) with (4 * n) by lia. exact Hs.
      - apply land_below; [lia | change (2 ^ 4) with 16; lia]. }
    assert (Ht' : 0 <= Z.lor t (Z.shiftl (Z.shiftr (Z.land dife 48) 4) (n * 2))
                     < 4 ^ Z.of_nat (length (db ++ [dife]))).
    { rewrite length_app. cbn [length].
      replace (Z.of_nat (length db + 1)) with (n + 1) by (unfold n; lia).
      rewrite pow2_2 by lia. replace (2 * (n + 1)) with (n * 2 + 2) by lia.
      apply lor_group_bound; try lia.
      - rewrite pow2_2 in Ht by lia. replace (n * 2) with (2 * n) by lia. exact Ht.
      - pose proof (land_below dife 48 6 ltac:(lia) ltac:(change (2^6) with 64; lia)) as Hm.
        change (2 ^ 6) with 64 in Hm.
        rewrite Z.shiftr_div_pow2 by lia. change (2 ^ 4) with 16.
        change (2 ^ 2) with 4.
        split; [apply Z.div_pos; lia | apply Z.div_lt_upper_bound; lia]. }
    assert (Hd' : (if Z.land dife 64 =? 0 then d else 1) = 0 \/
                  (if Z.land dife 64 =? 0 then d else 1) = 1).
    { destruct (Z.land dife 64 =? 0); [exact Hd | right; reflexivity]. }
    destruct (Z.land dife 128 =? 0).
    + injection H as _ <- <- <- <-. auto.
    + eapply IH; [exact Hs' | exact Ht' | exact Hd' | exact H].
Qed.

Lemma dife_loop_data (rest : bytes) :
  forall i db s t d i' db' s' t' d',
    dife_loop rest i db s t d = (i', db', s', t', d') ->
    (length db' = length db + (i' - i))%nat /\ (i <= i')%nat.
Proof.
  induction rest as [|dife rest IH]; intros i db s t d i' db' s' t' d' H.
  - simpl in H. injection H as <- <- _ _ _. lia.
  - cbn [dife_loop] in H. cbv zeta in H.
    destruct (Z.land dife 128 =? 0).
    + injection H as <- <- _ _ _. rewrite length_app. simpl. lia.
    + apply IH in H. rewrite length_app in H. simpl in H. lia.
Qed.

(** The fields of the record a pass appends. *)
Lemma parse_record_fields (data : bytes) (i : nat) (r : MBusDataRecord)
    (i' : nat) :
  parse_record data i = Continue r i' -> record_fields_ok r.
Proof.
  unfold parse_record. cbv zeta.
  destruct (if Z.land (at_ data i) 128 =? 0
            then (S i, [], 0, 0, 0)
            else dife_loop (drop (S i) data) (S i) [] 0 0 0)
    as [[[[i1 db] s] t] d] eqn:E1.
  assert (H1 : 0 <= s < 16 ^ Z.of_nat (length db) /\
               0 <= t < 4 ^ Z.of_nat (length db) /\ (d = 0 \/ d = 1)).
  { destruct (Z.land (at_ data i) 128 =? 0).
    - injection E1 as _ <- <- <- <-. simpl. lia.
    - eapply dife_loop_bounds; [| | |exact E1]; simpl; lia. }
  destruct (length data <=? i1)%nat; [discriminate|].
  destruct (if Z.land (at_ data i1) 128 =? 0
            then (S i1, [])
            else vife_loop (drop (S i1) data) (S i1) [])
    as [i2 vb].
  match goal with
  | |- (if ?c then _ else _) = _ -> _ => destruct c; [discriminate|]
  end.
  intros [= <- _]. unfold record_fields_ok.
  cbn [dif vif function subunit storage_number tariff dife_data].
  pose proof (land_below (at_ data i) 15 4 ltac:(lia) ltac:(change (2^4) with 16; lia)).
  pose proof (land_below (at_ data i1) 127 7 ltac:(lia) ltac:(change (2^7) with 128; lia)).
  pose proof (land_below (at_ data i) 48 6 ltac:(lia) ltac:(change (2^6) with 64; lia)) as Hf.
  change (2 ^ 4) with 16 in *. change (2 ^ 7) with 128 in *.
  change (2 ^ 6) with 64 in Hf.
  assert (0 <= Z.shiftr (Z.land (at_ data i) 48) 4 <= 3).
  { rewrite Z.shiftr_div_pow2 by lia. change (2 ^ 4) with 16.
    split; [apply Z.div_pos; lia|].
    apply Z.lt_succ_r, Z.div_lt_upper_bound; lia. }
  repeat split; try lia; tauto.
Qed.

(** X8: every record [parse_data_records] returns has its fields in
    range: data field at most [0x0F] (so never one of the BCD or
    [VARIABLE_LENGTH] codes [0x10 .. 0x17]), VIF at most [0x7F], function
    at most 3, device bit 0 or 1, and with [n] DIFE bytes a storage
    number below [16^n] and a tariff below [4^n]; a record without
    DIFE has storage number 0 and tariff 0. *)
Theorem parsed_records_fields_in_range (data : bytes)
    (records : list MBusDataRecord) :
  parse_data_records data = Some records ->
  Forall record_fields_ok records /\
  Forall (fun r => dife_data r = [] -> storage_number r = 0 /\ tariff r = 0)
    records.
Proof.
  intros H.
  assert (Hok : Forall record_fields_ok records).
  { eapply parse_data_records_Forall; [|exact H].
    intros i r i' _ Hr. eapply parse_record_fields, Hr. }
  split; [exact Hok|].
  eapply Forall_impl; [exact Hok|].
  intros r (_ & _ & _ & _ & Hs & Ht) Hnil. rewrite Hnil in Hs, Ht.
  simpl in Hs, Ht. lia.
Qed.

Lemma parsed_records_fields_in_range_witness :
  Forall record_fields_ok
    [mkRecord 0x04 0x13 [0x91; 0x17; 0x00; 0x00] 0x15 0x0A 1 0 [0xE5; 0x21] []] /\
  Forall (fun r => dife_data r = [] -> storage_number r = 0 /\ tariff r = 0)
    [mkRecord 0x04 0x13 [0x91; 0x17; 0x00; 0x00] 0x15 0x0A 1 0 [0xE5; 0x21] []].
Proof.
  apply (parsed_records_fields_in_range
           [0x84; 0xE5; 0x21; 0x13; 0x91; 0x17; 0x00; 0x00]).
  reflexivity.
Defined.

Lemma parse_loop_count (data : bytes) :
  forall fuel i records passes rs ps,
    (i <= length data)%nat ->
    parse_loop fuel data i records passes = Some (rs, ps) ->
    (2 * length rs + i <= 2 * length records + length data)%nat.
Proof.
  induction fuel as [|fuel IH]; intros i records passes rs ps Hi H.
  - discriminate.
  - cbn [parse_loop] in H.
    destruct (Nat.ltb_spec i (length data)) as [Hlt|Hge].
    + destruct (parse_record data i) as [r i'|] eqn:Er.
      * pose proof (parse_record_advances data i r i' Hlt Er) as Hadv.
        apply IH in H; [|lia]. rewrite length_app in H. simpl in H. lia.
      * injection H as <- _. lia.
    + injection H as <- _. lia.
Qed.

(** X9: every record takes at least two bytes of payload, so
    [parse_data_records] returns at most [len(data) / 2] records. *)
Theorem parsed_records_count (data : bytes) (records : list MBusDataRecord) :
  parse_data_records data = Some records ->
  (2 * length records <= length data)%nat.
Proof.
  unfold parse_data_records, parse_data_records_passes.
  destruct data as [|b data'].
  - intros [= <-]. simpl. lia.
  - destruct (parse_loop _ _ 0 [] 0) as [[rs ps]|] eqn:E; [|discriminate].
    intros [= <-]. apply parse_loop_count in E; [|lia]. simpl in E. simpl. lia.
Qed.

Lemma parsed_records_count_witness :
  let data := [0x01; 0x13; 0x05; 0x00; 0x93] in
  let records := [mkRecord 0x01 0x13 [0x05] 0 0 0 0 [] [];
                  mkRecord 0x00 0x13 [] 0 0 0 0 [] []] in
  (2 * length records <= length data)%nat.
Proof.
  apply (parsed_records_count [0x01; 0x13; 0x05; 0x00; 0x93]). reflexivity.
Defined.

Lemma get_data_length_nonneg (d : Z) : 0 <= _get_data_length d.
Proof.
  unfold _get_data_length.
  repeat match goal with
         | |- context [if ?c then _ else _] => destruct c; [lia|]
         end.
  lia.
Qed.

(** The value of the record a pass appends. *)
Lemma parse_record_value (data : bytes) (i : nat) (r : MBusDataRecord)
    (i' : nat) :
  is_bytes data ->
  parse_record data i = Continue r i' -> record_value_ok r.
Proof.
  intros Hd. unfold parse_record. cbv zeta.
  destruct (if Z.land (at_ data i) 128 =? 0
            then (S i, [], 0, 0, 0)
            else dife_loop (drop (S i) data) (S i) [] 0 0 0)
    as [[[[i1 db] s] t] d].
  destruct (length data <=? i1)%nat; [discriminate|].
  destruct (if Z.land (at_ data i1) 128 =? 0
            then (S i1, [])
            else vife_loop (drop (S i1) data) (S i1) [])
    as [i2 vb].
  pose proof (land_below (at_ data i) 15 4 ltac:(lia)
                ltac:(change (2^4) with 16; lia)) as Hdif.
  change (2 ^ 4) with 16 in Hdif.
  set (dv := Z.land (at_ data i) 15) in *.
  destruct (Z.eqb_spec dv 23) as [|_]; [lia|]. cbn [orb].
  destruct (Z.eqb_spec dv 11) as [H11|H11].
  - destruct (Nat.ltb_spec i2 (length data)) as [Hin|Hout].
    + pose proof (is_byte_at data i2 Hd) as Hb. unfold is_byte in Hb.
      destruct (Z.ltb_spec (Z.of_nat (length data)) (Z.of_nat i2 + (at_ data i2 + 1)))
        as [|Hfit]; [discriminate|].
      intros [= <- _]. unfold record_value_ok. cbn [dif value].
      rewrite H11. simpl Z.eqb. cbv iota.
      unfold slice.
      rewrite (drop_S data (at_ data i2) i2) by (apply at_lookup; exact Hin).
      replace (i2 + Z.to_nat (at_ data i2 + 1) - i2)%nat
        with (S (Z.to_nat (at_ data i2))) by lia.
      cbn [take]. rewrite length_take, length_drop. lia.
    + change (_get_data_length 11) with 1. rewrite H11.
      change (_get_data_length 11) with 1.
      destruct (Z.ltb_spec (Z.of_nat (length data)) (Z.of_nat i2 + 1))
        as [|Hfit]; [discriminate | lia].
  - pose proof (get_data_length_nonneg dv) as Hnn.
    destruct (Z.ltb_spec (Z.of_nat (length data)) (Z.of_nat i2 + _get_data_length dv))
      as [|Hfit]; [discriminate|].
    intros [= <- _]. unfold record_value_ok. cbn [dif value].
    destruct (Z.eqb_spec dv 11) as [|_]; [contradiction|].
    rewrite length_slice by lia. lia.
Qed.

(** X10: every record [parse_data_records] returns from a byte string
    carries a value of exactly the length its data field prescribes:
    the entry of the length table, and for the string field [0x0B] the
    length prefix byte followed by as many bytes as the prefix says.
    No record holds a shortened value. *)
Theorem parsed_records_value_length (data : bytes)
    (records : list MBusDataRecord) :
  is_bytes data ->
  parse_data_records data = Some records ->
  Forall record_value_ok records.
Proof.
  intros Hd H. eapply parse_data_records_Forall; [|exact H].
  intros i r i' _ Hr. eapply parse_record_value; eassumption.
Qed.

Lemma parsed_records_value_length_witness :
  Forall record_value_ok
    [mkRecord 0x0B 0x13 [0x02; 0x41; 0x42] 0 0 0 0 [] [];
     mkRecord 0x02 0x6C [0xBF; 0x2C] 0 0 0 0 [] []].
Proof.
  apply (parsed_records_value_length
           [0x0B; 0x13; 0x02; 0x41; 0x42; 0x02; 0x6C; 0xBF; 0x2C]).
  - unfold is_bytes, is_byte. repeat constructor; lia.
  - reflexivity.
Defined.

End RecordInvariants.

(** ** BCD fields in a payload *)

Section BcdFields.
Import DataRecord RecordParser TelegramData TelegramBlocks.

(** A data field other than the string field [0x0B] whose entry in the
    length table is 0 gets no value bytes. *)
Lemma parse_record_empty_value (data : bytes) (i : nat) (r : MBusDataRecord)
    (i' : nat) :
  parse_record data i = Continue r i' ->
  dif r <> 0x0B -> _get_data_length (dif r) = 0 -> value r = [].
Proof.
  unfold parse_record. cbv zeta.
  destruct (if Z.land (at_ data i) 128 =? 0
            then (S i, [], 0, 0, 0)
            else dife_loop (drop (S i) data) (S i) [] 0 0 0)
    as [[[[i1 db] s] t] d].
  destruct (length data <=? i1)%nat; [discriminate|].
  destruct (if Z.land (at_ data i1) 128 =? 0
            then (S i1, [])
            else vife_loop (drop (S i1) data) (S i1) [])
    as [i2 vb].
  pose proof (land_below (at_ data i) 15 4 ltac:(lia)
                ltac:(change (2^4) with 16; lia)) as Hdif.
  change (2 ^ 4) with 16 in Hdif.
  set (dv := Z.land (at_ data i) 15) in *.
  destruct (Z.eqb_spec dv 23) as [|_]; [lia|]. cbn [orb].
  destruct (Z.eqb_spec dv 11) as [H11|H11].
  - match goal with
    | |- (if ?c then _ else _) = _ -> _ => destruct c; [discriminate|]
    end.
    intros [= <- _]. cbn [dif]. contradiction.
  - destruct (Z.of_nat (length data) <? Z.of_nat i2 + _get_data_length dv);
      [discriminate|].
    intros [= <- _]. cbn [dif value]. intros _ ->.
    unfold slice. change (Z.to_nat 0) with 0%nat.
    rewrite Nat.add_0_r, Nat.sub_diag. reflexivity.
Qed.

(** An integer in a record with a data field of one nibble and a VIF of
    seven bits comes from one of the binary integer branches. *)
Lemma record_int_is_binary (r : MBusDataRecord) (n : Z) :
  record_fields_ok r -> parsed_value r = VInt n -> 1 <= dif r <= 7.
Proof.
  intros (Hdif & Hvif & _). unfold parsed_value, _parse_value.
  destruct (Z.eqb_spec (vif r) 0xA8); [lia|].
  destruct (Z.eqb_spec (vif r) 0xB0); [lia|]. cbn [andb].
  assert (Hd : 0 <= dif r < 16) by lia. revert Hd.
  generalize (value r) as v. generalize (dif r) as d.
  intros d v Hd. revert d Hd v.
  apply (nibble_cases (fun d => forall v, _ -> _)).
  intros k Hk v.
  do 16 (destruct k as [|k];
         [cbn [Z.of_nat Pos.of_succ_nat Pos.succ];
          first [lia
                | unfold parse_by_dif; cbn [Z.eqb Pos.eqb]; discriminate]|]).
  lia.
Qed.

(** C4 on the two parsers of a payload.  The bytes [78 56 34 12] are the
    reference encoding of 12345678, and [Telegram._decode_value] returns
    [n] on the reference encoding of every [n] in [0, 10^(2k) - 1] over
    [k] bytes.  In the payload [0A 13 78 56 34 12] the four bytes are
    the value of a volume record whose data field is a BCD code:
    [Telegram._parse_data_blocks] decodes them, least significant byte
    first, to 12345678; [parse_data_records] gives the record no
    value bytes, leaves its parsed value the empty hex text and reads
    [78 56 34] as a further record.  The two entry points that take a
    whole telegram differ in the same way on the wireless telegram that
    carries this payload: [Telegram.parse_data] reports the volume
    12345678 and [analyze_telegram] the two records.  On every payload,
    a record of [parse_data_records] with a data field in
    [0x09 .. 0x0E] other than the string field [0x0B] has no value
    bytes, and every integer a parsed record holds comes from a binary
    integer field ([1 .. 7]), never from the BCD branches of
    [_parse_value]. *)
Theorem bcd_field_not_decoded_by_record_parser :
  encode_bcd 12345678 4 = [0x78; 0x56; 0x34; 0x12] /\
  (forall (k : nat) (n : Z),
     0 <= n <= 10 ^ (2 * Z.of_nat k) - 1 ->
     _decode_value (encode_bcd n k) "bcd8" = VInt n) /\
  (exists blocks,
     _parse_data_blocks [0x0A; 0x13; 0x78; 0x56; 0x34; 0x12] = Some blocks /\
     blocks !! "volume"%string = Some (BlockValue (VInt 12345678))) /\
  parse_data_records [0x0A; 0x13; 0x78; 0x56; 0x34; 0x12]
  = Some [mkRecord 0x0A 0x13 [] 0 0 0 0 [] [];
          mkRecord 0x08 0x56 [0x34] 0 0 0 3 [] []] /\
  parsed_value (mkRecord 0x0A 0x13 [] 0 0 0 0 [] []) = VHex "" /\
  parsed_value (mkRecord 0x08 0x56 [0x34] 0 0 0 3 [] []) = VHex "34" /\
  (let telegram := [0x44; 0x00; 0x2D; 0x2C; 0x78; 0x56; 0x34; 0x12; 0x01;
                    0x07; 0x7A; 0x0A; 0x13; 0x78; 0x56; 0x34; 0x12] in
   (exists parsed,
      parse_data (TelegramOps.init telegram) = Some parsed /\
      pd_blocks parsed !! "volume"%string
      = Some (BlockValue (VInt 12345678))) /\
   a_valid (TelegramAnalysis.analyze_telegram telegram) = true /\
   a_records (TelegramAnalysis.analyze_telegram telegram)
   = [mkRecord 0x0A 0x13 [] 0 0 0 0 [] [];
      mkRecord 0x08 0x56 [0x34] 0 0 0 3 [] []]) /\
  forall data records,
    parse_data_records data = Some records ->
    Forall (fun r =>
              (9 <= dif r <= 0x0E -> dif r <> 0x0B ->
               value r = [] /\ parsed_value r = VHex "") /\
              (forall n, parsed_value r = VInt n -> 1 <= dif r <= 7))
      records.
Proof.
  split; [reflexivity|].
  split; [exact telegram_bcd_round_trip|].
  split; [eexists; split; vm_compute; reflexivity|].
  do 3 (split; [reflexivity|]).
  split.
  { cbv zeta. split; [eexists; split; vm_compute; reflexivity|].
    split; vm_compute; reflexivity. }
  intros data records. apply parse_data_records_Forall.
  intros i r i' _ Hr. split.
  - intros Hrange Hnot.
    assert (Hlen : _get_data_length (dif r) = 0).
    { assert (Hc : dif r = 9 \/ dif r = 10 \/ dif r = 12 \/ dif r = 13
                   \/ dif r = 14) by lia.
      destruct Hc as [-> | [-> | [-> | [-> | ->]]]]; reflexivity. }
    pose proof (parse_record_empty_value data i r i' Hr Hnot Hlen) as Hv.
    split; [exact Hv|].
    unfold parsed_value, _parse_value. rewrite Hv.
    assert (Hc : dif r = 9 \/ dif r = 10 \/ dif r = 12 \/ dif r = 13
                 \/ dif r = 14) by lia.
    destruct Hc as [-> | [-> | [-> | [-> | ->]]]];
      cbn [parse_by_dif Z.eqb Pos.eqb length Nat.leb andb];
      rewrite !andb_false_r; reflexivity.
  - intros n. apply record_int_is_binary.
    exact (parse_record_fields data i r i' Hr).
Qed.

End BcdFields.

(** ** Error detection of the CRC *)

Section CrcDetection.
Import MBusProtocol.

(** A property of the 256 byte values, checked on each. *)
Lemma byte_cases (P : Z -> Prop) :
  (forall k : nat, (k < 256)%nat -> P (Z.of_nat k)) ->
  forall b, is_byte b -> P b.
Proof.
  intros HP b Hb. unfold is_byte in Hb.
  rewrite <- (Z2Nat.id b) by lia. apply HP. lia.
Qed.

Lemma crc_round_inv_round (b : Z) :
  is_byte b -> crc_round_inv (crc_round b) = b.
Proof.
  revert b. apply byte_cases. intros k Hk.
  assert (Hall : forallb (fun k => crc_round_inv (crc_round (Z.of_nat k))
                                   =? Z.of_nat k) (seq 0 256) = true)
    by (vm_compute; reflexivity).
  rewrite forallb_forall in Hall.
  apply Z.eqb_eq, Hall, in_seq. lia.
Qed.

Lemma crc_round_injective (a b : Z) :
  is_byte a -> is_byte b -> crc_round a = crc_round b -> a = b.
Proof.
  intros Ha Hb H.
  rewrite <- (crc_round_inv_round a Ha), <- (crc_round_inv_round b Hb), H.
  reflexivity.
Qed.

Lemma crc_rounds_injective (n : nat) (a b : Z) :
  is_byte a -> is_byte b ->
  Nat.iter n crc_round a = Nat.iter n crc_round b -> a = b.
Proof.
  intros Ha Hb. induction n as [|n IH]; simpl; [auto|].
  intros H. apply IH. apply crc_round_injective; [| |exact H];
    apply crc_rounds_byte; assumption.
Qed.

Lemma lxor_cancel_l (c x y : Z) : Z.lxor c x = Z.lxor c y -> x = y.
Proof.
  intros H. apply (f_equal (Z.lxor c)) in H.
  rewrite <- !Z.lxor_assoc, Z.lxor_nilpotent, !Z.lxor_0_l in H. exact H.
Qed.

Lemma lxor_cancel_r (c d x : Z) : Z.lxor c x = Z.lxor d x -> c = d.
Proof.
  rewrite (Z.lxor_comm c), (Z.lxor_comm d). apply lxor_cancel_l.
Qed.

(** The step of the CRC is injective in the data byte and in the
    accumulator. *)
Lemma crc_byte_injective_data (c x y : Z) :
  is_byte c -> is_byte x -> is_byte y ->
  crc_byte c x = crc_byte c y -> x = y.
Proof.
  intros Hc Hx Hy H. unfold crc_byte in H.
  apply crc_rounds_injective in H; [|apply is_byte_lxor; assumption..].
  eapply lxor_cancel_l, H.
Qed.

Lemma crc_byte_injective_acc (c d x : Z) :
  is_byte c -> is_byte d -> is_byte x ->
  crc_byte c x = crc_byte d x -> c = d.
Proof.
  intros Hc Hd Hx H. unfold crc_byte in H.
  apply crc_rounds_injective in H; [|apply is_byte_lxor; assumption..].
  eapply lxor_cancel_r, H.
Qed.

Lemma fold_crc_injective_acc (s : bytes) :
  forall c d, is_byte c -> is_byte d -> is_bytes s ->
    fold_left crc_byte s c = fold_left crc_byte s d -> c = d.
Proof.
  induction s as [|x s IH]; intros c d Hc Hd Hs H; simpl in H.
  - exact H.
  - inversion Hs; subst.
    apply IH in H; [|apply crc_byte_byte; assumption..|assumption].
    eapply crc_byte_injective_acc; eassumption.
Qed.

(** X11: the CRC detects every single-byte error.  Two byte strings
    that differ in exactly one position have different CRCs; hence when
    [check_crc] accepts a buffer, it rejects every buffer obtained from
    it by changing one byte before the checksum byte. *)
Theorem crc_detects_single_byte_error (p s : bytes) (x y c : Z) :
  is_bytes p -> is_bytes s -> is_byte x -> is_byte y -> x <> y ->
  calculate_crc (p ++ x :: s) <> calculate_crc (p ++ y :: s) /\
  (check_crc (p ++ x :: s ++ [c]) = true ->
   check_crc (p ++ y :: s ++ [c]) = false).
Proof.
  intros Hp Hs Hx Hy Hxy.
  assert (Hne : calculate_crc (p ++ x :: s) <> calculate_crc (p ++ y :: s)).
  { unfold calculate_crc. rewrite !fold_left_app. simpl. intros H.
    pose proof (fold_crc_byte p 0 ltac:(unfold is_byte; lia) Hp) as Hc.
    apply fold_crc_injective_acc in H;
      [|apply crc_byte_byte; assumption..|assumption].
    apply crc_byte_injective_data in H; try assumption. contradiction. }
  split; [exact Hne|].
  assert (Hshape : forall z,
            check_crc (p ++ z :: s ++ [c]) = true ->
            calculate_crc (p ++ z :: s) = c).
  { intros z Hz. apply check_crc_true in Hz. destruct Hz as [_ Hz].
    replace (p ++ z :: s ++ [c]) with ((p ++ z :: s) ++ [c]) in Hz
      by (rewrite <- app_assoc; reflexivity).
    rewrite length_app in Hz. simpl length in Hz.
    replace (length (p ++ z :: s) + 1 - 1)%nat with (length (p ++ z :: s)) in Hz
      by lia.
    rewrite take_app_length in Hz. rewrite Hz.
    unfold at_. rewrite lookup_app_r by lia.
    rewrite Nat.sub_diag. reflexivity. }
  intros Hacc. apply Hshape in Hacc.
  destruct (check_crc (p ++ y :: s ++ [c])) eqn:E; [|reflexivity].
  apply Hshape in E. congruence.
Qed.

Lemma crc_detects_single_byte_error_witness :
  calculate_crc ([0x10] ++ 0x40 :: [0x05]) <> calculate_crc ([0x10] ++ 0x41 :: [0x05]) /\
  (check_crc ([0x10] ++ 0x40 :: [0x05] ++ [0xEE]) = true ->
   check_crc ([0x10] ++ 0x41 :: [0x05] ++ [0xEE]) = false).
Proof.
  apply (crc_detects_single_byte_error [0x10] [0x05] 0x40 0x41 0xEE);
    unfold is_bytes, is_byte; try (repeat constructor; lia); lia.
Defined.

End CrcDetection.

(** ** Manufacturer letters, the other way round *)

Section ManufacturerLetters.
Import MBusProtocol.

Lemma chr_ord (c : ascii) : chr (ord c) = c.
Proof. unfold chr, ord. rewrite N2Z.id. apply ascii_N_embedding. Qed.

Lemma testbit_below (x k l : Z) :
  0 <= k -> 0 <= x < 2 ^ k -> k <= l -> Z.testbit x l = false.
Proof.
  intros Hk Hx Hl.
  exact (proj1 (Z.bounded_iff_bits_nonneg' k x Hk (proj1 Hx)) Hx l Hl).
Qed.

(** Unpacking three 5-bit groups that were packed as 5+5+5. *)
Lemma unpack_groups (a b c : Z) :
  0 <= a < 32 -> 0 <= b < 32 -> 0 <= c < 32 ->
  let code := Z.lor (Z.lor (Z.shiftl a 10) (Z.shiftl b 5)) c in
  Z.land (Z.shiftr code 10) 0x1F = a /\
  Z.land (Z.shiftr code 5) 0x1F = b /\
  Z.land code 0x1F = c.
Proof.
  intros Ha Hb Hc code. change 0x1F with (Z.ones 5).
  assert (Hbit : forall x, 0 <= x < 32 -> forall l, 5 <= l -> Z.testbit x l = false).
  { intros x Hx l Hl. apply (testbit_below x 5); [lia | change (2^5) with 32; lia | lia]. }
  repeat split; apply Z.bits_inj'; intros n Hn; unfold code;
    rewrite Z.land_spec, ?Z.shiftr_spec, !Z.lor_spec, !Z.shiftl_spec by lia;
    destruct (Z.lt_ge_cases n 5) as [H5|H5].
  - rewrite Z.ones_spec_low by lia.
    replace (n + 10 - 10) with n by lia.
    rewrite (Hbit b Hb (n + 10 - 5)), (Hbit c Hc (n + 10)) by lia.
    rewrite !orb_false_r. apply andb_true_r.
  - rewrite Z.ones_spec_high by lia. rewrite (Hbit a Ha n) by lia.
    apply andb_false_r.
  - rewrite Z.ones_spec_low by lia.
    replace (n + 5 - 5) with n by lia.
    rewrite (Z.testbit_neg_r a (n + 5 - 10)), (Hbit c Hc (n + 5)) by lia.
    rewrite orb_false_r. simpl. apply andb_true_r.
  - rewrite Z.ones_spec_high by lia. rewrite (Hbit b Hb n) by lia.
    apply andb_false_r.
  - rewrite Z.ones_spec_low by lia.
    rewrite (Z.testbit_neg_r a (n - 10)), (Z.testbit_neg_r b (n - 5)) by lia.
    simpl. apply andb_true_r.
  - rewrite Z.ones_spec_high by lia. rewrite (Hbit c Hc n) by lia.
    apply andb_false_r.
Qed.

(** The code of three letters with codes in [64 .. 95] fits 15 bits. *)
Lemma packed_groups_range (a b c : Z) :
  0 <= a < 32 -> 0 <= b < 32 -> 0 <= c < 32 ->
  0 <= Z.lor (Z.lor (Z.shiftl a 10) (Z.shiftl b 5)) c < 2 ^ 15.
Proof.
  intros Ha Hb Hc.
  assert (Hsa : 0 <= Z.shiftl a 10) by (apply Z.shiftl_nonneg; lia).
  assert (Hsb : 0 <= Z.shiftl b 5) by (apply Z.shiftl_nonneg; lia).
  assert (Hnn : 0 <= Z.lor (Z.lor (Z.shiftl a 10) (Z.shiftl b 5)) c).
  { apply Z.lor_nonneg. split; [apply Z.lor_nonneg; split; assumption | lia]. }
  apply (Z.bounded_iff_bits_nonneg' 15); [lia | exact Hnn |].
  intros l Hl. rewrite !Z.lor_spec, !Z.shiftl_spec by lia.
  rewrite (testbit_below a 5 (l - 10)), (testbit_below b 5 (l - 5)),
    (testbit_below c 5 l) by (change (2 ^ 5) with 32; lia).
  reflexivity.
Qed.

(** X12: [decode_manufacturer] undoes [encode_manufacturer] on every
    three-character string whose characters have codes 64 to 95 (['@'],
    the letters, and the four signs up to ['_']), and the code such a
    string packs to is below [0x8000]. *)
Theorem decode_encode_manufacturer (s : string) (code : Z) :
  String.length s = 3%nat ->
  forallb (fun c => (64 <=? ord c) && (ord c <=? 95)) (chars s) = true ->
  encode_manufacturer s = Some code ->
  decode_manufacturer code = s /\ 0 <= code < 0x8000.
Proof.
  intros Hlen Hrange.
  destruct s as [|c1 [|c2 [|c3 [|]]]]; try discriminate. clear Hlen.
  simpl in Hrange. rewrite !andb_true_iff, !Z.leb_le in Hrange.
  unfold encode_manufacturer. cbv zeta. intros [= <-].
  assert (H1 : 0 <= ord c1 - 64 < 32) by lia.
  assert (H2 : 0 <= ord c2 - 64 < 32) by lia.
  assert (H3 : 0 <= ord c3 - 64 < 32) by lia.
  split; [|apply packed_groups_range; assumption].
  unfold decode_manufacturer. cbv zeta.
  destruct (unpack_groups _ _ _ H1 H2 H3) as (-> & -> & ->).
  replace (ord c1 - 64 + 64) with (ord c1) by lia.
  replace (ord c2 - 64 + 64) with (ord c2) by lia.
  replace (ord c3 - 64 + 64) with (ord c3) by lia.
  rewrite !chr_ord. reflexivity.
Qed.

Lemma decode_encode_manufacturer_witness :
  decode_manufacturer 0x2C2D = "KAM"%string /\ 0 <= 0x2C2D < 0x8000.
Proof.
  apply (decode_encode_manufacturer "KAM" 0x2C2D); reflexivity.
Defined.

End ManufacturerLetters.

(** ** The two header parsers *)

Section HeaderAgreement.
Import MBusProtocol MBusFrameOps.

(** A 16-bit little-endian field read with shift-and-or and with
    [struct.unpack("<H")] is the same number. *)
Lemma lor_shiftl_8 (lo hi : Z) :
  is_byte lo -> Z.lor (Z.shiftl hi 8) lo = lo + 256 * hi.
Proof.
  intros Hlo. unfold is_byte in Hlo.
  assert (Hdisj : Z.land (Z.shiftl hi 8) lo = 0).
  { apply Z.bits_inj'. intros n Hn. rewrite Z.land_spec, Z.bits_0.
    destruct (Z.lt_ge_cases n 8) as [H8|H8].
    - rewrite Z.shiftl_spec, Z.testbit_neg_r by lia. reflexivity.
    - rewrite (testbit_below lo 8 n) by (change (2 ^ 8) with 256; lia).
      apply andb_false_r. }
  rewrite <- Z.lxor_lor, <- Z.add_nocarry_lxor by exact Hdisj.
  rewrite Z.shiftl_mul_pow2 by lia. change (2 ^ 8) with 256. lia.
Qed.

(** X13: on every buffer that [MBusFrame.parse] accepts as a wireless
    frame, [Telegram] builds a header, and the two agree on length,
    control, manufacturer, identification, version and device type, and
    on whether the frame is encrypted. *)
Theorem wireless_frame_matches_header (data : bytes) :
  is_bytes data ->
  (10 <= length data)%nat ->
  0x44 <= at_ data 0 <= 0x4F ->
  exists f h,
    parse data = Some f /\
    header (TelegramOps.init data) = Some h /\
    frame_type f = WMBUS_APL /\
    frame_length f = hdr_length h /\
    frame_control f = hdr_control h /\
    frame_manufacturer f = Some (manufacturer h) /\
    frame_identification f = Some (meter_id h) /\
    frame_version f = Some (version h) /\
    frame_device_type f = Some (meter_type h) /\
    frame_is_encrypted f = is_encrypted h.
Proof.
  intros Hd Hlen H0.
  assert (Hp : parse data = parse_wmbus data).
  { unfold parse.
    destruct (Nat.ltb_spec (length data) 1); [lia|].
    destruct (Nat.eqb_spec (length data) 1); [lia|]. cbn [andb].
    destruct (Nat.ltb_spec (length data) 5); [lia|].
    destruct (Z.eqb_spec (at_ data 0) 0x10); [lia|].
    destruct (Z.eqb_spec (at_ data 0) 0x68); [lia|].
    destruct (Z.leb_spec 0x44 (at_ data 0)); [|lia].
    destruct (Z.leb_spec (at_ data 0) 0x4F); [|lia]. reflexivity. }
  rewrite Hp. unfold parse_wmbus, TelegramOps.init, TelegramOps._parse_header.
  destruct data as [|b data']; [simpl in Hlen; lia|].
  cbn [header].
  destruct (Nat.ltb_spec (length (b :: data')) 10); [lia|].
  eexists. eexists. split; [reflexivity|]. split; [reflexivity|].
  cbn [frame_type frame_length frame_control frame_manufacturer
       frame_identification frame_version frame_device_type
       TelegramHeader_init hdr_length hdr_control manufacturer meter_id
       version meter_type is_encrypted frame_is_encrypted].
  rewrite lor_shiftl_8 by (apply is_byte_at; exact Hd).
  repeat split; reflexivity.
Qed.

Lemma wireless_frame_matches_header_witness :
  exists f h,
    parse [0x44; 0x44; 0x93; 0x44; 0x48; 0x36; 0x35; 0x12; 0x18; 0x06; 0x7A]
      = Some f /\
    header (TelegramOps.init
              [0x44; 0x44; 0x93; 0x44; 0x48; 0x36; 0x35; 0x12; 0x18; 0x06; 0x7A])
      = Some h /\
    frame_type f = WMBUS_APL /\
    frame_length f = hdr_length h /\
    frame_control f = hdr_control h /\
    frame_manufacturer f = Some (manufacturer h) /\
    frame_identification f = Some (meter_id h) /\
    frame_version f = Some (version h) /\
    frame_device_type f = Some (meter_type h) /\
    frame_is_encrypted f = is_encrypted h.
Proof.
  apply (wireless_frame_matches_header
           [0x44; 0x44; 0x93; 0x44; 0x48; 0x36; 0x35; 0x12; 0x18; 0x06; 0x7A]).
  - unfold is_bytes, is_byte. repeat constructor; lia.
  - simpl. lia.
  - unfold at_. simpl. lia.
Defined.

End HeaderAgreement.

(** ** Unsigned values of the telegram façade *)

Section TelegramValues.
Import TelegramData.

Lemma shift_loop_nonneg (data : bytes) :
  forall i acc, is_bytes data -> 0 <= acc -> 0 <= shift_loop data i acc.
Proof.
  induction data as [|b data IH]; intros i acc Hd Hacc; simpl.
  - exact Hacc.
  - inversion Hd as [|? ? Hb Hrest]; subst. unfold is_byte in Hb.
    apply IH; [exact Hrest|].
    assert (0 <= Z.shiftl b (Z.of_nat i * 8)) by (apply Z.shiftl_nonneg; lia).
    lia.
Qed.

Lemma bcd_loop_nonneg (data : bytes) :
  forall i acc, 0 <= acc -> 0 <= bcd_loop data i acc.
Proof.
  induction data as [|b data IH]; intros i acc Hacc; simpl.
  - exact Hacc.
  - apply IH.
    pose proof (nibble_range (Z.shiftr b 4)).
    pose proof (nibble_range b).
    assert (0 <= 10 ^ (Z.of_nat i * 2 + 1)) by (apply Z.pow_nonneg; lia).
    assert (0 <= 10 ^ (Z.of_nat i * 2)) by (apply Z.pow_nonneg; lia).
    nia.
Qed.

Lemma unpack_unsigned_nonneg (n : nat) (data : bytes) (v : Z) :
  is_bytes data -> unpack_unsigned n data = Some v -> 0 <= v.
Proof.
  intros Hd. unfold unpack_unsigned.
  destruct (length data =? n)%nat; [|discriminate].
  intros [= <-]. apply le_unsigned_range, Hd.
Qed.

(** X14: [Telegram._decode_value] has no signed reading.  For every
    byte string and every type name, an integer it returns is
    non-negative. *)
Theorem telegram_values_never_negative (data : bytes) (data_type : string)
    (n : Z) :
  is_bytes data ->
  _decode_value data data_type = VInt n ->
  0 <= n.
Proof.
  intros Hd. unfold _decode_value. cbv zeta.
  assert (Hun : forall k, default (VHex (hex data)) (VInt <$> unpack_unsigned k data)
                          = VInt n -> 0 <= n).
  { intros k. destruct (unpack_unsigned k data) as [v|] eqn:E; simpl.
    - intros [= <-]. eapply unpack_unsigned_nonneg; eassumption.
    - discriminate. }
  repeat match goal with
         | |- (if (length _ =? _)%nat then _ else _) = _ -> _ =>
             destruct (length data =? _)%nat; discriminate
         | |- (if ?c then _ else _) = _ -> _ => destruct c
         end;
    try discriminate; try (apply Hun);
    intros [= <-];
    first [apply shift_loop_nonneg; [exact Hd | lia]
          | apply bcd_loop_nonneg; lia].
Qed.

Lemma telegram_values_never_negative_witness : 0 <= 16777215.
Proof.
  apply (telegram_values_never_negative [0xFF; 0xFF; 0xFF] "int24" 16777215).
  - unfold is_bytes, is_byte. repeat constructor; lia.
  - reflexivity.
Defined.

End TelegramValues.

(** ** What decryption leaves alone *)

Section DecryptInvariants.

Variable lib : AesLibrary.

(** X15: [Telegram.decrypt] never touches the header object or the
    first ten bytes.  For a telegram built from any buffer and any key,
    the header afterwards is the header before, the first ten bytes are
    unchanged, and parsing the header again from the new bytes gives
    the same header; in particular a decrypted telegram is still marked
    encrypted. *)
Theorem decrypt_keeps_header (raw : bytes) (key : string) :
  let t := TelegramOps.init raw in
  let t' := snd (decrypt lib t key) in
  header t' = header t /\
  take 10 (raw_data t') = take 10 raw /\
  header (TelegramOps.init (raw_data t')) = header t /\
  marked_encrypted t' = marked_encrypted t.
Proof.
  intros t t'.
  assert (Hh : header t' = header t).
  { unfold t', decrypt. destruct (header t) as [h|] eqn:E; [|exact E].
    destruct (is_encrypted h); simpl; [|exact E].
    destruct (String.eqb key EmptyString); [exact E|].
    destruct (decrypt_aes_cbc lib _ _ _ _); [reflexivity | exact E]. }
  assert (Hcases : raw_data t' = raw \/
                   (exists p, raw_data t' = take 10 raw ++ p /\
                              (10 <= length raw)%nat)).
  { unfold t', decrypt. destruct (header t) as [h|] eqn:E; [|left; reflexivity].
    destruct (is_encrypted h); simpl; [|left; reflexivity].
    destruct (String.eqb key EmptyString); [left; reflexivity|].
    destruct (decrypt_aes_cbc lib _ _ _ _) as [p|]; [|left; reflexivity].
    right. exists p. split; [reflexivity|].
    apply telegram_header_iff. fold t. rewrite E. eexists. reflexivity. }
  assert (Htake : take 10 (raw_data t') = take 10 raw).
  { destruct Hcases as [->|(p & -> & Hlen)]; [reflexivity|].
    rewrite take_app_le by (rewrite length_take; lia).
    rewrite take_take. reflexivity. }
  split; [exact Hh|]. split; [exact Htake|].
  split; [|unfold marked_encrypted; rewrite Hh; reflexivity].
  destruct Hcases as [->|(p & Hp & Hlen)]; [reflexivity|].
  rewrite Hp. unfold t.
  assert (Hshape : forall d, (10 <= length d)%nat ->
            header (TelegramOps.init d)
            = TelegramOps._parse_header (take 10 d)).
  { intros d Hd.
    do 10 (destruct d as [|? d]; [simpl in Hd; lia|]). reflexivity. }
  rewrite (Hshape raw Hlen).
  rewrite Hshape by (rewrite length_app, length_take; lia).
  rewrite take_app_le by (rewrite length_take; lia).
  rewrite take_take. reflexivity.
Qed.

End DecryptInvariants.

(** ** Encoding and parsing frames *)

Section FrameRoundTrip.
Import MBusProtocol MBusFrameOps MBusFrameEncode.

Lemma bytes_of_Some (l : list Z) : is_bytes l -> bytes_of l = Some l.
Proof.
  intros Hl. unfold bytes_of.
  replace (forallb _ l) with true; [reflexivity|].
  symmetry. apply forallb_forall. intros x Hx.
  unfold is_bytes in Hl. rewrite Forall_forall in Hl.
  assert (Hin : x ∈ l) by (apply list_elem_of_In; exact Hx).
  specialize (Hl x Hin). unfold is_byte in Hl.
  apply andb_true_intro. split; [apply Z.leb_le | apply Z.ltb_lt]; lia.
Qed.

(** A wired long or control frame laid out as [encode] writes it is
    read back by [parse] field by field. *)
Lemma parse_wired_layout (c a ci : Z) (data : bytes) :
  let len := Z.of_nat (length data) + 3 in
  let crc := calculate_crc (c :: a :: ci :: data) in
  parse (0x68 :: len :: len :: 0x68 :: c :: a :: ci :: data ++ [crc; 0x16])
  = Some (mkFrame (if len =? 3 then CONTROL else LONG) len c a ci data crc
            None None None None).
Proof.
  intros len crc.
  set (out := 0x68 :: len :: len :: 0x68 :: c :: a :: ci :: data ++ [crc; 0x16]).
  assert (Hlen : length out = (length data + 9)%nat).
  { unfold out. cbn [length]. rewrite length_app. cbn [length]. lia. }
  assert (Hl : Z.to_nat len = (length data + 3)%nat) by (unfold len; lia).
  unfold parse. rewrite Hlen.
  destruct (Nat.ltb_spec (length data + 9) 1); [lia|].
  destruct (Nat.eqb_spec (length data + 9) 1); [lia|]. cbn [andb].
  destruct (Nat.ltb_spec (length data + 9) 5); [lia|].
  change (at_ out 0) with 0x68. cbn [Z.eqb Pos.eqb].
  unfold parse_long. rewrite Hlen.
  destruct (Nat.ltb_spec (length data + 9) 9); [lia|].
  change (at_ out 1) with len. change (at_ out 2) with len.
  change (at_ out 3) with 0x68. change (at_ out 4) with c.
  change (at_ out 5) with a. change (at_ out 6) with ci.
  rewrite Z.eqb_refl. cbn [negb Z.eqb Pos.eqb].
  destruct (Z.ltb_spec (Z.of_nat (length data + 9)) (len + 6)); [unfold len in *; lia|].
  rewrite Hl.
  assert (Hbody : slice 4 (7 + (length data + 3) - 2) out
                  = (c :: a :: ci :: data) ++ [crc]).
  { unfold slice, out.
    replace (7 + (length data + 3) - 2 - 4)%nat with (S (S (S (S (length data))))) by lia.
    cbn [drop take app].
    do 3 f_equal. replace (S (length data)) with (length data + 1)%nat by lia.
    rewrite take_app_add. reflexivity. }
  rewrite Hbody.
  assert (Hcrc : check_crc ((c :: a :: ci :: data) ++ [crc]) = true).
  { apply check_crc_true. rewrite length_app. cbn [length]. split; [lia|].
    replace (S (S (S (length data))) + 1 - 1)%nat with (length (c :: a :: ci :: data))
      by (cbn [length]; lia).
    rewrite take_app_length. unfold at_.
    rewrite lookup_app_r by lia. rewrite Nat.sub_diag. reflexivity. }
  rewrite Hcrc. cbn [negb].
  assert (Hdata : slice 7 (7 + (length data + 3) - 3) out = data).
  { unfold slice, out.
    replace (7 + (length data + 3) - 3 - 7)%nat with (length data) by lia.
    cbn [drop]. rewrite drop_0, take_app_length. reflexivity. }
  rewrite Hdata.
  assert (Hsum : at_ out (7 + (length data + 3) - 3) = crc).
  { unfold at_.
    change out with (([0x68; len; len; 0x68; c; a; ci] ++ data) ++ [crc; 0x16]).
    rewrite lookup_app_r by (rewrite length_app; cbn [length]; lia).
    rewrite length_app. cbn [length].
    replace (7 + (length data + 3) - 3 - (7 + length data))%nat with 0%nat by lia.
    reflexivity. }
  rewrite Hsum. reflexivity.
Qed.


Ltac byte_list :=
  unfold is_bytes;
  repeat first
    [ apply Forall_nil_2
    | apply Forall_cons_2; [first [assumption | unfold is_byte; lia]|] ].

Lemma encode_wired_Some (f : MBusFrame) (len : Z) (data : bytes) :
  is_byte len -> is_byte (frame_control f) -> is_byte (frame_address f) ->
  is_byte (control_information f) -> is_bytes data ->
  encode_wired f len data
  = Some (0x68 :: len :: len :: 0x68 :: frame_control f :: frame_address f
            :: control_information f
            :: data ++ [calculate_crc (frame_control f :: frame_address f
                                         :: control_information f :: data);
                        0x16],
          mkFrame (frame_type f) len (frame_control f) (frame_address f)
            (control_information f) (frame_data f) (frame_checksum f)
            (frame_manufacturer f) (frame_identification f)
            (frame_version f) (frame_device_type f)).
Proof.
  intros Hl Hc Ha Hci Hd. unfold encode_wired.
  assert (H16 : is_byte 0x16) by (unfold is_byte; lia).
  assert (H68 : is_byte 0x68) by (unfold is_byte; lia).
  rewrite (bytes_of_Some [0x68; len; len; 0x68]) by byte_list.
  rewrite (bytes_of_Some [frame_control f; frame_address f; control_information f])
    by byte_list.
  cbn [mbind option_bind].
  rewrite bytes_of_Some.
  - reflexivity.
  - apply Forall_cons_2; [|byte_list].
    apply calculate_crc_byte.
    apply (is_bytes_app [frame_control f; frame_address f; control_information f]);
      [byte_list | exact Hd].
Qed.

Lemma short_tail (g : list Z -> Z) (l : list Z) (f : MBusFrame) :
  is_bytes l -> is_byte (g l) ->
  (frame ← bytes_of l;
   let crc := g frame in
   tail ← bytes_of [crc; 0x16];
   Some (frame ++ tail, f))
  = Some (l ++ [g l; 0x16], f).
Proof.
  intros Hl Hg. rewrite (bytes_of_Some l Hl). cbn [mbind option_bind].
  rewrite bytes_of_Some; [reflexivity|].
  assert (H16 : is_byte 0x16) by (unfold is_byte; lia). byte_list.
Qed.

(** What [encode] returns for a short frame. *)
Lemma encode_short_Some (f : MBusFrame) :
  frame_type f = SHORT ->
  is_byte (frame_control f) -> is_byte (frame_address f) ->
  encode f = Some ([0x10; frame_control f; frame_address f;
                    calculate_crc [0x10; frame_control f; frame_address f];
                    0x16], f).
Proof.
  intros Hty Hc Ha.
  assert (H10 : is_byte 0x10) by (unfold is_byte; lia).
  unfold encode. rewrite Hty.
  apply (short_tail calculate_crc [0x10; frame_control f; frame_address f] f).
  - byte_list.
  - apply calculate_crc_byte. byte_list.
Qed.

(** X16: encoding a wired frame and parsing the bytes gives the frame
    back.  For a [SHORT], [CONTROL] or [LONG] frame whose control,
    address and CI fields are bytes and whose data has at most 252
    bytes, [encode] returns a buffer that [parse] accepts; the parsed
    frame carries the same control and address (and CI and data for the
    long form), the length [encode] stored and the CRC [encode] wrote.
    A [CONTROL] frame comes back without its data, and a [LONG] frame
    with empty data comes back as a [CONTROL] frame. *)
Theorem wired_encode_parse (f : MBusFrame) :
  let c := frame_control f in
  let a := frame_address f in
  let ci := control_information f in
  let n := Z.of_nat (length (frame_data f)) in
  is_byte c -> is_byte a -> is_byte ci ->
  is_bytes (frame_data f) -> n <= 252 ->
  (frame_type f = SHORT ->
     exists out, encode f = Some (out, f) /\
       parse out = Some (mkFrame SHORT 0 c a 0 [] (calculate_crc [0x10; c; a])
                           None None None None)) /\
  (frame_type f = CONTROL ->
     exists out f', encode f = Some (out, f') /\ frame_length f' = 3 /\
       parse out = Some (mkFrame CONTROL 3 c a ci [] (calculate_crc [c; a; ci])
                           None None None None)) /\
  (frame_type f = LONG ->
     exists out f', encode f = Some (out, f') /\ frame_length f' = n + 3 /\
       parse out = Some (mkFrame (if n =? 0 then CONTROL else LONG) (n + 3)
                           c a ci (frame_data f)
                           (calculate_crc (c :: a :: ci :: frame_data f))
                           None None None None)).
Proof.
  intros c a ci n Hc Ha Hci Hd Hn.
  assert (H10 : is_byte 0x10) by (unfold is_byte; lia).
  assert (H16 : is_byte 0x16) by (unfold is_byte; lia).
  split; [|split].
  - intros Hty. rewrite encode_short_Some by assumption.
    eexists. split; [reflexivity|].
    pose proof (parse_short_frame c a (calculate_crc [0x10; c; a]) 0x16 [])
      as Hp.
    rewrite Z.eqb_refl in Hp. exact Hp.
  - intros Hty. unfold encode. rewrite Hty.
    rewrite encode_wired_Some;
      [|unfold is_byte; lia|assumption..|apply Forall_nil_2].
    eexists. eexists. split; [reflexivity|]. split; [reflexivity|].
    apply (parse_wired_layout c a ci []).
  - intros Hty. unfold encode. rewrite Hty.
    rewrite encode_wired_Some;
      [|unfold is_byte; fold n; lia|assumption..].
    eexists. eexists. split; [reflexivity|]. split; [reflexivity|].
    etransitivity; [exact (parse_wired_layout c a ci (frame_data f))|].
    cbv zeta. fold n. replace (n + 3 =? 3) with (n =? 0); [reflexivity|].
    destruct (Z.eqb_spec n 0), (Z.eqb_spec (n + 3) 3); (reflexivity || lia).
Qed.

Lemma wired_encode_parse_witness :
  let f := mkFrame LONG 0 0x08 0x05 0x72 [0x0C; 0x78] 0 None None None None in
  exists out f', encode f = Some (out, f') /\ frame_length f' = 5 /\
    parse out = Some (mkFrame LONG 5 0x08 0x05 0x72 [0x0C; 0x78]
                        (calculate_crc [0x08; 0x05; 0x72; 0x0C; 0x78])
                        None None None None).
Proof.
  intros f.
  refine (proj2 (proj2 (wired_encode_parse f _ _ _ _ _)) eq_refl);
    try (unfold is_byte; simpl; lia).
  simpl. byte_list.
Defined.


Lemma take_snoc_at (d : bytes) (n : nat) :
  (n < length d)%nat -> take (S n) d = take n d ++ [at_ d n].
Proof. intros Hn. apply take_S_r. apply at_lookup. exact Hn. Qed.

Lemma slice_cons (d : bytes) (a b : nat) :
  (a < b)%nat -> (a < length d)%nat ->
  slice a b d = at_ d a :: slice (S a) b d.
Proof.
  intros Hab Ha. unfold slice.
  rewrite (drop_S d (at_ d a) a) by (apply at_lookup; exact Ha).
  replace (b - a)%nat with (S (b - S a)) by lia. reflexivity.
Qed.

Lemma take_app_slice (d : bytes) (a b : nat) :
  (a <= b)%nat -> take b d = take a d ++ slice a b d.
Proof.
  intros Hab. unfold slice.
  rewrite <- (take_drop a d) at 1.
  destruct (Nat.le_gt_cases (length d) a) as [Hl|Hl].
  - rewrite (drop_ge d a) by lia. rewrite take_nil, !app_nil_r.
    rewrite take_take. f_equal. lia.
  - rewrite take_app_ge by (rewrite length_take; lia).
    rewrite length_take. replace (a `min` length d)%nat with a by lia.
    reflexivity.
Qed.

(** X17: parsing a wired frame and encoding the result gives the
    accepted bytes back with the stop byte restored.  [parse] never
    looks at the stop byte nor at what follows the frame; [encode]
    writes the frame up to and including the checksum as it was read and
    ends it with [0x16].  A long frame whose length byte is 2 is accepted
    too (its CI field is then the checksum byte itself); it is encoded
    as a control frame of length 3 with checksum 0. *)
Theorem wired_parse_encode (d : bytes) (g : MBusFrame) :
  is_bytes d -> parse d = Some g ->
  (frame_type g = SINGLE_CHAR -> encode g = Some (d, g)) /\
  (frame_type g = SHORT -> encode g = Some (take 4 d ++ [0x16], g)) /\
  (frame_type g = CONTROL \/ frame_type g = LONG ->
     2 <= frame_length g /\
     (3 <= frame_length g ->
        encode g
        = Some (take (Z.to_nat (frame_length g) + 5) d ++ [0x16], g)) /\
     (frame_length g = 2 ->
        encode g
        = Some ([0x68; 3; 3; 0x68; at_ d 4; at_ d 5; at_ d 6; 0; 0x16],
                mkFrame LONG 3 (at_ d 4) (at_ d 5) (at_ d 6) [] (at_ d 6)
                  None None None None))).
Proof.
  intros Hd Hp. unfold parse in Hp.
  destruct (Nat.ltb_spec (length d) 1) as [|H1]; [discriminate|].
  destruct ((length d =? 1)%nat && (at_ d 0 =? 0xE5)) eqn:E1.
  { injection Hp as <-. apply andb_prop in E1 as [E1 E2].
    apply Nat.eqb_eq in E1. apply Z.eqb_eq in E2.
    destruct d as [|x [|y d]]; try discriminate.
    change (at_ [x] 0) with x in E2. subst x.
    split; [reflexivity|]. split; [discriminate|]. intros [H|H]; discriminate. }
  destruct (Nat.ltb_spec (length d) 5) as [|H5]; [discriminate|].
  destruct (Z.eqb_spec (at_ d 0) 0x10) as [E10|N10].
  { unfold parse_short in Hp.
    destruct (check_crc (take 4 d)) eqn:Ec; [|discriminate].
    apply (check_crc_short d H5) in Ec.
    injection Hp as <-. cbn [frame_type].
    split; [discriminate|]. split; [|intros [H|H]; discriminate].
    intros _. rewrite encode_short_Some;
      cbn [frame_type frame_control frame_address];
      [|reflexivity|apply is_byte_at; exact Hd..].
    do 2 f_equal.
    replace (take 3 d) with [0x10; at_ d 1; at_ d 2] in Ec.
    - rewrite Ec. rewrite <- E10.
      rewrite (take_snoc_at d 3), (take_snoc_at d 2), (take_snoc_at d 1),
        (take_snoc_at d 0) by lia.
      reflexivity.
    - rewrite <- E10.
      rewrite (take_snoc_at d 2), (take_snoc_at d 1), (take_snoc_at d 0) by lia.
      reflexivity. }
  destruct (Z.eqb_spec (at_ d 0) 0x68) as [E68|N68].
  2:{ destruct ((0x44 <=? at_ d 0) && (at_ d 0 <=? 0x4F)); [|discriminate].
      unfold parse_wmbus in Hp.
      destruct (length d <? 10)%nat; [discriminate|]. injection Hp as <-.
      cbn [frame_type].
      split; [discriminate|]. split; [discriminate|].
      intros [H|H]; discriminate. }
  unfold parse_long in Hp.
  destruct (Nat.ltb_spec (length d) 9) as [|H9]; [discriminate|].
  destruct (Z.eqb_spec (at_ d 1) (at_ d 2)) as [E12|]; [|discriminate].
  destruct (Z.eqb_spec (at_ d 3) 0x68) as [E3|]; [|discriminate].
  cbn [negb] in Hp.
  destruct (Z.ltb_spec (Z.of_nat (length d)) (at_ d 1 + 6)) as [|H6];
    [discriminate|].
  pose proof (is_byte_at d 1 Hd) as HL. unfold is_byte in HL.
  set (l := Z.to_nat (at_ d 1)) in *.
  assert (Hlen : (l + 6 <= length d)%nat) by (unfold l; lia).
  destruct (check_crc (slice 4 (7 + l - 2) d)) eqn:Ec; [|discriminate].
  apply (check_crc_long d l Hlen) in Ec as [Hl2 Ec].
  cbn [negb] in Hp. injection Hp as <-.
  cbn [frame_type frame_length].
  change (S (S (S (S l)))) with (4 + l)%nat.
  split; [intros H; destruct (at_ d 1 =? 3); discriminate|].
  split; [intros H; destruct (at_ d 1 =? 3); discriminate|]. intros _.
  split; [unfold l in Hl2; lia|].
  assert (H16 : is_byte 0x16) by (unfold is_byte; lia).
  assert (H68 : is_byte 0x68) by (unfold is_byte; lia).
  split.
  - intros Hl3.
    assert (Hn : Z.of_nat (length (slice 7 (4 + l) d)) + 3 = at_ d 1).
    { rewrite length_slice by lia. unfold l. lia. }
    assert (Hbody : slice 4 (4 + l) d
                    = at_ d 4 :: at_ d 5 :: at_ d 6 :: slice 7 (4 + l) d).
    { rewrite (slice_cons d 4), (slice_cons d 5), (slice_cons d 6)
        by (unfold l; lia).
      reflexivity. }
    assert (Hout : take (l + 5) d ++ [0x16]
                   = 0x68 :: at_ d 1 :: at_ d 1 :: 0x68 :: at_ d 4 :: at_ d 5
                       :: at_ d 6
                       :: slice 7 (4 + l) d
                          ++ [calculate_crc (at_ d 4 :: at_ d 5 :: at_ d 6
                                               :: slice 7 (4 + l) d);
                              0x16]).
    { rewrite <- Hbody, Ec.
      replace (l + 5)%nat with (S (4 + l)) by lia.
      rewrite (take_snoc_at d (4 + l)) by lia.
      rewrite (take_app_slice d 4 (4 + l)) by lia.
      rewrite Hbody.
      rewrite (take_snoc_at d 3), (take_snoc_at d 2), (take_snoc_at d 1),
        (take_snoc_at d 0) by lia.
      rewrite E68, <- E12, E3. cbn [take app].
      rewrite <- !app_assoc. reflexivity. }
    fold l. rewrite Hout.
    destruct (Z.eqb_spec (at_ d 1) 3) as [E3'|N3].
    + assert (Hnil : slice 7 (4 + l) d = []).
      { unfold slice. replace (4 + l - 7)%nat with 0%nat by (unfold l; lia).
        reflexivity. }
      rewrite Hnil. unfold encode. cbn [frame_type].
      rewrite encode_wired_Some;
        cbn [frame_control frame_address control_information];
        [|unfold is_byte; lia|apply is_byte_at; exact Hd..|apply Forall_nil_2].
      rewrite <- E3'. reflexivity.
    + unfold encode. cbn [frame_type frame_data]. rewrite Hn.
      rewrite encode_wired_Some;
        cbn [frame_control frame_address control_information];
        [|unfold is_byte; lia|apply is_byte_at; exact Hd..|].
      * reflexivity.
      * unfold slice. apply is_bytes_take, is_bytes_drop. exact Hd.
  - intros HL2.
    assert (Hl : l = 2%nat) by (unfold l; lia).
    rewrite HL2. change (2 =? 3) with false. cbv iota.
    assert (Hnil : slice 7 (4 + l) d = []) by (rewrite Hl; reflexivity).
    rewrite Hnil. unfold encode. cbn [frame_type frame_data length].
    rewrite encode_wired_Some;
      cbn [frame_control frame_address control_information];
      [|unfold is_byte; lia|apply is_byte_at; exact Hd..|apply Forall_nil_2].
    rewrite Hl in Ec.
    rewrite (slice_cons d 4), (slice_cons d 5) in Ec by lia.
    change (slice 6 (4 + 2) d) with (@nil Z) in Ec.
    change (0 + 3) with 3.
    change [at_ d 4; at_ d 5; at_ d 6] with ([at_ d 4; at_ d 5] ++ [at_ d 6]).
    rewrite calculate_crc_snoc, Ec. change (4 + 2)%nat with 6%nat.
    rewrite crc_byte_self, Hl. reflexivity.
Qed.


Lemma wired_parse_encode_witness :
  let d := [0x68; 5; 5; 0x68; 0x08; 0x05; 0x72; 0x0C; 0x78; 0x68; 0x00; 0xAA] in
  let g := mkFrame LONG 5 0x08 0x05 0x72 [0x0C; 0x78] 0x68 None None None None in
  is_bytes d /\ parse d = Some g /\
  encode g
  = Some ([0x68; 5; 5; 0x68; 0x08; 0x05; 0x72; 0x0C; 0x78; 0x68; 0x16], g).
Proof.
  intros d g.
  assert (Hd : is_bytes d) by (unfold d; byte_list).
  split; [exact Hd|]. split; [reflexivity|].
  refine (proj1 (proj2 (proj2 (proj2 (wired_parse_encode d g Hd eq_refl))
                         (or_intror eq_refl))) _).
  simpl. lia.
Defined.

(** What [parse] returns on a wireless frame: the CI field and the data
    are read with the defaults of [__init__] when the buffer ends after
    the device type. *)
Lemma parse_wireless (d : bytes) :
  (10 <= length d)%nat -> 0x44 <= at_ d 0 <= 0x4F ->
  parse d
  = Some (mkFrame WMBUS_APL (at_ d 0) (at_ d 1) 0 (at_ d 10) (drop 11 d) 0
            (Some (decode_manufacturer
                     (Z.lor (Z.shiftl (at_ d 3) 8) (at_ d 2))))
            (Some (hex [at_ d 7; at_ d 6; at_ d 5; at_ d 4]))
            (Some (at_ d 8)) (Some (at_ d 9))).
Proof.
  intros Hlen H0. unfold parse.
  destruct (Nat.ltb_spec (length d) 1); [lia|].
  destruct (Nat.eqb_spec (length d) 1); [lia|]. cbn [andb].
  destruct (Nat.ltb_spec (length d) 5); [lia|].
  destruct (Z.eqb_spec (at_ d 0) 0x10); [lia|].
  destruct (Z.eqb_spec (at_ d 0) 0x68); [lia|].
  destruct (Z.leb_spec 0x44 (at_ d 0)); [|lia].
  destruct (Z.leb_spec (at_ d 0) 0x4F); [|lia]. cbn [andb].
  unfold parse_wmbus.
  destruct (Nat.ltb_spec (length d) 10); [lia|].
  assert (Hid : slice 4 8 d = [at_ d 4; at_ d 5; at_ d 6; at_ d 7]).
  { rewrite (slice_cons d 4), (slice_cons d 5), (slice_cons d 6),
      (slice_cons d 7) by lia.
    reflexivity. }
  rewrite Hid. cbn [rev app].
  assert (Hci : (if (10 <? length d)%nat then at_ d 10 else 0) = at_ d 10).
  { destruct (Nat.ltb_spec 10 (length d)); [reflexivity|].
    unfold at_. rewrite lookup_ge_None_2 by lia. reflexivity. }
  assert (Hdata : (if (11 <? length d)%nat then drop 11 d else []) = drop 11 d).
  { destruct (Nat.ltb_spec 11 (length d)); [reflexivity|].
    rewrite drop_ge by lia. reflexivity. }
  rewrite Hci, Hdata. reflexivity.
Qed.

Lemma to_bytes_2_le_code (m : Z) :
  to_bytes_2_le (Z.land m 0x7FFF) = Some [m mod 256; (m / 256) mod 128].
Proof.
  change 0x7FFF with (Z.ones 15). rewrite Z.land_ones by lia.
  change (2 ^ 15) with 32768. unfold to_bytes_2_le.
  assert (Hm : m mod 32768 = 256 * ((m / 256) mod 128) + m mod 256).
  { pose proof (Z.div_mod m 256 ltac:(lia)) as E1.
    pose proof (Z.div_mod (m / 256) 128 ltac:(lia)) as E2.
    pose proof (Z.mod_pos_bound m 256 ltac:(lia)) as B1.
    pose proof (Z.mod_pos_bound (m / 256) 128 ltac:(lia)) as B2.
    symmetry. apply (Z.mod_unique_pos m 32768 (m / 256 / 128)).
    - revert B1 B2. generalize (m mod 256), ((m / 256) mod 128). lia.
    - revert E1 E2. generalize (m mod 256), ((m / 256) mod 128), (m / 256 / 128).
      generalize (m / 256). lia. }
  pose proof (Z.mod_pos_bound m 256 ltac:(lia)) as B1.
  pose proof (Z.mod_pos_bound (m / 256) 128 ltac:(lia)) as B2.
  rewrite Hm.
  destruct (Z.leb_spec 0 (256 * ((m / 256) mod 128) + m mod 256)); [|lia].
  destruct (Z.ltb_spec (256 * ((m / 256) mod 128) + m mod 256) 65536); [|lia].
  cbn [andb]. f_equal. f_equal.
  - rewrite Z.add_comm, Z.mul_comm, Z.mod_add by lia. apply Z.mod_mod. lia.
  - f_equal. symmetry. apply (Z.div_unique_pos _ 256 _ (m mod 256)); [lia|].
    reflexivity.
Qed.

Lemma wmbus_tail (code : Z) (l1 l2 l3 l4 id data : list Z) (f : MBusFrame) :
  is_bytes l1 -> is_bytes l3 -> is_bytes l4 ->
  to_bytes_2_le code = Some l2 ->
  (b1 ← bytes_of l1;
   b2 ← to_bytes_2_le code;
   b3 ← bytes_of l3;
   b4 ← bytes_of l4;
   Some (b1 ++ b2 ++ id ++ b3 ++ b4 ++ data, f))
  = Some (l1 ++ l2 ++ id ++ l3 ++ l4 ++ data, f).
Proof.
  intros H1 H3 H4 H2.
  rewrite (bytes_of_Some l1 H1). cbn [mbind option_bind].
  rewrite H2. cbn [mbind option_bind].
  rewrite (bytes_of_Some l3 H3). cbn [mbind option_bind].
  rewrite (bytes_of_Some l4 H4). reflexivity.
Qed.

(** The wireless branch of [encode] on a frame whose manufacturer is
    the decoding of a code [m] and whose identification is the
    hexadecimal form of four bytes: both conversions succeed, and what
    is left is the assembly of the bytes. *)
Lemma encode_wmbus_chain (f : MBusFrame) (m ver ty : Z) (id : bytes) :
  frame_manufacturer f = Some (decode_manufacturer m) ->
  frame_identification f = Some (hex id) ->
  frame_version f = Some ver ->
  frame_device_type f = Some ty ->
  is_bytes id -> length id = 4%nat ->
  encode_wmbus f
  = (b1 ← bytes_of [10 + Z.of_nat (length (frame_data f)); frame_control f];
     b2 ← to_bytes_2_le (Z.land m 0x7FFF);
     b3 ← bytes_of [ver; ty];
     b4 ← bytes_of [control_information f];
     Some (b1 ++ b2 ++ rev id ++ b3 ++ b4 ++ frame_data f,
           mkFrame (frame_type f) (10 + Z.of_nat (length (frame_data f)))
             (frame_control f) (frame_address f) (control_information f)
             (frame_data f) (frame_checksum f) (frame_manufacturer f)
             (frame_identification f) (frame_version f)
             (frame_device_type f))).
Proof.
  intros Hm Hi Hv Ht Hid Hlen.
  unfold encode_wmbus. rewrite Hm, Hi, Hv, Ht.
  change (String.eqb (decode_manufacturer m) EmptyString) with false.
  assert (Hne : String.eqb (hex id) EmptyString = false).
  { destruct id as [|a id]; [discriminate|]. reflexivity. }
  rewrite Hne. cbn [orb].
  rewrite encode_decode_manufacturer. cbn [mbind option_bind].
  rewrite (proj2 (unhexlify_hex id Hid)).
  rewrite Hlen. cbn [Nat.eqb negb]. cbv zeta.
  replace (11 + Z.of_nat (length (frame_data f)) - 1)
    with (10 + Z.of_nat (length (frame_data f))) by lia.
  reflexivity.
Qed.

Lemma encode_wmbus_Some (f : MBusFrame) (m ver ty : Z) (id : bytes) :
  frame_manufacturer f = Some (decode_manufacturer m) ->
  frame_identification f = Some (hex id) ->
  frame_version f = Some ver ->
  frame_device_type f = Some ty ->
  is_bytes id -> length id = 4%nat ->
  is_byte ver -> is_byte ty ->
  is_byte (frame_control f) -> is_byte (control_information f) ->
  Z.of_nat (length (frame_data f)) <= 245 ->
  encode_wmbus f
  = Some (10 + Z.of_nat (length (frame_data f))
            :: frame_control f
            :: m mod 256 :: (m / 256) mod 128
            :: rev id ++ ver :: ty :: control_information f :: frame_data f,
          mkFrame (frame_type f) (10 + Z.of_nat (length (frame_data f)))
            (frame_control f) (frame_address f) (control_information f)
            (frame_data f) (frame_checksum f) (frame_manufacturer f)
            (frame_identification f) (frame_version f) (frame_device_type f)).
Proof.
  intros Hm Hi Hv Ht Hid Hlen Hver Hty Hc Hci Hn.
  rewrite (encode_wmbus_chain f m ver ty id) by assumption.
  apply (wmbus_tail (Z.land m 0x7FFF)
           [10 + Z.of_nat (length (frame_data f)); frame_control f]
           [m mod 256; (m / 256) mod 128] [ver; ty] [control_information f]).
  - byte_list.
  - byte_list.
  - byte_list.
  - apply to_bytes_2_le_code.
Qed.

Lemma encode_wmbus_too_long (f : MBusFrame) (m ver ty : Z) (id : bytes) :
  frame_manufacturer f = Some (decode_manufacturer m) ->
  frame_identification f = Some (hex id) ->
  frame_version f = Some ver ->
  frame_device_type f = Some ty ->
  is_bytes id -> length id = 4%nat ->
  245 < Z.of_nat (length (frame_data f)) ->
  encode_wmbus f = None.
Proof.
  intros Hm Hi Hv Ht Hid Hlen Hn.
  rewrite (encode_wmbus_chain f m ver ty id) by assumption.
  assert (Hb : bytes_of [10 + Z.of_nat (length (frame_data f)); frame_control f]
               = None).
  { unfold bytes_of. cbn [forallb].
    destruct (Z.ltb_spec (10 + Z.of_nat (length (frame_data f))) 256); [lia|].
    rewrite andb_false_r. reflexivity. }
  rewrite Hb. reflexivity.
Qed.

Lemma drop_cons_at (d : bytes) (n : nat) :
  (n < length d)%nat -> drop n d = at_ d n :: drop (S n) d.
Proof. intros Hn. apply drop_S. apply at_lookup. exact Hn. Qed.

(** X18: parsing a wireless frame and encoding the result rewrites two
    places only.  On a buffer of 10 to 256 bytes whose first byte is in
    [0x44 .. 0x4F], [encode] of the parsed frame returns the buffer with
    its L-field replaced by the number of bytes that follow it and the
    top bit of the M-field cleared; a buffer that ends after the device
    type gets a CI byte 0 appended.  On a longer buffer [encode]
    raises. *)
Theorem wireless_parse_encode (d : bytes) :
  is_bytes d -> (10 <= length d)%nat -> 0x44 <= at_ d 0 <= 0x4F ->
  exists g, parse d = Some g /\
    ((length d <= 256)%nat ->
     exists g',
       encode g
       = Some (Z.of_nat (Nat.max (length d) 11) - 1
                 :: at_ d 1 :: at_ d 2 :: at_ d 3 mod 128
                 :: drop 4 d ++ (if (length d =? 10)%nat then [0] else []),
               g') /\
       frame_length g' = Z.of_nat (Nat.max (length d) 11) - 1) /\
    ((256 < length d)%nat -> encode g = None).
Proof.
  intros Hd Hlen H0. eexists. split; [apply parse_wireless; assumption|].
  set (g := mkFrame _ _ _ _ _ _ _ _ _ _ _).
  assert (Hid : is_bytes [at_ d 7; at_ d 6; at_ d 5; at_ d 4]).
  { pose proof (is_byte_at d 7 Hd). pose proof (is_byte_at d 6 Hd).
    pose proof (is_byte_at d 5 Hd). pose proof (is_byte_at d 4 Hd).
    byte_list. }
  assert (Hn : length (frame_data g) = (length d - 11)%nat).
  { unfold g. cbn [frame_data]. apply length_drop. }
  split.
  - intros H256. eexists. unfold encode. unfold g at 1. cbn [frame_type].
    rewrite (encode_wmbus_Some g _ (at_ d 8) (at_ d 9) _ eq_refl eq_refl
               eq_refl eq_refl Hid eq_refl);
      [|apply is_byte_at; exact Hd..|rewrite Hn; lia].
    rewrite Hn. split.
    { f_equal. f_equal. unfold g.
      cbn [frame_control control_information frame_data rev app].
      rewrite lor_shiftl_8 by (apply is_byte_at; exact Hd).
      pose proof (is_byte_at d 2 Hd) as H2. unfold is_byte in H2.
      f_equal; [lia|]. f_equal. f_equal.
      { rewrite Z.mul_comm, Z.mod_add by lia. apply Z.mod_small. lia. }
      f_equal.
      { f_equal. rewrite Z.mul_comm, Z.div_add by lia.
        rewrite (Z.div_small (at_ d 2)) by lia. reflexivity. }
      rewrite (drop_cons_at d 4), (drop_cons_at d 5), (drop_cons_at d 6),
        (drop_cons_at d 7), (drop_cons_at d 8), (drop_cons_at d 9) by lia.
      cbn [app]. do 6 f_equal.
      destruct (Nat.eqb_spec (length d) 10) as [E|E].
      - rewrite !drop_ge by lia. unfold at_.
        rewrite lookup_ge_None_2 by lia. reflexivity.
      - rewrite (drop_cons_at d 10) by lia. rewrite app_nil_r. reflexivity. }
    cbn [frame_length]. lia.
  - intros H256. unfold encode. unfold g at 1. cbn [frame_type].
    apply (encode_wmbus_too_long g _ (at_ d 8) (at_ d 9) _ eq_refl eq_refl
             eq_refl eq_refl Hid eq_refl).
    rewrite Hn. lia.
Qed.

Lemma wireless_parse_encode_witness :
  let d := [0x44; 0x44; 0x93; 0xC4; 0x48; 0x36; 0x35; 0x12; 0x18; 0x06;
            0x7A; 0x0C; 0x13] in
  exists g, parse d = Some g /\
    exists g',
      encode g = Some ([0x0C; 0x44; 0x93; 0x44; 0x48; 0x36; 0x35; 0x12; 0x18;
                        0x06; 0x7A; 0x0C; 0x13], g') /\
      frame_length g' = 0x0C.
Proof.
  intros d.
  assert (Hd : is_bytes d) by (unfold d; byte_list).
  assert (Hlen : (10 <= length d)%nat) by (simpl; lia).
  assert (H0 : 0x44 <= at_ d 0 <= 0x4F) by (unfold at_; simpl; lia).
  destruct (wireless_parse_encode d Hd Hlen H0) as (g & Hp & Henc & _).
  exists g. split; [exact Hp|].
  apply Henc. simpl. lia.
Defined.


(** X19: [parse] reads back a wireless frame written by [encode] only
    when the data has 58 to 69 bytes.  [encode] puts the L-field, the
    number of bytes that follow it, first; [parse] takes a buffer for a
    wireless frame when its first byte is in [0x44 .. 0x4F].  For a
    frame whose manufacturer decodes a code below [0x8000] and whose
    identification is the hexadecimal form of four bytes, [encode]
    succeeds on up to 245 data bytes; with 58 to 69 of them [parse]
    returns the frame (address and checksum reset to 0), and with any
    other number, 6 and 94 apart (L-field [0x10] or [0x68], the wired
    start bytes), [parse] returns [None]. *)
Theorem wireless_encode_parse (f : MBusFrame) (m ver ty : Z) (id : bytes) :
  let n := Z.of_nat (length (frame_data f)) in
  frame_type f = WMBUS_APL ->
  frame_manufacturer f = Some (decode_manufacturer m) -> 0 <= m < 0x8000 ->
  frame_identification f = Some (hex id) ->
  is_bytes id -> length id = 4%nat ->
  frame_version f = Some ver -> frame_device_type f = Some ty ->
  is_byte ver -> is_byte ty ->
  is_byte (frame_control f) -> is_byte (control_information f) ->
  n <= 245 ->
  exists out f',
    encode f = Some (out, f') /\ frame_length f' = 10 + n /\
    (58 <= n <= 69 ->
       parse out
       = Some (mkFrame WMBUS_APL (10 + n) (frame_control f) 0
                 (control_information f) (frame_data f) 0
                 (frame_manufacturer f) (frame_identification f)
                 (frame_version f) (frame_device_type f))) /\
    (n < 58 \/ 69 < n -> n <> 6 -> n <> 94 -> parse out = None).
Proof.
  intros n Hty Hm Hm0 Hi Hid Hlen Hv Ht Hver Hdty Hc Hci Hn.
  eexists. eexists. split.
  { unfold encode. rewrite Hty.
    apply (encode_wmbus_Some f m ver ty id); assumption. }
  split; [reflexivity|].
  destruct id as [|i0 [|i1 [|i2 [|i3 [|? ?]]]]]; try discriminate.
  cbn [rev app]. fold n.
  set (out := 10 + n :: _).
  assert (Hout : length out = (length (frame_data f) + 11)%nat).
  { unfold out. cbn [length]. lia. }
  split.
  - intros Hr. rewrite parse_wireless;
      [|lia|change (at_ out 0) with (10 + n); lia].
    change (at_ out 0) with (10 + n).
    change (at_ out 1) with (frame_control f).
    change (at_ out 2) with (m mod 256).
    change (at_ out 3) with ((m / 256) mod 128).
    change (at_ out 4) with i3. change (at_ out 5) with i2.
    change (at_ out 6) with i1. change (at_ out 7) with i0.
    change (at_ out 8) with ver. change (at_ out 9) with ty.
    change (at_ out 10) with (control_information f).
    change (drop 11 out) with (frame_data f).
    rewrite lor_shiftl_8 by (unfold is_byte; apply Z.mod_pos_bound; lia).
    replace (m mod 256 + 256 * ((m / 256) mod 128)) with m.
    + rewrite Hm, Hi, Hv, Ht. reflexivity.
    + rewrite (Z.mod_small (m / 256)).
      * rewrite Z.add_comm. apply Z.div_mod. lia.
      * split; [apply Z.div_pos; lia|].
        apply Z.div_lt_upper_bound; lia.
  - intros Hr H6 H94. unfold parse. rewrite Hout.
    destruct (Nat.ltb_spec (length (frame_data f) + 11) 1); [lia|].
    destruct (Nat.eqb_spec (length (frame_data f) + 11) 1); [lia|].
    cbn [andb].
    destruct (Nat.ltb_spec (length (frame_data f) + 11) 5); [lia|].
    change (at_ out 0) with (10 + n).
    destruct (Z.eqb_spec (10 + n) 0x10); [lia|].
    destruct (Z.eqb_spec (10 + n) 0x68); [lia|].
    destruct (Z.leb_spec 0x44 (10 + n)); [|reflexivity].
    destruct (Z.leb_spec (10 + n) 0x4F); [lia|reflexivity].
Qed.


Lemma wireless_encode_parse_witness :
  let f := mkFrame WMBUS_APL 0 0x44 0 0x7A [0x0C; 0x13] 0
             (Some "KAM"%string) (Some "12353648"%string)
             (Some 0x18) (Some 0x06) in
  exists out f',
    encode f = Some (out, f') /\ frame_length f' = 12 /\ parse out = None.
Proof.
  intros f.
  assert (Hid : is_bytes [0x12; 0x35; 0x36; 0x48]) by byte_list.
  assert (Hm : 0 <= 0x2C2D < 0x8000) by lia.
  assert (H18 : is_byte 0x18) by (unfold is_byte; lia).
  assert (H06 : is_byte 0x06) by (unfold is_byte; lia).
  assert (H44 : is_byte (frame_control f)) by (unfold is_byte; simpl; lia).
  assert (H7A : is_byte (control_information f))
    by (unfold is_byte; simpl; lia).
  assert (Hn : Z.of_nat (length (frame_data f)) <= 245) by (simpl; lia).
  destruct (wireless_encode_parse f 0x2C2D 0x18 0x06 [0x12; 0x35; 0x36; 0x48]
              eq_refl eq_refl Hm eq_refl Hid eq_refl eq_refl eq_refl
              H18 H06 H44 H7A Hn)
    as (out & f' & He & Hl & _ & Hnone).
  exists out, f'. split; [exact He|]. split; [exact Hl|].
  apply Hnone; simpl; lia.
Defined.

End FrameRoundTrip.

(** ** Values and descriptions of parsed records *)

Section RecordValuesDirect.
Import DataRecord RecordParser RecordText.

Lemma record_value_direct (r : MBusDataRecord) :
  record_fields_ok r -> record_value_ok r ->
  parse_by_dif (dif r) (value r) = Some (parsed_value r) /\
  plain_value (parsed_value r) = true.
Proof.
  intros (Hdif & Hvif & _) Hval.
  assert (Hex : exists x, parse_by_dif (dif r) (value r) = Some x /\
                          plain_value x = true).
  { unfold record_value_ok in Hval. revert Hval.
    assert (Hd : 0 <= dif r < 16) by lia. revert Hd.
    generalize (value r) as v. generalize (dif r) as d.
    intros d v Hd. revert d Hd v.
    apply (nibble_cases (fun d => forall v, _ -> _)).
    intros k Hk v.
    do 16 (destruct k as [|k];
           [cbn [Z.of_nat Pos.of_succ_nat Pos.succ Z.eqb Pos.eqb];
            unfold parse_by_dif, _get_data_length, unpack_signed;
            cbn [Z.eqb Pos.eqb]; intros Hval;
            try (replace (length v) with (Z.to_nat (Z.of_nat (length v)))
                   by lia;
                 rewrite Hval; cbn [Z.to_nat Pos.to_nat Pos.iter_op Nat.add
                                    Nat.eqb fmap option_fmap option_map]);
            eexists; split; reflexivity|]).
    lia. }
  destruct Hex as (x & Hx & Hplain).
  unfold parsed_value, _parse_value. rewrite Hx.
  destruct (Z.eqb_spec (vif r) 0xA8); [lia|].
  destruct (Z.eqb_spec (vif r) 0xB0); [lia|].
  cbn [andb]. split; [reflexivity | exact Hplain].
Qed.

(** X20: for the records [parse_data_records] builds, the exception
    handler and the date branches of [_parse_value] are dead.  The
    parser hands over a data field in [0 .. 0x0F], a VIF in
    [0 .. 0x7F] and a value of the length that field asks for, so the
    first [if] chain always yields the parsed value itself (no
    [struct.error], hence no fallback to hex), the VIF tests against
    [0xA8] and [0xB0] never hold, and no parsed value is a date, a
    date-time or a variable-length byte string. *)
Theorem parsed_records_values_direct (data : bytes)
    (records : list MBusDataRecord) :
  is_bytes data ->
  parse_data_records data = Some records ->
  Forall (fun r => parse_by_dif (dif r) (value r) = Some (parsed_value r) /\
                   plain_value (parsed_value r) = true) records.
Proof.
  intros Hd. apply parse_data_records_Forall. intros i r i' _ Hr.
  apply record_value_direct.
  - exact (parse_record_fields data i r i' Hr).
  - exact (parse_record_value data i r i' Hd Hr).
Qed.

Lemma parsed_records_values_direct_witness :
  let data := [0x02; 0xEC; 0x7E; 0x21; 0x31] in
  let r := mkRecord 0x02 0x6C [0x21; 0x31] 0 0 0 0 [] [0x7E] in
  is_bytes data /\
  parse_data_records data = Some [r] /\
  parsed_value r = VInt 0x3121 /\
  Forall (fun r => parse_by_dif (dif r) (value r) = Some (parsed_value r) /\
                   plain_value (parsed_value r) = true) [r].
Proof.
  intros data r.
  assert (Hd : is_bytes data).
  { unfold data, is_bytes, is_byte. repeat (apply Forall_cons_2; [lia|]).
    apply Forall_nil_2. }
  split; [exact Hd|]. split; [reflexivity|]. split; [reflexivity|].
  exact (parsed_records_values_direct data [r] Hd eq_refl).
Defined.

Lemma get_description_low_bits (vif : Z) :
  get_description (Z.land vif 0x7F) = get_description vif.
Proof.
  assert (Hlow : Z.land (Z.land vif 0x7F) 0x7F = Z.land vif 0x7F).
  { rewrite <- Z.land_assoc. reflexivity. }
  unfold get_description. cbv zeta. rewrite Hlow. reflexivity.
Qed.

(** X21: [get_description] knows sixteen groups only.  The VIF is
    masked with [0x7F] first, so the tests against [0x80], [0xA8],
    [0xB0], [0xC0], [0xF0] and [0xFD] never hold: for every VIF the
    description is the entry of the group [(vif & 0x7F) >> 3], and
    "Pressure", "Date", "Date and Time", "Heat Cost Allocation",
    "Manufacturer Specific", "Fabrication Number" and "Unknown VIF" are
    never returned. *)
Theorem get_description_sixteen_groups (vif : Z) :
  get_description vif
  = nth (Z.to_nat (Z.shiftr (Z.land vif 0x7F) 3)) description_of_group
      EmptyString /\
  In (get_description vif) description_of_group.
Proof.
  rewrite <- get_description_low_bits.
  pose proof (land_below vif 0x7F 7 ltac:(lia)
                ltac:(change (2 ^ 7) with 128; lia)) as Hv.
  change (2 ^ 7) with 128 in Hv.
  revert Hv. generalize (Z.land vif 0x7F) as v. intros v Hv.
  assert (Hall : forallb
            (fun k => let d := get_description (Z.of_nat k) in
                      String.eqb d
                        (nth (Z.to_nat (Z.shiftr (Z.of_nat k) 3))
                           description_of_group EmptyString)
                      && existsb (String.eqb d) description_of_group)
            (seq 0 128) = true) by (vm_compute; reflexivity).
  rewrite forallb_forall in Hall.
  specialize (Hall (Z.to_nat v)). rewrite Z2Nat.id in Hall by lia.
  assert (Hin : In (Z.to_nat v) (seq 0 128)) by (apply in_seq; lia).
  specialize (Hall Hin). cbv zeta in Hall.
  apply andb_prop in Hall as [H1 H2].
  apply String.eqb_eq in H1. split; [exact H1|].
  apply existsb_exists in H2 as (x & Hx & Heq).
  apply String.eqb_eq in Heq. rewrite Heq. exact Hx.
Qed.

End RecordValuesDirect.

(** ** The status byte *)

Section Status.
Import StatusInfo.

Lemma set_flag_low (s mask : Z) (key : string) (d : result_dict) :
  Z.land 0xFF mask = mask ->
  set_flag (Z.land s 0xFF) mask key d = set_flag s mask key d.
Proof.
  intros Hm. unfold set_flag. rewrite <- Z.land_assoc, Hm. reflexivity.
Qed.

Lemma get_status_info_low (s : Z) :
  get_status_info (Z.land s 0xFF) = get_status_info s.
Proof.
  unfold get_status_info. rewrite !set_flag_low by reflexivity. reflexivity.
Qed.

(** X22: [get_status_info] reads the low eight bits only.  The result
    for a status word is the result for [status & 0xFF], so the flags
    [NO_COMMUNICATION] (256) and [MBUS_READOUT_ERROR] (512) of
    [MBusStatus] are never reported; the summary is ["OK"] exactly when
    the low byte is zero, and then the result has no other key. *)
Theorem status_info_low_byte (status_byte : Z) :
  get_status_info status_byte = get_status_info (Z.land status_byte 0xFF) /\
  (status_of (get_status_info status_byte) = Some "OK"%string <->
   Z.land status_byte 0xFF = 0) /\
  (Z.land status_byte 0xFF = 0 ->
   get_status_info status_byte = [("status"%string, Text "OK")]).
Proof.
  split; [symmetry; apply get_status_info_low|].
  rewrite <- (get_status_info_low status_byte).
  pose proof (land_below status_byte 0xFF 8 ltac:(lia)
                ltac:(change (2 ^ 8) with 256; lia)) as Hb.
  change (2 ^ 8) with 256 in Hb.
  revert Hb. generalize (Z.land status_byte 0xFF) as b. intros b Hb.
  assert (Hall : forallb
            (fun k => let r := get_status_info (Z.of_nat k) in
                      Bool.eqb
                        (match status_of r with
                         | Some t => String.eqb t "OK"
                         | None => false
                         end)
                        (Z.of_nat k =? 0))
            (seq 0 256) = true) by (vm_compute; reflexivity).
  rewrite forallb_forall in Hall.
  specialize (Hall (Z.to_nat b)). rewrite Z2Nat.id in Hall by lia.
  assert (Hin : In (Z.to_nat b) (seq 0 256)) by (apply in_seq; lia).
  specialize (Hall Hin). cbv zeta in Hall.
  apply Bool.eqb_prop in Hall. rename Hall into H1.
  split.
  - split.
    + intros Hs. rewrite Hs in H1. change (String.eqb "OK" "OK") with true in H1.
      symmetry in H1. apply Z.eqb_eq in H1. exact H1.
    + intros ->. reflexivity.
  - intros ->. reflexivity.
Qed.

End Status.

(** ** Telegram analysis *)

Section Analysis.
Import MBusProtocol MBusFrameOps RecordParser TelegramAnalysis.

(** [with_suggestions] touches the suggestions only. *)
Lemma with_suggestions_fields (r : Analysis) :
  let r' := with_suggestions r in
  a_valid r' = a_valid r /\ a_mfct r' = a_mfct r /\ a_id r' = a_id r /\
  a_version r' = a_version r /\ a_type r' = a_type r /\
  a_control r' = a_control r /\ a_encrypted r' = a_encrypted r /\
  a_records r' = a_records r /\ a_error r' = a_error r.
Proof.
  unfold with_suggestions.
  destruct (a_mfct r) as [m|] eqn:Em; [|rewrite Em; repeat split].
  destruct (a_type r) as [t|] eqn:Et; [|rewrite Em, Et; repeat split].
  destruct (a_valid r && negb (String.eqb m EmptyString));
    cbn [a_valid a_mfct a_id a_version a_type a_control a_encrypted
         a_records a_error]; rewrite ?Em, ?Et; repeat split.
Qed.

Lemma with_suggestions_invalid (r : Analysis) :
  a_valid r = false -> with_suggestions r = r.
Proof.
  intros Hv. unfold with_suggestions. rewrite Hv.
  destruct (a_mfct r), (a_type r); reflexivity.
Qed.

(** [parse_data_records] returns on every input. *)
Lemma parse_data_records_Some (data : bytes) :
  exists records, parse_data_records data = Some records.
Proof.
  unfold parse_data_records, parse_data_records_passes.
  destruct data as [|b data']; [eexists; reflexivity|].
  destruct (parse_loop_total (b :: data') (length (b :: data')) 0 [] 0)
    as (rs & ps & _ & Hrun); [lia | lia |].
  rewrite (Hrun (S (length (b :: data')))) by lia.
  eexists. reflexivity.
Qed.

(** What [analyze_telegram] returns on a buffer of ten bytes or more
    that starts with [0x44]. *)
Lemma analyze_wireless_result (d : bytes) :
  exists records,
    analyze_wireless d
    = with_suggestions
        (mkAnalysis true (length d)
           (Some (decode_manufacturer
                    (Z.lor (Z.shiftl (at_ d 3) 8) (at_ d 2))))
           (Some (hex (rev (slice 4 8 d)))) (Some (at_ d 8))
           (Some (at_ d 9)) (Some (decode_device_type (at_ d 9)))
           (if (10 <? length d)%nat then Some (at_ d 10) else None)
           (0 <? Z.land (at_ d 1) 0x05) (Some (at_ d 1)) records [] None) /\
    ((0 <? Z.land (at_ d 1) 0x05) = true -> records = []).
Proof.
  unfold analyze_wireless.
  destruct ((11 <? length d)%nat && negb (0 <? Z.land (at_ d 1) 5)) eqn:E.
  - destruct (parse_data_records_Some (drop 11 d)) as (rs & Hrs).
    rewrite Hrs. exists rs. split; [reflexivity|].
    intros He. rewrite He in E. rewrite andb_false_r in E. discriminate.
  - exists []. split; reflexivity.
Qed.

Lemma analyze_telegram_wireless (d : bytes) :
  (10 <= length d)%nat -> at_ d 0 = 0x44 ->
  analyze_telegram d = analyze_wireless d.
Proof.
  intros Hlen H0. unfold analyze_telegram.
  destruct (Nat.ltb_spec (length d) 10); [lia|].
  rewrite H0. reflexivity.
Qed.

Lemma analyze_valid_cases (d : bytes) :
  a_valid (analyze_telegram d) = true ->
  (10 <= length d)%nat /\ at_ d 0 = 0x44.
Proof.
  unfold analyze_telegram.
  destruct (Nat.ltb_spec (length d) 10) as [|Hlen]; [discriminate|].
  destruct (Z.eqb_spec (at_ d 0) 0x68) as [E68|N68].
  - destruct (Nat.leb_spec 9 (length d)); [|lia]. cbn [andb].
    unfold analyze_long.
    destruct (negb (at_ d 1 =? at_ d 2) || negb (at_ d 3 =? 104));
      [discriminate|].
    destruct (Z.of_nat (length d) <? at_ d 1 + 6); discriminate.
  - cbn [andb].
    destruct (Z.eqb_spec (at_ d 0) 0x44) as [E44|]; [|discriminate].
    intros _. split; [exact Hlen | exact E44].
Qed.

(** X23: [analyze_telegram] reports a telegram as valid exactly when it
    has at least ten bytes and starts with [0x44].  A valid telegram is
    one [MBusFrame.parse] reads as a wireless frame, and the two agree
    on manufacturer, identification, version, device type, control
    field and encryption mark.  A wired long frame ([0x68]) is never
    valid, and a buffer whose first byte is in [0x45 .. 0x4F], which
    [MBusFrame.parse] accepts as a wireless frame, is rejected as an
    unknown format. *)
Theorem analyze_valid_iff (d : bytes) :
  let a := analyze_telegram d in
  (a_valid a = true <-> (10 <= length d)%nat /\ at_ d 0 = 0x44) /\
  (a_valid a = true ->
   exists f, parse d = Some f /\ frame_type f = WMBUS_APL /\
     a_mfct a = frame_manufacturer f /\
     a_id a = frame_identification f /\
     a_version a = frame_version f /\
     a_type a = frame_device_type f /\
     a_control a = Some (frame_control f) /\
     a_encrypted a = frame_is_encrypted f) /\
  ((10 <= length d)%nat -> 0x45 <= at_ d 0 <= 0x4F ->
   is_Some (parse d) /\ a_valid a = false /\
   a_error a = Some UnknownFormat).
Proof.
  intros a. split; [|split].
  - split; [apply analyze_valid_cases|].
    intros [Hlen H0]. unfold a.
    rewrite (analyze_telegram_wireless d Hlen H0).
    destruct (analyze_wireless_result d) as (rs & -> & _).
    rewrite (proj1 (with_suggestions_fields _)). reflexivity.
  - intros Hv. destruct (analyze_valid_cases d Hv) as [Hlen H0].
    eexists. split; [apply parse_wireless; [exact Hlen | lia]|].
    unfold a. rewrite (analyze_telegram_wireless d Hlen H0).
    destruct (analyze_wireless_result d) as (rs & -> & _).
    pose proof (with_suggestions_fields
      (mkAnalysis true (length d)
           (Some (decode_manufacturer
                    (Z.lor (Z.shiftl (at_ d 3) 8) (at_ d 2))))
           (Some (hex (rev (slice 4 8 d)))) (Some (at_ d 8))
           (Some (at_ d 9)) (Some (decode_device_type (at_ d 9)))
           (if (10 <? length d)%nat then Some (at_ d 10) else None)
           (0 <? Z.land (at_ d 1) 0x05) (Some (at_ d 1)) rs [] None))
      as (_ & Hm & Hi & Hve & Hty & Hc & He & _).
    cbv zeta in Hm, Hi, Hve, Hty, Hc, He.
    rewrite Hm, Hi, Hve, Hty, Hc, He.
    cbn [a_mfct a_id a_version a_type a_control a_encrypted frame_type
         frame_manufacturer frame_identification frame_version
         frame_device_type frame_control frame_is_encrypted].
    assert (Hid : slice 4 8 d = [at_ d 4; at_ d 5; at_ d 6; at_ d 7]).
    { rewrite (slice_cons d 4), (slice_cons d 5), (slice_cons d 6),
        (slice_cons d 7) by lia.
      reflexivity. }
    rewrite Hid. cbn [rev app].
    repeat split.
    assert (Hnn : 0 <= Z.land (at_ d 1) 0x05)
      by (apply Z.land_nonneg; right; lia).
    destruct (Z.ltb_spec 0 (Z.land (at_ d 1) 5)),
      (Z.eqb_spec (Z.land (at_ d 1) 5) 0); (reflexivity || lia).
  - intros Hlen H0. split.
    + rewrite parse_wireless by lia. eexists. reflexivity.
    + unfold a, analyze_telegram.
      destruct (Nat.ltb_spec (length d) 10); [lia|].
      destruct (Z.eqb_spec (at_ d 0) 0x68); [lia|].
      destruct (Z.eqb_spec (at_ d 0) 0x44); [lia|].
      split; reflexivity.
Qed.


Lemma exact_matches_Forall (P : string -> Prop) (mfct : string) (ty : Z)
    (table : list (string * Z * string)) :
  Forall (fun e => P (snd e)) table ->
  forall suggested,
    Forall P suggested -> Forall P (exact_matches mfct ty table suggested).
Proof.
  induction table as [|[[m t] name] table IH]; intros Ht suggested Hs.
  - exact Hs.
  - apply Forall_cons in Ht as [Hn Ht]. cbn [exact_matches].
    apply IH; [exact Ht|].
    destruct (String.eqb mfct m && (ty =? t)); [|exact Hs].
    apply Forall_app. split; [exact Hs|].
    apply Forall_cons_2; [exact Hn | apply Forall_nil_2].
Qed.

Lemma lookup_mfct_Forall (P : string -> Prop) (mfct : string)
    (table : list (string * list string)) (names : list string) :
  Forall (fun e => Forall P (snd e)) table ->
  lookup_mfct mfct table = Some names -> Forall P names.
Proof.
  induction table as [|[m ns] table IH]; intros Ht; [discriminate|].
  apply Forall_cons in Ht as [Hn Ht]. cbn [lookup_mfct].
  destruct (String.eqb mfct m); [intros [= <-]; exact Hn | exact (IH Ht)].
Qed.

Lemma lookup_type_Forall (P : string -> Prop) (ty : Z)
    (table : list (Z * list string)) (names : list string) :
  Forall (fun e => Forall P (snd e)) table ->
  lookup_type ty table = Some names -> Forall P names.
Proof.
  induction table as [|[t ns] table IH]; intros Ht; [discriminate|].
  apply Forall_cons in Ht as [Hn Ht]. cbn [lookup_type].
  destruct (ty =? t); [intros [= <-]; exact Hn | exact (IH Ht)].
Qed.

Lemma extend_if_empty_Forall (P : string -> Prop)
    (found : option (list string)) (suggested : list string) :
  (forall names, found = Some names -> Forall P names) ->
  Forall P suggested -> Forall P (extend_if_empty found suggested).
Proof.
  intros Hf Hs. unfold extend_if_empty.
  destruct found as [names|]; [|exact Hs].
  destruct suggested; [|exact Hs].
  apply Forall_app. split; [exact Hs | apply Hf; reflexivity].
Qed.

(** No table of [analyze_telegram] names the driver "auto". *)
Lemma suggest_drivers_auto (mfct : string) (ty : Z) :
  suggest_drivers mfct ty = ["auto"%string] \/
  (suggest_drivers mfct ty <> [] /\
   Forall (fun n => String.eqb n "auto" = false) (suggest_drivers mfct ty)).
Proof.
  unfold suggest_drivers.
  set (P := fun n => String.eqb n "auto" = false).
  assert (Hs : Forall P
            (extend_if_empty (lookup_type ty type_mapping)
               (extend_if_empty (lookup_mfct mfct mfct_mapping)
                  (exact_matches mfct ty driver_mapping [])))).
  { apply extend_if_empty_Forall.
    - intros names. apply lookup_type_Forall.
      unfold type_mapping, P.
      repeat (apply Forall_cons_2;
              [repeat (apply Forall_cons_2; [reflexivity|]);
               apply Forall_nil_2|]).
      apply Forall_nil_2.
    - apply extend_if_empty_Forall.
      + intros names. apply lookup_mfct_Forall.
        unfold mfct_mapping, P.
        repeat (apply Forall_cons_2;
                [repeat (apply Forall_cons_2; [reflexivity|]);
                 apply Forall_nil_2|]).
        apply Forall_nil_2.
      + apply exact_matches_Forall; [|apply Forall_nil_2].
        unfold driver_mapping, P.
        repeat (apply Forall_cons_2; [reflexivity|]). apply Forall_nil_2. }
  destruct (extend_if_empty _ _) as [|n rest]; [left; reflexivity|].
  right. split; [discriminate | exact Hs].
Qed.

(** X24: every valid telegram gets a driver suggestion, and no other
    telegram does.  For a valid telegram the analysis ends without an
    error, the suggestion list is not empty, and "auto" is suggested
    only on its own, when none of the three tables applies; an
    encrypted telegram has no records.  A telegram that is not valid
    has no suggestion and no record. *)
Theorem valid_telegram_gets_drivers (d : bytes) :
  let a := analyze_telegram d in
  (a_valid a = true ->
   a_error a = None /\
   a_suggested_drivers a <> [] /\
   (a_suggested_drivers a = ["auto"%string] \/
    ~ In "auto"%string (a_suggested_drivers a)) /\
   (a_encrypted a = true -> a_records a = [])) /\
  (a_valid a = false ->
   a_suggested_drivers a = [] /\ a_records a = []).
Proof.
  intros a. split.
  - intros Hv. destruct (analyze_valid_cases d Hv) as [Hlen H0].
    unfold a. rewrite (analyze_telegram_wireless d Hlen H0).
    destruct (analyze_wireless_result d) as (rs & -> & Henc).
    unfold with_suggestions.
    cbn [a_mfct a_type a_valid andb].
    change (String.eqb (decode_manufacturer _) EmptyString) with false.
    cbn [negb a_error a_suggested_drivers a_encrypted a_records].
    split; [reflexivity|].
    destruct (suggest_drivers_auto
                (decode_manufacturer (Z.lor (Z.shiftl (at_ d 3) 8) (at_ d 2)))
                (at_ d 9)) as [Hauto|[Hne Hall]].
    + rewrite Hauto. split; [discriminate|]. split; [left; reflexivity|].
      exact Henc.
    + split; [exact Hne|]. split; [|exact Henc].
      right. intros Hin. rewrite Forall_forall in Hall.
      apply list_elem_of_In in Hin.
      specialize (Hall _ Hin). discriminate.
  - unfold a, analyze_telegram.
    destruct (Nat.ltb_spec (length d) 10) as [|Hlen];
      [intros _; split; reflexivity|].
    destruct (Z.eqb_spec (at_ d 0) 0x68) as [E68|N68].
    + destruct (Nat.leb_spec 9 (length d)); [|lia]. cbn [andb].
      unfold analyze_long.
      destruct (negb (at_ d 1 =? at_ d 2) || negb (at_ d 3 =? 104));
        [intros _; split; reflexivity|].
      destruct (Z.of_nat (length d) <? at_ d 1 + 6);
        intros _; split; reflexivity.
    + cbn [andb].
      destruct (Z.eqb_spec (at_ d 0) 0x44) as [E44|];
        [|intros _; split; reflexivity].
      destruct (analyze_wireless_result d) as (rs & -> & _).
      rewrite (proj1 (with_suggestions_fields _)). discriminate.
Qed.

End Analysis.

(** ** Telegram decryption *)

Section TelegramDecryption.
Import MBusProtocol TelegramAnalysis.

Variable lib : AesLibrary.

(** [decrypt_aes_cmac] is [decrypt_aes_cbc] with a flag. *)
Lemma decrypt_aes_cmac_cbc (data : bytes) (key m id : string) :
  decrypt_aes_cmac lib data key m id
  = (fun p => (p, true)) <$> decrypt_aes_cbc lib data key m id.
Proof.
  unfold decrypt_aes_cmac.
  destruct (CRYPTO_AVAILABLE lib) eqn:Ec; cbn [negb].
  - destruct (decrypt_aes_cbc lib data key m id); reflexivity.
  - unfold decrypt_aes_cbc. rewrite Ec. reflexivity.
Qed.

(** [decrypt_telegram] on a valid, encrypted telegram and a key that is
    not empty. *)
Lemma decrypt_telegram_encrypted (d : bytes) (key : string) (mode : Z) :
  (11 <= length d)%nat -> at_ d 0 = 0x44 ->
  (0 <? Z.land (at_ d 1) 0x05) = true ->
  String.eqb key EmptyString = false ->
  decrypt_telegram lib d key mode
  = if (mode =? 1) || (mode =? 2) || (mode =? 5) then
      (fun p => take 11 d ++ p) <$>
        decrypt_aes_cbc lib (drop 11 d) key
          (decode_manufacturer (Z.lor (Z.shiftl (at_ d 3) 8) (at_ d 2)))
          (hex (rev (slice 4 8 d)))
    else None.
Proof.
  intros Hlen H0 Henc Hkey. unfold decrypt_telegram. rewrite Hkey.
  destruct (Nat.ltb_spec (length d) 11); [lia|].
  rewrite (analyze_telegram_wireless d ltac:(lia) H0).
  destruct (analyze_wireless_result d) as (rs & -> & _).
  pose proof (with_suggestions_fields
      (mkAnalysis true (length d)
           (Some (decode_manufacturer
                    (Z.lor (Z.shiftl (at_ d 3) 8) (at_ d 2))))
           (Some (hex (rev (slice 4 8 d)))) (Some (at_ d 8))
           (Some (at_ d 9)) (Some (decode_device_type (at_ d 9)))
           (if (10 <? length d)%nat then Some (at_ d 10) else None)
           (0 <? Z.land (at_ d 1) 0x05) (Some (at_ d 1)) rs [] None))
      as (Hv & Hm & Hi & _ & _ & _ & He & _).
  cbv zeta in Hv, Hm, Hi, He. rewrite Hv, Hm, Hi, He.
  cbn [a_valid a_mfct a_id a_encrypted negb]. rewrite Henc. cbn [negb].
  change (String.eqb (decode_manufacturer _) EmptyString) with false.
  assert (Hid : slice 4 8 d = [at_ d 4; at_ d 5; at_ d 6; at_ d 7]).
  { rewrite (slice_cons d 4), (slice_cons d 5), (slice_cons d 6),
      (slice_cons d 7) by lia.
    reflexivity. }
  rewrite Hid. cbn [rev app].
  change (String.eqb (hex [at_ d 7; at_ d 6; at_ d 5; at_ d 4]) EmptyString)
    with false.
  cbn [orb]. rewrite decrypt_aes_cmac_cbc.
  destruct (mode =? 1); cbn [orb].
  - destruct (decrypt_aes_cbc lib _ _ _ _); reflexivity.
  - destruct ((mode =? 2) || (mode =? 5)); [|reflexivity].
    destruct (decrypt_aes_cbc lib _ _ _ _); reflexivity.
Qed.

(** X25: the security mode of [decrypt_telegram] selects nothing but
    support.  The modes CMAC (2) and CMAC-AES (5) return what the mode
    CBC (1) returns, on every telegram and key: no MAC is looked at.
    Whatever is returned starts with the first eleven bytes of the
    telegram, which then is valid and the key not empty; a telegram
    that is valid and not marked encrypted is returned as it is under
    every mode, supported or not. *)
Theorem decrypt_telegram_modes (d : bytes) (key : string) (mode : Z) :
  decrypt_telegram lib d key 2 = decrypt_telegram lib d key 1 /\
  decrypt_telegram lib d key 5 = decrypt_telegram lib d key 1 /\
  (forall out, decrypt_telegram lib d key mode = Some out ->
     take 11 out = take 11 d /\ (11 <= length d)%nat /\ at_ d 0 = 0x44 /\
     key <> EmptyString) /\
  ((11 <= length d)%nat -> at_ d 0 = 0x44 -> Z.land (at_ d 1) 0x05 = 0 ->
   key <> EmptyString -> decrypt_telegram lib d key mode = Some d).
Proof.
  assert (Hplain : forall m, (11 <= length d)%nat -> at_ d 0 = 0x44 ->
            (0 <? Z.land (at_ d 1) 0x05) = false ->
            String.eqb key EmptyString = false ->
            decrypt_telegram lib d key m = Some d).
  { intros m Hlen H0 Henc Hkey. unfold decrypt_telegram. rewrite Hkey.
    destruct (Nat.ltb_spec (length d) 11); [lia|].
    rewrite (analyze_telegram_wireless d ltac:(lia) H0).
    destruct (analyze_wireless_result d) as (rs & -> & _).
    rewrite (proj1 (with_suggestions_fields _)).
    rewrite (proj1 (proj2 (proj2 (proj2 (proj2 (proj2 (proj2
               (with_suggestions_fields _)))))))).
    cbn [a_valid a_encrypted negb]. rewrite Henc. reflexivity. }
  assert (Hshort : forall m,
            String.eqb key EmptyString = true \/ (length d < 11)%nat \/
            at_ d 0 <> 0x44 ->
            decrypt_telegram lib d key m = None).
  { intros m Hc. unfold decrypt_telegram.
    destruct (String.eqb key EmptyString) eqn:Ek; [reflexivity|].
    destruct (Nat.ltb_spec (length d) 11) as [|Hlen]; [reflexivity|].
    destruct Hc as [Hc|[Hc|Hc]]; [discriminate | lia |].
    destruct (a_valid (analyze_telegram d)) eqn:Ev; [|reflexivity].
    apply analyze_valid_cases in Ev. tauto. }
  assert (Hmodes : forall m, m = 2 \/ m = 5 ->
            decrypt_telegram lib d key m = decrypt_telegram lib d key 1).
  { intros m Hm.
    destruct (String.eqb key EmptyString) eqn:Ek;
      [rewrite !Hshort by tauto; reflexivity|].
    destruct (Nat.lt_ge_cases (length d) 11) as [Hl|Hl];
      [rewrite !Hshort by tauto; reflexivity|].
    destruct (Z.eq_dec (at_ d 0) 0x44) as [H0|H0];
      [|rewrite !Hshort by tauto; reflexivity].
    destruct (0 <? Z.land (at_ d 1) 0x05) eqn:He.
    - rewrite (decrypt_telegram_encrypted d key m Hl H0 He Ek).
      rewrite (decrypt_telegram_encrypted d key 1 Hl H0 He Ek).
      destruct Hm as [-> | ->]; reflexivity.
    - rewrite (Hplain m Hl H0 eq_refl eq_refl), (Hplain 1 Hl H0 eq_refl eq_refl). reflexivity. }
  split; [apply Hmodes; tauto|]. split; [apply Hmodes; tauto|]. split.
  - intros out Hout.
    destruct (String.eqb key EmptyString) eqn:Ek;
      [rewrite Hshort in Hout by tauto; discriminate|].
    destruct (Nat.lt_ge_cases (length d) 11) as [Hl|Hl];
      [rewrite Hshort in Hout by tauto; discriminate|].
    destruct (Z.eq_dec (at_ d 0) 0x44) as [H0|H0];
      [|rewrite Hshort in Hout by tauto; discriminate].
    assert (Hk : key <> EmptyString) by (intros ->; discriminate).
    split; [|tauto].
    destruct (0 <? Z.land (at_ d 1) 0x05) eqn:He.
    + rewrite (decrypt_telegram_encrypted d key mode Hl H0 He Ek) in Hout.
      destruct ((mode =? 1) || (mode =? 2) || (mode =? 5)); [|discriminate].
      destruct (decrypt_aes_cbc lib _ _ _ _) as [p|]; [|discriminate].
      injection Hout as <-.
      rewrite take_app_le by (rewrite length_take; lia).
      apply take_take.
    + rewrite (Hplain mode Hl H0 eq_refl eq_refl) in Hout. injection Hout as <-.
      reflexivity.
  - intros Hlen H0 Hz Hk. apply Hplain; try assumption.
    + rewrite Hz. reflexivity.
    + destruct (String.eqb_spec key EmptyString); [contradiction | reflexivity].
Qed.


(** The header [Telegram] builds on ten bytes or more. *)
Lemma telegram_header_fields (d : bytes) :
  is_bytes d -> (10 <= length d)%nat ->
  header (TelegramOps.init d)
  = Some (TelegramHeader_init (at_ d 0) (at_ d 1)
            (decode_manufacturer (Z.lor (Z.shiftl (at_ d 3) 8) (at_ d 2)))
            (hex (rev (slice 4 8 d))) (at_ d 8) (at_ d 9)).
Proof.
  intros Hd Hlen. unfold TelegramOps.init, TelegramOps._parse_header.
  destruct d as [|b d']; [simpl in Hlen; lia|]. cbn [header].
  destruct (Nat.ltb_spec (length (b :: d')) 10); [lia|].
  rewrite lor_shiftl_8 by (apply is_byte_at; exact Hd). reflexivity.
Qed.

(** When the cipher object rejects a partial block, so does
    [decrypt_aes_cbc]. *)
Lemma decrypt_aes_cbc_partial_block (data : bytes) (key m id : string) :
  (forall c x, (length x mod 16)%nat <> 0%nat ->
     fst (cipher_decrypt lib c x) = None) ->
  (length data mod 16)%nat <> 0%nat ->
  decrypt_aes_cbc lib data key m id = None.
Proof.
  intros Hlaw Hlen. unfold decrypt_aes_cbc.
  destruct (negb (CRYPTO_AVAILABLE lib)); [reflexivity|].
  destruct (String.eqb key EmptyString); [reflexivity|].
  destruct (unhexlify (remove_spaces key)) as [kb| |]; try reflexivity.
  destruct (negb (length kb =? 16)%nat); [reflexivity|].
  destruct (generate_iv m id) as [iv|]; [|reflexivity].
  unfold decrypt_under.
  pose proof (Hlaw (AES_new_cbc lib kb iv) data Hlen) as H1.
  destruct (cipher_decrypt lib (AES_new_cbc lib kb iv) data) as [r1 c1].
  cbn [fst] in H1. subst r1. cbn [mbind option_bind].
  apply Hlaw. exact Hlen.
Qed.

(** X26: the two decryption entry points cut the telegram at different
    places.  On an encrypted wireless telegram both derive the same
    manufacturer and identification and call [decrypt_aes_cbc] with the
    same key, but [Telegram.decrypt] passes the bytes from offset 10 and
    keeps ten, while [WMBusSecurity.decrypt_telegram] passes the bytes
    from offset 11 and keeps eleven.  With a cipher object that rejects
    data that is not a whole number of 16-byte blocks, they therefore
    never both succeed on the same telegram. *)
Theorem decrypt_entry_points_differ (d : bytes) (key : string) :
  is_bytes d -> (11 <= length d)%nat -> at_ d 0 = 0x44 ->
  Z.land (at_ d 1) 0x05 <> 0 -> key <> EmptyString ->
  exists h,
    header (TelegramOps.init d) = Some h /\
    a_mfct (analyze_telegram d) = Some (manufacturer h) /\
    a_id (analyze_telegram d) = Some (meter_id h) /\
    decrypt lib (TelegramOps.init d) key
    = match decrypt_aes_cbc lib (drop 10 d) key (manufacturer h)
              (meter_id h) with
      | Some p => (true, mkTelegram (take 10 d ++ p) (Some h))
      | None => (false, TelegramOps.init d)
      end /\
    decrypt_telegram lib d key 1
    = match decrypt_aes_cbc lib (drop 11 d) key (manufacturer h)
              (meter_id h) with
      | Some p => Some (take 11 d ++ p)
      | None => None
      end /\
    ((forall c x, (length x mod 16)%nat <> 0%nat ->
        fst (cipher_decrypt lib c x) = None) ->
     ~ (fst (decrypt lib (TelegramOps.init d) key) = true /\
        is_Some (decrypt_telegram lib d key 1))).
Proof.
  intros Hd Hlen H0 Hc Hk.
  assert (Hnn : 0 <= Z.land (at_ d 1) 0x05)
    by (apply Z.land_nonneg; right; lia).
  assert (He : (0 <? Z.land (at_ d 1) 0x05) = true)
    by (apply Z.ltb_lt; lia).
  assert (Hkey : String.eqb key EmptyString = false).
  { destruct (String.eqb_spec key EmptyString); [contradiction | reflexivity]. }
  eexists. split; [apply telegram_header_fields; [exact Hd | lia]|].
  cbn [manufacturer meter_id TelegramHeader_init].
  assert (Ha : a_mfct (analyze_telegram d)
               = Some (decode_manufacturer
                         (Z.lor (Z.shiftl (at_ d 3) 8) (at_ d 2))) /\
               a_id (analyze_telegram d) = Some (hex (rev (slice 4 8 d)))).
  { rewrite (analyze_telegram_wireless d ltac:(lia) H0).
    destruct (analyze_wireless_result d) as (rs & -> & _).
    rewrite (proj1 (proj2 (with_suggestions_fields _))).
    rewrite (proj1 (proj2 (proj2 (with_suggestions_fields _)))).
    split; reflexivity. }
  destruct Ha as [Hm Hi]. split; [exact Hm|]. split; [exact Hi|].
  assert (Hdec : decrypt lib (TelegramOps.init d) key
            = match decrypt_aes_cbc lib (drop 10 d) key
                      (decode_manufacturer
                         (Z.lor (Z.shiftl (at_ d 3) 8) (at_ d 2)))
                      (hex (rev (slice 4 8 d))) with
              | Some p =>
                  (true,
                   mkTelegram (take 10 d ++ p)
                     (Some (TelegramHeader_init (at_ d 0) (at_ d 1)
                              (decode_manufacturer
                                 (Z.lor (Z.shiftl (at_ d 3) 8) (at_ d 2)))
                              (hex (rev (slice 4 8 d))) (at_ d 8) (at_ d 9))))
              | None => (false, TelegramOps.init d)
              end).
  { unfold decrypt.
    rewrite (telegram_header_fields d Hd ltac:(lia)).
    cbn [is_encrypted manufacturer meter_id TelegramHeader_init].
    destruct (Z.eqb_spec (Z.land (at_ d 1) 5) 0); [contradiction|].
    cbn [negb]. rewrite Hkey.
    change (raw_data (TelegramOps.init d)) with d.
    destruct (decrypt_aes_cbc lib (drop 10 d) key _ _); reflexivity. }
  assert (Htel : decrypt_telegram lib d key 1
            = match decrypt_aes_cbc lib (drop 11 d) key
                      (decode_manufacturer
                         (Z.lor (Z.shiftl (at_ d 3) 8) (at_ d 2)))
                      (hex (rev (slice 4 8 d))) with
              | Some p => Some (take 11 d ++ p)
              | None => None
              end).
  { rewrite (decrypt_telegram_encrypted d key 1 Hlen H0 He Hkey).
    cbn [Z.eqb Pos.eqb orb].
    destruct (decrypt_aes_cbc lib (drop 11 d) key _ _); reflexivity. }
  split; [exact Hdec|]. split; [exact Htel|].
  intros Hlaw [H1 H2]. rewrite Hdec in H1. rewrite Htel in H2.
  assert (Hl10 : length (drop 10 d) = S (length (drop 11 d))).
  { rewrite !length_drop. lia. }
  destruct (Nat.eq_dec (length (drop 10 d) mod 16)%nat 0%nat) as [E10|N10].
  - assert (N11 : (length (drop 11 d) mod 16)%nat <> 0%nat).
    { intros E11. rewrite Hl10 in E10.
      pose proof (Nat.div_mod_eq (S (length (drop 11 d))) 16).
      pose proof (Nat.div_mod_eq (length (drop 11 d)) 16). lia. }
    rewrite (decrypt_aes_cbc_partial_block _ key _ _ Hlaw N11) in H2.
    destruct H2 as [? [=]].
  - rewrite (decrypt_aes_cbc_partial_block _ key _ _ Hlaw N10) in H1.
    discriminate.
Qed.

End TelegramDecryption.

Lemma decrypt_entry_points_differ_witness :
  let d := [0x44; 0x44; 0x2D; 0x2C; 0x48; 0x36; 0x35; 0x12; 0x18; 0x07;
            0x7A; 0x5A; 0x5A; 0x5A; 0x5A; 0x5A; 0x5A; 0x5A; 0x5A; 0x5A;
            0x5A; 0x5A; 0x5A; 0x5A; 0x5A; 0x5A] in
  let key := "00112233445566778899aabbccddeeff"%string in
  fst (decrypt toy_aes (TelegramOps.init d) key) = true /\
  decrypt_telegram toy_aes d key 1 = None.
Proof.
  intros d key.
  assert (Hd : is_bytes d).
  { unfold d, is_bytes, is_byte. repeat (apply Forall_cons_2; [lia|]).
    apply Forall_nil_2. }
  assert (Hlen : (11 <= length d)%nat) by (simpl; lia).
  assert (H0 : at_ d 0 = 0x44) by reflexivity.
  assert (Hc : Z.land (at_ d 1) 0x05 <> 0) by discriminate.
  assert (Hk : key <> EmptyString) by discriminate.
  destruct (decrypt_entry_points_differ toy_aes d key Hd Hlen H0 Hc Hk)
    as (h & _ & _ & _ & _ & _ & Hexcl).
  assert (Hlaw : forall c x, (length x mod 16)%nat <> 0%nat ->
            fst (cipher_decrypt toy_aes c x) = None).
  { intros c x Hx. cbn [cipher_decrypt toy_aes]. unfold toy_decrypt.
    destruct (Nat.eqb_spec (length x mod 16) 0); [contradiction | reflexivity]. }
  assert (H1 : fst (decrypt toy_aes (TelegramOps.init d) key) = true)
    by (vm_compute; reflexivity).
  split; [exact H1|].
  destruct (decrypt_telegram toy_aes d key 1) as [out|] eqn:E; [|reflexivity].
  exfalso. apply (Hexcl Hlaw). split; [exact H1 | eexists; reflexivity].
Defined.

(** ** The access point *)

Section AccessPointInvariant.
Import TelegramAnalysis.

Variable MeterInfo : Type.

Lemma history_ok_init : history_ok _ (AccessPoint_init MeterInfo).
Proof.
  split; [reflexivity|]. split.
  - intros id h H. cbn in H. rewrite lookup_empty in H. discriminate.
  - intros id. cbn. rewrite !lookup_empty. split; intros [? [=]].
Qed.

Lemma history_ok_add_meter (ap : TelegramAccessPoint MeterInfo) (id : string) (info : MeterInfo) :
  history_ok _ ap -> history_ok _ (add_meter _ ap id info).
Proof.
  intros (Hmax & Hlen & Hdom). split; [exact Hmax|]. split.
  - intros id' h. cbn [add_meter telegram_history].
    destruct (decide (id = id')) as [->|Hne].
    + rewrite lookup_insert_eq. intros [= <-]. simpl. lia.
    + rewrite lookup_insert_ne by exact Hne. apply Hlen.
  - intros id'. cbn [add_meter telegram_history meters].
    destruct (decide (id = id')) as [->|Hne].
    + rewrite !lookup_insert_eq. split; intros _; eexists; reflexivity.
    + rewrite !lookup_insert_ne by exact Hne. apply Hdom.
Qed.

Lemma history_ok_process (ap : TelegramAccessPoint MeterInfo) (data : bytes) (now1 now2 : string) :
  history_ok _ ap ->
  exists r ap', process_telegram _ ap data now1 now2 = Some (r, ap') /\
                history_ok _ ap' /\
                meters _ ap' = meters _ ap /\
                (is_Some r <-> a_valid (analyze_telegram data) = true).
Proof.
  intros Hok. pose proof Hok as (Hmax & Hlen & Hdom).
  unfold process_telegram.
  destruct (a_valid (analyze_telegram data)) eqn:Ev; cbn [negb].
  2:{ exists None, ap. split; [reflexivity|]. split; [exact Hok|].
      split; [reflexivity|]. split; [intros [? [=]] | discriminate]. }
  destruct (analyze_valid_cases data Ev) as [Hl H0].
  assert (Hid : a_id (analyze_telegram data)
                = Some (hex (rev (slice 4 8 data)))).
  { rewrite (analyze_telegram_wireless data Hl H0).
    destruct (analyze_wireless_result data) as (rs & -> & _).
    rewrite (proj1 (proj2 (proj2 (with_suggestions_fields _)))).
    reflexivity. }
  rewrite Hid.
  assert (Hne : String.eqb (hex (rev (slice 4 8 data))) EmptyString = false).
  { rewrite (slice_cons data 4) by lia.
    cbn [rev]. destruct (rev (slice 5 8 data)); reflexivity. }
  rewrite Hne.
  set (id := hex (rev (slice 4 8 data))).
  destruct (telegram_history _ ap !! id) as [h|] eqn:Eh.
  - pose proof (Hlen id h Eh) as Hh.
    assert (Hpop : exists h', (if (max_history _ ap <=? length h)%nat
                               then pop_first h else Some h) = Some h' /\
                              (length h' < 100)%nat).
    { rewrite Hmax. destruct (Nat.leb_spec 100 (length h)) as [Hfull|Hroom].
      - destruct h as [|e h']; [simpl in Hfull; lia|].
        exists h'. split; [reflexivity|]. simpl in Hh. lia.
      - exists h. split; [reflexivity | lia]. }
    destruct Hpop as (h' & -> & Hh'). cbn [mbind option_bind].
    eexists. eexists. split; [reflexivity|].
    split; [|split; [reflexivity | split; [intros _; reflexivity
                                          | intros _; eexists; reflexivity]]].
    split; [exact Hmax|]. split.
    + intros id' x. cbn [telegram_history].
      destruct (decide (id = id')) as [<-|Hd].
      * rewrite lookup_insert_eq. intros [= <-].
        rewrite length_app. simpl. lia.
      * rewrite lookup_insert_ne by exact Hd. apply Hlen.
    + intros id'. cbn [telegram_history meters].
      destruct (decide (id = id')) as [<-|Hd].
      * rewrite lookup_insert_eq. rewrite <- Hdom, Eh.
        split; intros _; eexists; reflexivity.
      * rewrite lookup_insert_ne by exact Hd. apply Hdom.
  - cbn [mbind option_bind].
    eexists. eexists. split; [reflexivity|].
    split; [|split; [reflexivity | split; [intros _; reflexivity
                                          | intros _; eexists; reflexivity]]].
    split; [exact Hmax|]. split; [exact Hlen | exact Hdom].
Qed.

Lemma run_calls_ok (calls : list (call MeterInfo)) :
  forall ap, history_ok _ ap ->
    exists ap', run_calls _ ap calls = Some ap' /\ history_ok _ ap'.
Proof.
  induction calls as [|c calls IH]; intros ap Hok.
  - exists ap. split; [reflexivity | exact Hok].
  - cbn [run_calls]. destruct c as [id info | data now1 now2].
    + cbn [run_call mbind option_bind].
      apply IH. apply history_ok_add_meter. exact Hok.
    + destruct (history_ok_process ap data now1 now2 Hok)
        as (r & ap1 & Hp & Hok1 & _).
      cbn [run_call]. rewrite Hp. cbn [fmap option_fmap option_map snd
                                       mbind option_bind].
      apply IH. exact Hok1.
Qed.

(** X27: the access point keeps at most 100 telegrams for each meter
    and answers exactly the valid telegrams.  Whatever sequence of
    [add_meter] and [process_telegram] calls is run on a fresh access
    point, no call raises ([pop(0)] is never applied to an empty
    history), and afterwards every history list has at most 100 entries
    and the meters that have a history are exactly the registered ones:
    a telegram of an unregistered meter is never added to a history.
    In such a state [process_telegram] returns a result if and only if
    the telegram has at least ten bytes and starts with [0x44] (the
    test for a missing meter identification never fires), and it leaves
    the registered meters as they are. *)
Theorem access_point_history_bounded (calls : list (call MeterInfo)) :
  exists ap,
    run_calls _ (AccessPoint_init MeterInfo) calls = Some ap /\
    max_history _ ap = 100%nat /\
    (forall id h, telegram_history _ ap !! id = Some h ->
       (length h <= 100)%nat) /\
    (forall id, is_Some (telegram_history _ ap !! id) <->
                is_Some (meters _ ap !! id)) /\
    (forall data now1 now2,
       exists r ap',
         process_telegram _ ap data now1 now2 = Some (r, ap') /\
         (is_Some r <-> (10 <= length data)%nat /\ at_ data 0 = 0x44) /\
         meters _ ap' = meters _ ap).
Proof.
  destruct (run_calls_ok calls _ history_ok_init) as (ap & Hrun & Hok).
  exists ap. split; [exact Hrun|].
  pose proof Hok as (Hmax & Hlen & Hdom).
  split; [exact Hmax|]. split; [exact Hlen|]. split; [exact Hdom|].
  intros data now1 now2.
  destruct (history_ok_process ap data now1 now2 Hok)
    as (r & ap' & Hp & _ & Hm & Hr).
  exists r, ap'. split; [exact Hp|]. split; [|exact Hm].
  rewrite Hr. split; [apply analyze_valid_cases|].
  intros [Hl H0]. rewrite (analyze_telegram_wireless data Hl H0).
  destruct (analyze_wireless_result data) as (rs & -> & _).
  rewrite (proj1 (with_suggestions_fields _)). reflexivity.
Qed.

End AccessPointInvariant.

(** ** Encrypting and decrypting *)

Section EncryptDecrypt.

Variable lib : AesLibrary.
Variable enc : AesEncryption lib.

(** X29: [decrypt_aes_cbc] undoes [encrypt_aes_cbc].  Both derive the
    key bytes and the IV from their arguments in the same way, so with
    a library whose [unpad] undoes [pad] and whose cipher object
    decrypts, under the same key and IV, what it encrypted, the data
    that [encrypt_aes_cbc] returns for a key, a manufacturer and an
    identification is decrypted to the input under the same three. *)
Theorem decrypt_encrypt_round_trip (data : bytes)
    (key manufacturer meter_id : string) (encrypted : bytes) :
  (forall x, unpad lib (pad enc x) = Some x) ->
  (forall key_bytes iv x y,
     fst (cipher_encrypt enc (AES_new_cbc lib key_bytes iv) x) = Some y ->
     fst (cipher_decrypt lib (AES_new_cbc lib key_bytes iv) y) = Some x) ->
  encrypt_aes_cbc lib enc data key manufacturer meter_id = Some encrypted ->
  decrypt_aes_cbc lib encrypted key manufacturer meter_id = Some data.
Proof.
  intros Hpad Hcbc. unfold encrypt_aes_cbc, decrypt_aes_cbc.
  destruct (negb (CRYPTO_AVAILABLE lib)); [discriminate|].
  destruct (String.eqb key EmptyString); [discriminate|].
  destruct (unhexlify (remove_spaces key)) as [kb| |]; try discriminate.
  destruct (negb (length kb =? 16)%nat); [discriminate|].
  destruct (generate_iv manufacturer meter_id) as [iv|]; [|discriminate].
  intros Henc. apply Hcbc in Henc. unfold decrypt_under.
  destruct (cipher_decrypt lib (AES_new_cbc lib kb iv) encrypted)
    as [r1 c1].
  cbn [fst] in Henc. subst r1. cbn [mbind option_bind].
  rewrite Hpad. reflexivity.
Qed.

End EncryptDecrypt.

Lemma decrypt_encrypt_round_trip_witness :
  let data := [0x54; 0x65; 0x73; 0x74] in
  let key := "00112233445566778899AABBCCDDEEFF"%string in
  exists encrypted,
    encrypt_aes_cbc mask_aes mask_encryption data key "KAM"%string
      "12345678"%string = Some encrypted /\
    encrypted <> data /\
    decrypt_aes_cbc mask_aes encrypted key "KAM"%string "12345678"%string
    = Some data.
Proof.
  intros data key.
  assert (Hpad : forall x, unpad mask_aes (pad mask_encryption x) = Some x).
  { intros x. cbn [unpad pad mask_aes mask_encryption].
    unfold mask_unpad, mask_pad. rewrite rev_app_distr. cbn [rev app].
    rewrite rev_involutive. reflexivity. }
  assert (Hcbc : forall key_bytes iv x y,
            fst (cipher_encrypt mask_encryption
                   (AES_new_cbc mask_aes key_bytes iv) x) = Some y ->
            fst (cipher_decrypt mask_aes
                   (AES_new_cbc mask_aes key_bytes iv) y) = Some x).
  { intros kb iv x y.
    cbn [cipher_encrypt cipher_decrypt AES_new_cbc mask_aes mask_encryption].
    unfold mask_crypt. cbn [fst]. intros [= <-]. f_equal.
    rewrite map_map. rewrite <- (map_id x) at 2. apply map_ext. intros b.
    rewrite <- Z.lxor_assoc, Z.lxor_nilpotent. apply Z.lxor_0_l. }
  eexists. split; [vm_compute; reflexivity|]. split; [discriminate|].
  apply (decrypt_encrypt_round_trip mask_aes mask_encryption data key
           "KAM"%string "12345678"%string _ Hpad Hcbc).
  vm_compute. reflexivity.
Defined.

(** ** The payload a driver parses *)

Section DriverPayload.
Import RecordParser TelegramAnalysis DriverBase.

Lemma at_drop (d : bytes) (k i : nat) : at_ (drop k d) i = at_ d (k + i).
Proof. unfold at_. rewrite lookup_drop. reflexivity. Qed.

(** The records already collected stay at the front of the result. *)
Lemma parse_loop_prefix (data : bytes) :
  forall fuel i records passes rs ps,
    parse_loop fuel data i records passes = Some (rs, ps) ->
    exists more, rs = records ++ more.
Proof.
  induction fuel as [|fuel IH]; intros i records passes rs ps H.
  - discriminate.
  - cbn [parse_loop] in H.
    destruct (i <? length data)%nat.
    + destruct (parse_record data i) as [r i'|].
      * apply IH in H as (more & ->). exists (r :: more).
        rewrite <- app_assoc. reflexivity.
      * injection H as <- _. exists []. rewrite app_nil_r. reflexivity.
    + injection H as <- _. exists []. rewrite app_nil_r. reflexivity.
Qed.

Lemma parse_data_records_first (data : bytes) (r : MBusDataRecord) (i : nat) :
  (0 < length data)%nat ->
  parse_record data 0 = Continue r i ->
  exists rest, parse_data_records data = Some (r :: rest).
Proof.
  intros Hlen Hr.
  destruct (parse_data_records_Some data) as (rs & Hrs).
  rewrite Hrs. revert Hrs.
  unfold parse_data_records, parse_data_records_passes.
  destruct data as [|b data']; [simpl in Hlen; lia|].
  cbn [parse_loop]. destruct (Nat.ltb_spec 0 (length (b :: data'))); [|lia].
  rewrite Hr.
  destruct (parse_loop _ _ i _ 1) as [[rs' ps]|] eqn:E; [|discriminate].
  apply parse_loop_prefix in E as (more & ->).
  intros [= <-]. exists more. reflexivity.
Qed.

(** X30: a driver reads the CI field as the first DIF.
    [DriverBase.process_telegram] hands [raw_data[10:]] to
    [parse_data_records], where [analyze_telegram] hands [data[11:]]:
    the byte at offset 10, the CI field, is decoded as a DIF and the
    telegram's first DIF as its VIF.  For a CI byte and a following
    byte without extension bit, the first record a driver gets has the
    low nibble of the CI field as data field, bits 4 and 5 of it as
    function and the telegram's first DIF byte as VIF, with the value
    cut from offset 12. *)
Theorem driver_reads_ci_as_dif (d : bytes) :
  let ci := at_ d 10 in
  let len := Z.to_nat (_get_data_length (Z.land ci 0x0F)) in
  (12 + len <= length d)%nat ->
  Z.land ci 0x80 = 0 -> Z.land ci 0x0F <> 0x0B ->
  Z.land (at_ d 11) 0x80 = 0 ->
  exists rest,
    let records :=
      mkRecord (Z.land ci 0x0F) (Z.land (at_ d 11) 0x7F)
        (slice 12 (12 + len) d) 0 0 0 (Z.shiftr (Z.land ci 0x30) 4) [] []
      :: rest in
    data_records (TelegramOps.init d) = Some records /\
    forall (Reading : Type)
           (parse : Telegram -> list MBusDataRecord -> option (option Reading))
           (drv : Driver),
      can_handle drv (TelegramOps.init d) = true ->
      exists h,
        header (TelegramOps.init d) = Some h /\
        process_telegram Reading parse drv (TelegramOps.init d)
        = mkDriverResult Reading (manufacturer h)
            (_get_meter_type_name (meter_type h))
            ("0x" ++ hex2 (version h))%string
          <$> parse (TelegramOps.init d) records.
Proof.
  intros ci len Hlen Hci Hnib Hv.
  assert (Hfirst : exists rest,
            data_records (TelegramOps.init d)
            = Some (mkRecord (Z.land ci 0x0F) (Z.land (at_ d 11) 0x7F)
                      (slice 12 (12 + len) d) 0 0 0
                      (Z.shiftr (Z.land ci 0x30) 4) [] [] :: rest)).
  { unfold data_records. change (raw_data (TelegramOps.init d)) with d.
    apply (parse_data_records_first _ _ (2 + len)).
    { rewrite length_drop. lia. }
    unfold parse_record. rewrite !at_drop, length_drop.
    change (10 + 0)%nat with 10%nat. change (10 + 1)%nat with 11%nat.
    fold ci. rewrite Hci. cbn [Z.eqb].
    destruct (Nat.leb_spec (length d - 10) 1); [lia|].
    rewrite !at_drop. change (10 + 1)%nat with 11%nat.
    rewrite Hv. cbn [Z.eqb].
    pose proof (land_below ci 15 4 ltac:(lia)
                  ltac:(change (2 ^ 4) with 16; lia)) as Hn.
    change (2 ^ 4) with 16 in Hn.
    destruct (Z.eqb_spec (Z.land ci 15) 23); [lia|].
    destruct (Z.eqb_spec (Z.land ci 15) 11); [contradiction|]. cbn [orb].
    pose proof (get_data_length_nonneg (Z.land ci 15)) as Hnn.
    destruct (Z.ltb_spec (Z.of_nat (length d - 10))
                (Z.of_nat 2 + _get_data_length (Z.land ci 15)));
      [unfold len in Hlen; lia|].
    fold len. f_equal. f_equal.
    unfold slice. rewrite drop_drop.
    replace (2 + len - 2)%nat with (12 + len - 12)%nat by lia. reflexivity. }
  destruct Hfirst as (rest & Hrec). exists rest. cbv zeta.
  split; [exact Hrec|].
  intros Reading parse drv Hcan. unfold process_telegram. rewrite Hcan.
  cbn [negb]. rewrite Hrec. cbn [mbind option_bind].
  unfold can_handle in Hcan.
  destruct (header (TelegramOps.init d)) as [h|]; [|discriminate].
  exists h. split; [reflexivity|]. cbn [mbind option_bind].
  destruct (parse (TelegramOps.init d) _); reflexivity.
Qed.

Lemma driver_reads_ci_as_dif_witness :
  let d := [0x44; 0x00; 0x2D; 0x2C; 0x48; 0x36; 0x35; 0x12; 0x18; 0x07;
            0x7A; 0x04; 0x13; 0x91; 0x17; 0x00; 0x00] in
  a_records (TelegramAnalysis.analyze_telegram d)
  = [mkRecord 0x04 0x13 [0x91; 0x17; 0x00; 0x00] 0 0 0 0 [] []] /\
  can_handle (mkDriver [] [] []) (TelegramOps.init d) = true /\
  exists rest,
    data_records (TelegramOps.init d)
    = Some (mkRecord 0x0A 0x04 [] 0 0 0 3 [] [] :: rest).
Proof.
  intros d. split; [reflexivity|]. split; [reflexivity|].
  assert (Hlen : (12 + Z.to_nat (_get_data_length (Z.land (at_ d 10) 0x0F))
                  <= length d)%nat) by (vm_compute; lia).
  destruct (driver_reads_ci_as_dif d Hlen eq_refl ltac:(discriminate) eq_refl)
    as (rest & Hrec & _).
  exists rest. exact Hrec.
Defined.

End DriverPayload.

(** ** The two record parsers *)

Section TwoParsers.
Import RecordParser TelegramData TelegramBlocks.

Lemma at_app_r (pre l : bytes) (i : nat) :
  at_ (pre ++ l) (length pre + i) = at_ l i.
Proof.
  unfold at_. rewrite lookup_app_r by lia.
  replace (length pre + i - length pre)%nat with i by lia. reflexivity.
Qed.

Lemma slice_app_r (pre l : bytes) (a b : nat) :
  slice (length pre + a) (length pre + b) (pre ++ l) = slice a b l.
Proof.
  unfold slice. rewrite drop_app_add.
  replace (length pre + b - (length pre + a))%nat with (b - a)%nat by lia.
  reflexivity.
Qed.

(** The two length tables agree on the data fields [0 .. 7]. *)
Lemma plain_length (dif : Z) :
  0 <= Z.land dif 0x0F <= 7 ->
  snd (_get_data_type_and_length dif)
  = Z.to_nat (_get_data_length (Z.land dif 0x0F)).
Proof.
  intros Hd. unfold _get_data_type_and_length. cbv zeta.
  assert (Hn : 0 <= Z.land dif 0x0F < 16) by lia.
  revert Hn Hd. generalize (Z.land dif 0x0F) as n. intros n Hn.
  revert n Hn. apply (nibble_cases (fun n => _ -> _)). intros k Hk Hd.
  do 8 (destruct k as [|k]; [reflexivity|]). lia.
Qed.

Lemma get_data_type_low_nibble (dif : Z) :
  _get_data_type_and_length (Z.land dif 0x0F) = _get_data_type_and_length dif.
Proof.
  unfold _get_data_type_and_length. cbv zeta.
  rewrite <- Z.land_assoc. reflexivity.
Qed.

Lemma store_block_low_bits (blocks : gmap string block_entry) (vif : Z)
    (v : Value) :
  store_block blocks (Z.land vif 0x7F) v = store_block blocks vif v.
Proof.
  unfold store_block, _get_field_info. cbv zeta.
  rewrite <- Z.land_assoc. reflexivity.
Qed.

(** Where the DIF, the VIF and the value of a record are found in a
    payload. *)
Lemma item_layout (pre rest : bytes) (it : PlainItem) :
  let data := pre ++ item_bytes it ++ rest in
  length data = (length pre + (2 + length (item_value it) + length rest))%nat /\
  at_ data (length pre) = item_dif it /\
  at_ data (S (length pre)) = item_vif it /\
  slice (S (S (length pre))) (S (S (length pre)) + length (item_value it)) data
  = item_value it.
Proof.
  intros data. unfold data. split; [|split; [|split]].
  - rewrite !length_app. unfold item_bytes. cbn [length]. lia.
  - pose proof (at_app_r pre (item_bytes it ++ rest) 0) as H.
    rewrite Nat.add_0_r in H. exact H.
  - replace (S (length pre)) with (length pre + 1)%nat by lia.
    rewrite at_app_r. reflexivity.
  - replace (S (S (length pre))) with (length pre + 2)%nat by lia.
    replace (length pre + 2 + length (item_value it))%nat
      with (length pre + (2 + length (item_value it)))%nat by lia.
    rewrite slice_app_r. unfold slice.
    change (drop 2 (item_bytes it ++ rest)) with (item_value it ++ rest).
    replace (2 + length (item_value it) - 2)%nat
      with (length (item_value it)) by lia.
    rewrite take_app_length. reflexivity.
Qed.

(** One pass of [parse_data_records] over a plain record. *)
Lemma parse_record_plain (pre rest : bytes) (it : PlainItem) :
  plain_item it ->
  parse_record (pre ++ item_bytes it ++ rest) (length pre)
  = Continue (item_record it) (length pre + length (item_bytes it)).
Proof.
  intros (Hdif & Hfield & Hvif & Hlen).
  pose proof (get_data_length_nonneg (Z.land (item_dif it) 0x0F)) as Hnn.
  destruct (item_layout pre rest it) as (Hl & H0 & H1 & Hv).
  cbv zeta in Hl, H0, H1, Hv.
  set (data := pre ++ item_bytes it ++ rest) in *.
  unfold parse_record. rewrite H0, Hdif. cbn [Z.eqb].
  destruct (Nat.leb_spec (length data) (S (length pre))); [lia|].
  rewrite H1, Hvif. cbn [Z.eqb].
  destruct (Z.eqb_spec (Z.land (item_dif it) 15) 23); [lia|].
  destruct (Z.eqb_spec (Z.land (item_dif it) 15) 11); [lia|]. cbn [orb].
  rewrite <- Hlen.
  destruct (Z.ltb_spec (Z.of_nat (length data))
              (Z.of_nat (S (S (length pre)))
               + Z.of_nat (length (item_value it)))); [lia|].
  rewrite Nat2Z.id, Hv. unfold item_record, item_bytes. cbn [length].
  f_equal. lia.
Qed.

Lemma parse_loop_plain (items : list PlainItem) :
  Forall plain_item items ->
  forall pre records passes fuel,
    (length items < fuel)%nat ->
    parse_loop fuel (pre ++ concat (map item_bytes items)) (length pre)
      records passes
    = Some (records ++ map item_record items, (passes + length items)%nat).
Proof.
  induction items as [|it items IH]; intros Hall pre records passes fuel Hf.
  - destruct fuel as [|fuel]; [simpl in Hf; lia|].
    cbn [map concat parse_loop]. rewrite !app_nil_r.
    destruct (Nat.ltb_spec (length pre) (length pre)); [lia|].
    cbn [length]. rewrite Nat.add_0_r. reflexivity.
  - apply Forall_cons in Hall as [Hit Hall].
    destruct fuel as [|fuel]; [simpl in Hf; lia|].
    cbn [map concat parse_loop].
    destruct (Nat.ltb_spec (length pre)
                (length (pre ++ item_bytes it ++ concat (map item_bytes items))))
      as [_|Hge].
    2:{ rewrite !length_app in Hge. unfold item_bytes in Hge.
        cbn [length] in Hge. lia. }
    rewrite (parse_record_plain pre _ it Hit).
    rewrite <- length_app. rewrite (app_assoc pre).
    rewrite (IH Hall (pre ++ item_bytes it) (records ++ [item_record it])
               (S passes) fuel) by (simpl in Hf; lia).
    rewrite <- app_assoc. cbn [app length]. do 2 f_equal. lia.
Qed.

(** [_parse_data_blocks] over plain records. *)
Lemma blocks_loop_plain (items : list PlainItem) :
  Forall plain_item items ->
  forall pre blocks fuel,
    (length items < fuel)%nat ->
    blocks_loop fuel (pre ++ concat (map item_bytes items)) (length pre)
      blocks
    = Some (fold_left store_record (map item_record items) blocks).
Proof.
  induction items as [|it items IH]; intros Hall pre blocks fuel Hf.
  - destruct fuel as [|fuel]; [simpl in Hf; lia|].
    cbn [map concat blocks_loop fold_left]. rewrite !app_nil_r.
    destruct (Nat.ltb_spec (length pre) (length pre)); [lia|]. reflexivity.
  - apply Forall_cons in Hall as [Hit Hall].
    pose proof Hit as (Hdif & Hfield & Hvif & Hlen).
    pose proof (get_data_length_nonneg (Z.land (item_dif it) 0x0F)) as Hnn.
    destruct fuel as [|fuel]; [simpl in Hf; lia|].
    cbn [map concat fold_left].
    destruct (item_layout pre (concat (map item_bytes items)) it)
      as (Hl & H0 & H1 & Hv).
    cbv zeta in Hl, H0, H1, Hv.
    pose proof (IH Hall (pre ++ item_bytes it)
                  (store_record blocks (item_record it)) fuel
                  ltac:(simpl in Hf; lia)) as Hrest.
    rewrite <- app_assoc in Hrest.
    replace (length (pre ++ item_bytes it))
      with (S (S (length pre)) + length (item_value it))%nat in Hrest
      by (rewrite length_app; unfold item_bytes; cbn [length]; lia).
    set (data := pre ++ item_bytes it ++ concat (map item_bytes items)) in *.
    cbn [blocks_loop].
    destruct (Nat.ltb_spec (length pre) (length data)); [|lia].
    destruct (Nat.ltb_spec (length data) (length pre + 2)); [lia|].
    rewrite H0, H1.
    pose proof (plain_length (item_dif it) Hfield) as Hsnd.
    destruct (_get_data_type_and_length (item_dif it)) as [ty n] eqn:Ety.
    cbn [snd] in Hsnd.
    assert (Hn : n = length (item_value it)) by lia.
    clear Hsnd. subst n.
    destruct (Nat.ltb_spec (length data)
                (S (S (length pre)) + length (item_value it))); [lia|].
    rewrite Hv, <- Hrest. f_equal.
    unfold store_record, item_record. cbn [dif vif value].
    rewrite get_data_type_low_nibble, Ety, store_block_low_bits. reflexivity.
Qed.

(** X28: on a payload of plain records the two record parsers of the
    repository read the same records.  For records laid out one after
    the other, each with a DIF and a VIF without extension bit, a data
    field in [0 .. 7] and a value of the length that field asks for,
    [MBusProtocol.parse_data_records] returns one record for each, with
    its data field, VIF, function and value bytes, and
    [Telegram._parse_data_blocks] returns the [dict] obtained by
    storing, record after record, the decoded value bytes of those
    records under the field of their VIF: a later record of the same
    field replaces an earlier one. *)
Theorem parsers_agree_on_plain_records (items : list PlainItem) :
  Forall plain_item items ->
  let data := concat (map item_bytes items) in
  exists records,
    parse_data_records data = Some records /\
    records = map item_record items /\
    _parse_data_blocks data = Some (fold_left store_record records ∅).
Proof.
  intros Hall data. exists (map item_record items).
  assert (Hfuel : (length items < S (length data))%nat).
  { unfold data. clear Hall. induction items as [|it items IH];
      [simpl; lia|].
    cbn [map concat]. rewrite length_app. unfold item_bytes at 1.
    cbn [length]. cbn [length] in IH. lia. }
  split; [|split; [reflexivity|]].
  - assert (Hp : parse_data_records_passes data
                 = parse_loop (S (length data)) data 0 [] 0)
      by (destruct data; reflexivity).
    unfold parse_data_records. rewrite Hp.
    pose proof (parse_loop_plain items Hall [] [] 0 (S (length data)) Hfuel)
      as Hrun.
    cbn [app length] in Hrun. fold data in Hrun. rewrite Hrun. reflexivity.
  - unfold _parse_data_blocks.
    exact (blocks_loop_plain items Hall [] ∅ (S (length data)) Hfuel).
Qed.

Lemma parsers_agree_on_plain_records_witness :
  let items := [mkItem 0x04 0x13 [0x91; 0x17; 0x00; 0x00];
                mkItem 0x02 0x5A [0x10; 0x01];
                mkItem 0x01 0x14 [0x2A]] in
  Forall plain_item items /\
  exists records,
    parse_data_records (concat (map item_bytes items)) = Some records /\
    records = map item_record items /\
    _parse_data_blocks (concat (map item_bytes items))
    = Some (fold_left store_record records ∅) /\
    fold_left store_record records ∅ !! "volume"%string
    = Some (BlockValue (VInt 0x2A)).
Proof.
  intros items.
  assert (Hall : Forall plain_item items).
  { unfold items, plain_item.
    repeat (apply Forall_cons_2;
            [cbn [item_dif item_vif item_value length];
             repeat split; first [reflexivity | discriminate]|]).
    apply Forall_nil_2. }
  split; [exact Hall|].
  destruct (parsers_agree_on_plain_records items Hall)
    as (records & Hp & Hr & Hb).
  exists records. split; [exact Hp|]. split; [exact Hr|].
  split; [exact Hb|]. rewrite Hr. vm_compute. reflexivity.
Defined.

End TwoParsers.
